(** * Lead CRM workflow engine: a shallow embedding of
      [Backend/leads/models.py] and [Backend/leads/services.py].

    Python objects that reach the engine as JSON are modelled by the type
    [value]; pydantic models are records, one module per class so that the
    fields keep the names they have in the source; the three MongoDB
    collections are lists of documents in natural (insertion) order; every
    service method runs in a small state-and-exception monad over the
    collections. *)

From Stdlib Require Import ZArith QArith String Ascii List Bool Lia.
From Stdlib Require Import Permutation Sorted DecimalString FinFun.
From Stdlib Require Import DecimalFacts DecimalPos DecimalN.
From stdpp Require Import base option gmap strings.

Import ListNotations.
Local Open Scope Z_scope.
Local Open Scope string_scope.
Local Open Scope list_scope.

(* ===================================================================== *)
(** ** Python values *)
(* ===================================================================== *)

(** A Python object as it arrives from a JSON request body or a BSON
    document.  Strings are UTF-8 byte strings, for which the byte-wise order
    is the code-point order Python and MongoDB's simple collation use.
    Floats are the finite ones, kept as the rational they denote. *)
#[warnings="-register-all"]
Inductive value : Type :=
| VNone
| VBool (b : bool)
| VInt (n : Z)
| VFloat (q : Q)
| VStr (s : string)
| VList (l : list value)
| VDict (d : list (string * value)).

(** [type(v).__name__] *)
Definition type_name (v : value) : string :=
  match v with
  | VNone => "NoneType"
  | VBool _ => "bool"
  | VInt _ => "int"
  | VFloat _ => "float"
  | VStr _ => "str"
  | VList _ => "list"
  | VDict _ => "dict"
  end.

(** [isinstance(v, int)]: [bool] is a subclass of [int]. *)
Definition isinstance_int (v : value) : bool :=
  match v with VInt _ | VBool _ => true | _ => false end.

Definition isinstance_float (v : value) : bool :=
  match v with VFloat _ => true | _ => false end.

Definition isinstance_bool (v : value) : bool :=
  match v with VBool _ => true | _ => false end.

Definition is_None (v : value) : bool :=
  match v with VNone => true | _ => false end.

(** The number a [bool], [int] or [float] stands for in a comparison. *)
Definition as_number (v : value) : option Q :=
  match v with
  | VBool b => Some (if b then 1%Q else 0%Q)
  | VInt n => Some (inject_Z n)
  | VFloat q => Some q
  | _ => None
  end.

Definition Qlt_bool (x y : Q) : bool := negb (Qle_bool y x).

(** *** Exceptions *)

(** An exception message is kept as the list of its parts: literal text
    (string holes are filled in), [Fmt v] for [str(v)] and [Repr v] for
    [repr(v)] of an arbitrary object, which are not rendered. *)
Inductive frag : Type :=
| Lit (s : string)
| Fmt (v : value)
| Repr (v : value).

Definition message := list frag.

Definition text (s : string) : message := [Lit s].

Inductive exn : Type :=
| ValueError (msg : message)
| TypeError (msg : message)
| AttributeError (msg : message)
| ValidationError (model : string) (locs : list string).

Inductive result (A : Type) : Type :=
| Ok (a : A)
| Raise (e : exn).
Arguments Ok {A} a.
Arguments Raise {A} e.

Definition is_Ok {A} (r : result A) : bool :=
  match r with Ok _ => true | Raise _ => false end.

(** *** Rich comparison *)

Inductive cmpop : Type := OpLt | OpGt.

Definition op_symbol (op : cmpop) : string :=
  match op with OpLt => "<" | OpGt => ">" end.

(** The [TypeError] of an ordered comparison neither operand supports. *)
Definition not_supported (op : cmpop) (a b : value) : exn :=
  TypeError (text ("'" +:+ op_symbol op +:+ "' not supported between instances of '"
                   +:+ type_name a +:+ "' and '" +:+ type_name b +:+ "'")).

Fixpoint assoc (k : string) (d : list (string * value)) : option value :=
  match d with
  | [] => None
  | (k', v) :: d' => if String.eqb k k' then Some v else assoc k d'
  end.

(** [a == b]; never raises on these types.  Dictionaries compare by
    content: same number of keys, and every key of the left one bound to an
    equal value in the right one. *)
Fixpoint py_eq (a b : value) {struct a} : bool :=
  match a, b with
  | VNone, VNone => true
  | VStr s, VStr t => String.eqb s t
  | VList l, VList m =>
      (fix all2 (l : list value) (m : list value) {struct l} : bool :=
         match l, m with
         | [], [] => true
         | x :: l', y :: m' => py_eq x y && all2 l' m'
         | _, _ => false
         end) l m
  | VDict d, VDict e =>
      Nat.eqb (length d) (length e) &&
      (fix each (d : list (string * value)) {struct d} : bool :=
         match d with
         | [] => true
         | (k, x) :: d' =>
             match assoc k e with
             | Some y => py_eq x y && each d'
             | None => false
             end
         end) d
  | _, _ =>
      match as_number a, as_number b with
      | Some x, Some y => Qeq_bool x y
      | _, _ => false
      end
  end.

Definition compare_numbers (op : cmpop) (x y : Q) : bool :=
  match op with OpLt => Qlt_bool x y | OpGt => Qlt_bool y x end.

Definition compare_strings (op : cmpop) (s t : string) : bool :=
  match op with OpLt => String.ltb s t | OpGt => String.ltb t s end.

Definition compare_lengths (op : cmpop) (n m : nat) : bool :=
  match op with OpLt => Nat.ltb n m | OpGt => Nat.ltb m n end.

(** [a < b] and [a > b].  Numbers compare by value, strings and lists
    lexicographically (a list by its first pair of unequal items, then by
    length); every other pairing, among them anything against [None],
    raises [TypeError]. *)
Fixpoint py_compare (op : cmpop) (a b : value) {struct a} : result bool :=
  match a, b with
  | VStr s, VStr t => Ok (compare_strings op s t)
  | VList l, VList m =>
      (fix items (l' : list value) (m' : list value) {struct l'} : result bool :=
         match l', m' with
         | x :: l'', y :: m'' =>
             if py_eq x y then items l'' m'' else py_compare op x y
         | _, _ => Ok (compare_lengths op (length l') (length m'))
         end) l m
  | _, _ =>
      match as_number a, as_number b with
      | Some x, Some y => Ok (compare_numbers op x y)
      | _, _ => Raise (not_supported op a b)
      end
  end.

Definition py_lt := py_compare OpLt.
Definition py_gt := py_compare OpGt.

(* ===================================================================== *)
(** ** models.py: enumerations *)
(* ===================================================================== *)

Inductive WorkItemTaskStatus : Type :=
| TASK_PENDING | TASK_IN_PROGRESS | TASK_COMPLETED | TASK_SKIPPED | TASK_BLOCKED.

Inductive WorkItemStatus : Type :=
| PENDING | IN_PROGRESS | COMPLETED | SKIPPED | BLOCKED.

Inductive FieldType : Type :=
| STRING | INTEGER | DECIMAL | BOOLEAN | DATE | DATETIME | ENUM | ARRAY | DOCUMENT.

Definition WorkItemTaskStatus_eqb (a b : WorkItemTaskStatus) : bool :=
  match a, b with
  | TASK_PENDING, TASK_PENDING | TASK_IN_PROGRESS, TASK_IN_PROGRESS
  | TASK_COMPLETED, TASK_COMPLETED | TASK_SKIPPED, TASK_SKIPPED
  | TASK_BLOCKED, TASK_BLOCKED => true
  | _, _ => false
  end.

(** The member of [FieldType] with a given value, as pydantic resolves it. *)
Definition FieldType_of_string (s : string) : option FieldType :=
  if String.eqb s "string" then Some STRING
  else if String.eqb s "integer" then Some INTEGER
  else if String.eqb s "decimal" then Some DECIMAL
  else if String.eqb s "boolean" then Some BOOLEAN
  else if String.eqb s "date" then Some DATE
  else if String.eqb s "datetime" then Some DATETIME
  else if String.eqb s "enum" then Some ENUM
  else if String.eqb s "array" then Some ARRAY
  else if String.eqb s "document" then Some DOCUMENT
  else None.

(** A point in time, as [datetime.now(UTC)] returns it. *)
Definition datetime := Z.

Inductive ArrayItemType : Type :=
| ITEM_STRING | ITEM_INTEGER | ITEM_DECIMAL | ITEM_BOOLEAN
| ITEM_DATE | ITEM_DATETIME | ITEM_ENUM | ITEM_DOCUMENT.

Inductive InputType : Type :=
| TEXT | TEXTAREA | NUMBER | DROPDOWN | MULTI_SELECT | RADIO | CHECKBOX
| DATE_PICKER | DATETIME_PICKER | EMAIL | PHONE | URL | FILE_UPLOAD.

(* ===================================================================== *)
(** ** models.py: the pydantic models *)
(* ===================================================================== *)

(** A [Dict[str, Any]] that is only stored and handed back. *)
Definition open_map := list (string * value).

Module FieldDefinition.
Record t : Type := mk {
field_key : string;
label : string;
field_type : FieldType;
input_type : InputType;
required : bool;
options : list string;
default_value : option string;
validation_rules : gmap string value;
placeholder : string;
help_text : string;
order : Z;
is_active : bool;
array_item_type : option ArrayItemType
}.
End FieldDefinition.

(** [FieldValueBase]; [TaskFieldValue] and [ConfigFieldValue] add nothing. *)
Module FieldValueBase.
Record t : Type := mk {
variable : string;
field_type : FieldType;
original_value : string;
value : value
}.
End FieldValueBase.

Module TaskFieldValue := FieldValueBase.
Module ConfigFieldValue := FieldValueBase.

Module WorkStageTask.
Record t : Type := mk {
uid : string;
name : string;
description : option string;
required : bool;
order : Z;
is_active : bool;
task_variables : list FieldDefinition.t
}.
End WorkStageTask.

Module WorkItemTask.
Record t : Type := mk {
uid : string;
name : string;
description : option string;
template_id : string;
stage : string;
status : WorkItemTaskStatus;
required : bool;
order : Z;
is_active : bool;
task_variables : list FieldDefinition.t;
completed_at : option datetime;
completed_by : option string;
notes : string;
field_values : list TaskFieldValue.t
}.
End WorkItemTask.

(** The store's own [_id] is left out of the three document models: no
    query of the service selects on it. *)
Module WorkStage.
Record t : Type := mk {
uid : string;
config : string;
name : string;
slug : string;
color : string;
description : option string;
order : Z;
is_active : bool;
allowed_next_stages : list string;
stage_tasks : list WorkStageTask.t;
created_at : datetime;
updated_at : datetime
}.
End WorkStage.

Module Activity.
Record t : Type := mk {
type : string;
subject : string;
description : option string;
performed_by : option string;
created_at : datetime;
created_by : option string;
activity_data : open_map
}.
End Activity.

Module HistoryData.
Record t : Type := mk {
stage : string;
entered_at : datetime;
exited_at : option datetime
}.
End HistoryData.

Module WorkItem.
Record t : Type := mk {
uid : string;
item_id : string;
current_stage : string;
status : WorkItemStatus;
name : string;
email : option string;
phone : option string;
config : string;
config_values : list ConfigFieldValue.t;
assigned_to : list string;
properties : open_map;
linked_entities : open_map;
history : list HistoryData.t;
tasks : list WorkItemTask.t;
activities : list Activity.t;
created_at : datetime;
updated_at : datetime;
created_by : option string
}.
End WorkItem.

Module WorkItemConfig.
Record t : Type := mk {
uid : string;
workflow_name : string;
is_active : bool;
variables : list FieldDefinition.t;
created_at : datetime;
updated_at : datetime
}.
End WorkItemConfig.

(* ===================================================================== *)
(** ** models.py: validate_field_value *)
(* ===================================================================== *)

(** [f"{type(value)}"] *)
Definition type_repr (v : value) : string :=
  "<class '" +:+ type_name v +:+ "'>".

(** The leading [if]/[elif] chain on [field_def.field_type]. *)
Definition check_type (field_def : FieldDefinition.t) (v : value) : result unit :=
  match FieldDefinition.field_type field_def with
  | INTEGER =>
      if negb (isinstance_int v)
      then Raise (ValueError (text (FieldDefinition.field_key field_def
                    +:+ ": Expected integer, got " +:+ type_repr v)))
      else Ok tt
  | DECIMAL =>
      if negb (isinstance_int v || isinstance_float v)
      then Raise (ValueError (text (FieldDefinition.field_key field_def
                    +:+ ": Expected number, got " +:+ type_repr v)))
      else Ok tt
  | BOOLEAN =>
      if negb (isinstance_bool v)
      then Raise (ValueError (text (FieldDefinition.field_key field_def
                    +:+ ": Expected boolean, got " +:+ type_repr v)))
      else Ok tt
  | _ => Ok tt
  end.

(** ["K" in rules and value OP rules["K"]]: the comparison runs only when
    the key is present, and may raise. *)
Definition rule_broken (op : cmpop) (key : string)
    (rules : gmap string value) (v : value) : result (option value) :=
  match rules !! key with
  | None => Ok None
  | Some bound =>
      match py_compare op v bound with
      | Raise e => Raise e
      | Ok true => Ok (Some bound)
      | Ok false => Ok None
      end
  end.

(** [if field_def.validation_rules:] with its two checks. *)
Definition check_rules (field_def : FieldDefinition.t) (v : value) : result unit :=
  let rules := FieldDefinition.validation_rules field_def in
  if decide (rules = ∅) then Ok tt
  else
    match rule_broken OpLt "min" rules v with
    | Raise e => Raise e
    | Ok (Some bound) =>
        Raise (ValueError [Lit (FieldDefinition.field_key field_def +:+ ": Value ");
                           Fmt v; Lit " below minimum "; Fmt bound])
    | Ok None =>
        match rule_broken OpGt "max" rules v with
        | Raise e => Raise e
        | Ok (Some bound) =>
            Raise (ValueError [Lit (FieldDefinition.field_key field_def +:+ ": Value ");
                               Fmt v; Lit " exceeds maximum "; Fmt bound])
        | Ok None => Ok tt
        end
    end.

Definition check_required (field_def : FieldDefinition.t) (v : value) : result unit :=
  if FieldDefinition.required field_def && is_None v
  then Raise (ValueError (text (FieldDefinition.field_key field_def
                +:+ ": Required field cannot be None")))
  else Ok tt.

Definition validate_field_value (field_def : FieldDefinition.t) (v : value)
  : result bool :=
  match check_type field_def v with
  | Raise e => Raise e
  | Ok _ =>
      match check_rules field_def v with
      | Raise e => Raise e
      | Ok _ =>
          match check_required field_def v with
          | Raise e => Raise e
          | Ok _ => Ok true
          end
      end
  end.

(* ===================================================================== *)
(** ** The world the service runs in *)
(* ===================================================================== *)

(** The three collections of [lead_crm/database.py], each a list of
    documents in natural order, and the source of [uuid.uuid4()]:
    [uuid_source n] is the string of the [n]-th UUID drawn, [uuid_drawn] the
    number drawn so far. *)
Record World : Type := mkWorld {
  leads_collection : list WorkItem.t;
  stages_collection : list WorkStage.t;
  configs_collection : list WorkItemConfig.t;
  uuid_source : nat -> string;
  uuid_drawn : nat
}.

Definition set_leads (w : World) (leads : list WorkItem.t) : World :=
  mkWorld leads (stages_collection w) (configs_collection w)
          (uuid_source w) (uuid_drawn w).

(** A service call: it ends in a value or an exception, and leaves a world. *)
Definition M (A : Type) : Type := World -> result A * World.

Definition ret {A} (a : A) : M A := fun w => (Ok a, w).

Definition raise {A} (e : exn) : M A := fun w => (Raise e, w).

Definition bind {A B} (m : M A) (k : A -> M B) : M B :=
  fun w =>
    match m w with
    | (Ok a, w') => k a w'
    | (Raise e, w') => (Raise e, w')
    end.

Notation "x <- m ;; k" := (bind m (fun x => k))
  (at level 100, m at next level, right associativity).

Definition lift {A} (r : result A) : M A := fun w => (r, w).

Fixpoint mapM {A B} (f : A -> M B) (l : list A) : M (list B) :=
  match l with
  | [] => ret []
  | x :: l' => y <- f x ;; ys <- mapM f l' ;; ret (y :: ys)
  end.

(** [str(uuid.uuid4())] *)
Definition uuid4 : M string :=
  fun w =>
    (Ok (uuid_source w (uuid_drawn w)),
     mkWorld (leads_collection w) (stages_collection w) (configs_collection w)
             (uuid_source w) (S (uuid_drawn w))).

(** *** Collection primitives *)

(** [update_one]: the first document the filter selects is rewritten. *)
Fixpoint update_first {A} (p : A -> bool) (f : A -> A) (l : list A) : list A :=
  match l with
  | [] => []
  | x :: l' => if p x then f x :: l' else x :: update_first p f l'
  end.

(** [matched_count] of an [update_one]. *)
Definition matched_count {A} (p : A -> bool) (l : list A) : Z :=
  if existsb p l then 1 else 0.

Definition uid_is (uid : string) (doc : WorkItem.t) : bool :=
  String.eqb (WorkItem.uid doc) uid.

(** [", ".join(parts)] *)
Fixpoint join (sep : string) (parts : list string) : string :=
  match parts with
  | [] => ""
  | [p] => p
  | p :: rest => p +:+ sep +:+ join sep rest
  end.

(** [x in xs] for a list of strings. *)
Definition str_in (x : string) (xs : list string) : bool :=
  existsb (String.eqb x) xs.

(* ===================================================================== *)
(** ** models.py: generate_lead_id *)
(* ===================================================================== *)

(** [s.startswith(p)] *)
Fixpoint startswith (p s : string) : bool :=
  match p, s with
  | EmptyString, _ => true
  | String a p', String b s' => Ascii.eqb a b && startswith p' s'
  | String _ _, EmptyString => false
  end.

(** [s.split(sep)] for a one-character separator; never empty. *)
Fixpoint split (sep : ascii) (s : string) : list string :=
  match s with
  | EmptyString => [""]
  | String c s' =>
      if Ascii.eqb c sep then "" :: split sep s'
      else match split sep s' with
           | [] => [String c ""]
           | p :: ps => String c p :: ps
           end
  end.

Definition is_space (c : ascii) : bool :=
  let n := nat_of_ascii c in
  ((9 <=? n) && (n <=? 13))%nat || (n =? 32)%nat.

Fixpoint lstrip (s : string) : string :=
  match s with
  | String c s' => if is_space c then lstrip s' else s
  | EmptyString => EmptyString
  end.

Fixpoint rstrip (s : string) : string :=
  match s with
  | EmptyString => EmptyString
  | String c s' =>
      match rstrip s' with
      | EmptyString => if is_space c then EmptyString else String c EmptyString
      | t => String c t
      end
  end.

Definition digit_of (c : ascii) : option Z :=
  let n := nat_of_ascii c in
  if ((48 <=? n) && (n <=? 57))%nat then Some (Z.of_nat n - 48) else None.

(** The digits of an integer literal, most significant first; a single
    underscore may sit between two digits.  [seen] tells whether the
    previous character was a digit. *)
Fixpoint parse_digits (seen : bool) (acc : Z) (s : string) : option Z :=
  match s with
  | EmptyString => if seen then Some acc else None
  | String c s' =>
      match digit_of c with
      | Some d => parse_digits true (10 * acc + d) s'
      | None =>
          if Ascii.eqb c "_" && seen
          then match s' with
               | String c' _ =>
                   match digit_of c' with
                   | Some _ => parse_digits false acc s'
                   | None => None
                   end
               | EmptyString => None
               end
          else None
      end
  end.

(** [int(s)] on a string of ASCII characters: surrounding white space, an
    optional sign, decimal digits.  Python also takes the digits and the
    white space of other scripts, and raises [ValueError] on more than 4300
    digits; the model covers neither, and is exact on the texts the
    generator writes itself. *)
Definition int_of_str (s : string) : result Z :=
  let body := rstrip (lstrip s) in
  let parsed :=
    match body with
    | String "-" rest => option_map Z.opp (parse_digits false 0 rest)
    | String "+" rest => parse_digits false 0 rest
    | _ => parse_digits false 0 body
    end in
  match parsed with
  | Some n => Ok n
  | None => Raise (ValueError [Lit "invalid literal for int() with base 10: ";
                               Repr (VStr s)])
  end.

Definition decimal (n : Z) : string :=
  NilZero.string_of_uint (N.to_uint (Z.to_N n)).

Fixpoint zeros (k : nat) : string :=
  match k with O => "" | S k' => String "0" (zeros k') end.

(** [f"{n:05d}"]: zero padding to five characters, the sign counted in.
    Exact for numbers of up to 4300 digits; beyond that Python raises
    [ValueError] where the model still returns a text. *)
Definition format_05d (n : Z) : string :=
  if (n <? 0)%Z
  then "-" +:+ zeros (4 - String.length (decimal (- n))) +:+ decimal (- n)
  else zeros (5 - String.length (decimal n)) +:+ decimal n.

(** [collection.find_one({"item_id": {"$regex": "^" + pattern}},
    sort=[("item_id", -1)])]: of the documents whose [item_id] starts with
    the pattern, one with the greatest [item_id] in the byte-wise order.
    The pattern is matched as literal text, which is what the regular
    expression does for a prefix without metacharacters, the default
    ["LEAD"] among them.  The source does not escape the prefix: for one
    with a metacharacter (["L.AD"]) the query matches more than the model
    does, and the model says nothing of the code. *)
Fixpoint find_last_lead (pattern : string) (collection : list WorkItem.t)
  : option WorkItem.t :=
  match collection with
  | [] => None
  | doc :: rest =>
      if startswith pattern (WorkItem.item_id doc)
      then match find_last_lead pattern rest with
           | Some best =>
               if String.ltb (WorkItem.item_id doc) (WorkItem.item_id best)
               then Some best else Some doc
           | None => Some doc
           end
      else find_last_lead pattern rest
  end.

(** [generate_lead_id(collection, prefix)]; [year_month] is
    [datetime.now().strftime("%Y%m")].  The service calls it with the
    default prefix ["LEAD"] only. *)
Definition generate_lead_id (year_month : string)
    (collection : list WorkItem.t) (prefix : string) : result string :=
  let prefix_pattern := prefix +:+ "-" +:+ year_month +:+ "-" in
  match find_last_lead prefix_pattern collection with
  | Some last_lead =>
      match int_of_str (List.last (split "-" (WorkItem.item_id last_lead)) "") with
      | Ok last_num => Ok (prefix_pattern +:+ format_05d (last_num + 1))
      | Raise e => Raise e
      end
  | None => Ok (prefix_pattern +:+ format_05d 1)
  end.

(* ===================================================================== *)
(** ** services.py: LeadService *)
(* ===================================================================== *)

(** [find_one({"uid": uid})] on the leads. *)
Definition get_lead (uid : string) : M (option WorkItem.t) :=
  fun w => (Ok (List.find (uid_is uid) (leads_collection w)), w).

Definition get_stage (uid : string) : M (option WorkStage.t) :=
  fun w =>
    (Ok (List.find (fun doc => String.eqb (WorkStage.uid doc) uid)
                   (stages_collection w)), w).

(** [insert_one]: the document goes to the end of the collection.  The
    unique indexes of [create_indexes], a set-up step the service does not
    run itself, are not part of the model. *)
Definition insert_lead (doc : WorkItem.t) : M unit :=
  fun w => (Ok tt, set_leads w (leads_collection w ++ [doc])).

(** [update_one({"uid": uid}, ...)] on the leads; gives [modified_count].
    Every update the service sends pushes onto an array, so a matched
    document is a modified one. *)
Definition update_one_lead (filter : WorkItem.t -> bool)
    (update : WorkItem.t -> WorkItem.t) : M Z :=
  fun w =>
    (Ok (matched_count filter (leads_collection w)),
     set_leads w (update_first filter update (leads_collection w))).

(** *** create_lead *)

(** The keyword arguments [lead_data] unpacks into [WorkItem], as pydantic
    accepts them: [uid] and [item_id] may be absent, every other field is
    present or defaulted. *)
Module LeadData.
Record t : Type := mk {
uid : option string;
item_id : option string;
current_stage : string;
status : WorkItemStatus;
name : string;
email : option string;
phone : option string;
config : string;
config_values : list ConfigFieldValue.t;
assigned_to : list string;
properties : open_map;
linked_entities : open_map;
history : list HistoryData.t;
tasks : list WorkItemTask.t;
activities : list Activity.t;
created_by : option string
}.
End LeadData.

Definition is_empty {A} (l : list A) : bool :=
  match l with [] => true | _ => false end.

Definition str_truthy (s : string) : bool :=
  negb (String.eqb s "").

(** [create_lead(lead_data)].  [year_month] is the month the ID generator
    reads off the local clock, [now] is [datetime.now(UTC)].  The source
    returns the [_id] the store assigned; the model returns the document
    that was inserted. *)
Definition create_lead (year_month : string) (now : datetime)
    (lead_data : LeadData.t) : M WorkItem.t :=
  uid <- match LeadData.uid lead_data with
         | Some u => ret u
         | None => uuid4
         end ;;
  item_id <- match LeadData.item_id lead_data with
             | Some i => ret i
             | None => fun w =>
                 (generate_lead_id year_month (leads_collection w) "LEAD", w)
             end ;;
  let current_stage := LeadData.current_stage lead_data in
  let history :=
    if is_empty (LeadData.history lead_data) && str_truthy current_stage
    then LeadData.history lead_data ++ [HistoryData.mk current_stage now None]
    else LeadData.history lead_data in
  let activities :=
    if is_empty (LeadData.activities lead_data)
    then LeadData.activities lead_data ++
         [Activity.mk "CREATED" "Lead created" None
            (LeadData.created_by lead_data) now
            (LeadData.created_by lead_data) []]
    else LeadData.activities lead_data in
  let lead :=
    WorkItem.mk uid item_id current_stage (LeadData.status lead_data)
      (LeadData.name lead_data) (LeadData.email lead_data)
      (LeadData.phone lead_data) (LeadData.config lead_data)
      (LeadData.config_values lead_data) (LeadData.assigned_to lead_data)
      (LeadData.properties lead_data) (LeadData.linked_entities lead_data)
      history (LeadData.tasks lead_data) activities now now
      (LeadData.created_by lead_data) in
  _ <- insert_lead lead ;;
  ret lead.

(** *** transition_stage *)

(** [hist.exited_at is None] *)
Definition is_open (hist : HistoryData.t) : bool :=
  match HistoryData.exited_at hist with None => true | Some _ => false end.

(** The loop over [lead.history]: every open entry of the current stage is
    closed at [now]. *)
Definition exit_stage (current_stage : string) (now : datetime)
    (hist : HistoryData.t) : HistoryData.t :=
  if String.eqb (HistoryData.stage hist) current_stage
     && is_open hist
  then HistoryData.mk (HistoryData.stage hist) (HistoryData.entered_at hist)
                      (Some now)
  else hist.

(** One pass of the loop over [new_stage.stage_tasks]. *)
Definition instantiate_task (new_stage_uid : string)
    (stage_task : WorkStageTask.t) : M WorkItemTask.t :=
  uid <- uuid4 ;;
  ret (WorkItemTask.mk uid
         (WorkStageTask.name stage_task)
         (WorkStageTask.description stage_task)
         (WorkStageTask.uid stage_task)
         new_stage_uid
         TASK_PENDING
         (WorkStageTask.required stage_task)
         (WorkStageTask.order stage_task)
         (WorkStageTask.is_active stage_task)
         (WorkStageTask.task_variables stage_task)
         None None "" []).

(** [t.required and t.status != WorkItemTaskStatus.COMPLETED] *)
Definition blocks_transition (t : WorkItemTask.t) : bool :=
  WorkItemTask.required t
  && negb (WorkItemTaskStatus_eqb (WorkItemTask.status t) TASK_COMPLETED).

(** The [$set] and [$push] of the transition, applied to the stored
    document.  [history] is the list the method holds in memory; the object
    [new_history] the method builds is in neither operator. *)
Definition transition_update (new_stage_uid : string) (now : datetime)
    (history : list HistoryData.t) (new_tasks : list WorkItemTask.t)
    (activity : Activity.t) (doc : WorkItem.t) : WorkItem.t :=
  WorkItem.mk (WorkItem.uid doc) (WorkItem.item_id doc)
    new_stage_uid IN_PROGRESS
    (WorkItem.name doc) (WorkItem.email doc) (WorkItem.phone doc)
    (WorkItem.config doc) (WorkItem.config_values doc)
    (WorkItem.assigned_to doc) (WorkItem.properties doc)
    (WorkItem.linked_entities doc)
    history
    (WorkItem.tasks doc ++ new_tasks)
    (WorkItem.activities doc ++ [activity])
    (WorkItem.created_at doc) now (WorkItem.created_by doc).

Definition lead_not_found (lead_uid : string) : exn :=
  ValueError (text ("Lead " +:+ lead_uid +:+ " not found")).

Definition stage_not_found (stage_uid : string) : exn :=
  ValueError (text ("Stage " +:+ stage_uid +:+ " not found")).

Definition transition_not_allowed (from_name to_name : string) : exn :=
  ValueError (text ("Transition from " +:+ from_name +:+ " to " +:+ to_name
                    +:+ " not allowed")).

Definition required_tasks_incomplete (task_names : list string) : exn :=
  ValueError (text ("Required tasks not completed: " +:+ join ", " task_names)).

(** Reading [allowed_next_stages] off [None]. *)
Definition none_has_no_attribute (attr : string) : exn :=
  AttributeError (text ("'NoneType' object has no attribute '" +:+ attr +:+ "'")).

(** [transition_stage(lead_uid, new_stage_uid, comment, performed_by)];
    [now] is the [datetime.now(UTC)] the method reads. *)
Definition transition_stage (now : datetime) (lead_uid new_stage_uid : string)
    (comment : string) (performed_by : option string) : M bool :=
  found <- get_lead lead_uid ;;
  match found with
  | None => raise (lead_not_found lead_uid)
  | Some lead =>
      current_stage <- get_stage (WorkItem.current_stage lead) ;;
      new_stage <- get_stage new_stage_uid ;;
      match new_stage with
      | None => raise (stage_not_found new_stage_uid)
      | Some new_stage =>
          match current_stage with
          | None => raise (none_has_no_attribute "allowed_next_stages")
          | Some current_stage =>
              if negb (str_in new_stage_uid
                         (WorkStage.allowed_next_stages current_stage))
              then raise (transition_not_allowed
                            (WorkStage.name current_stage)
                            (WorkStage.name new_stage))
              else
                let required_tasks :=
                  List.filter blocks_transition (WorkItem.tasks lead) in
                if negb (is_empty required_tasks)
                then raise (required_tasks_incomplete
                              (map WorkItemTask.name required_tasks))
                else
                  let history :=
                    map (exit_stage (WorkItem.current_stage lead) now)
                        (WorkItem.history lead) in
                  new_tasks <- mapM (instantiate_task new_stage_uid)
                                    (WorkStage.stage_tasks new_stage) ;;
                  let activity :=
                    Activity.mk "STAGE_CHANGE"
                      ("Lead moved to " +:+ WorkStage.name new_stage)
                      (Some comment) performed_by now performed_by
                      [("from_stage", VStr (WorkStage.name current_stage));
                       ("to_stage", VStr (WorkStage.name new_stage));
                       ("comment", VStr comment)] in
                  _ <- update_one_lead (uid_is lead_uid)
                         (transition_update new_stage_uid now history
                            new_tasks activity) ;;
                  ret true
          end
      end
  end.

(** *** complete_task *)

Definition missing {A} (field : string) (parsed : option A) : list string :=
  match parsed with Some _ => [] | None => [field] end.

(** One entry of [field_values] unpacked into [TaskFieldValue]: [variable]
    must be a string, [field_type] the value of a [FieldType] member,
    [original_value] a string when given; keys the model does not declare
    are ignored.  pydantic reports every offending field at once. *)
Definition parse_TaskFieldValue (fv : gmap string value)
  : result TaskFieldValue.t :=
  let variable :=
    match fv !! "variable" with Some (VStr s) => Some s | _ => None end in
  let field_type :=
    match fv !! "field_type" with
    | Some (VStr s) => FieldType_of_string s
    | _ => None
    end in
  let original_value :=
    match fv !! "original_value" with
    | None => Some ""
    | Some (VStr s) => Some s
    | Some _ => None
    end in
  let val := match fv !! "value" with Some v => v | None => VNone end in
  match variable, field_type, original_value with
  | Some v, Some ft, Some ov => Ok (FieldValueBase.mk v ft ov val)
  | _, _, _ =>
      Raise (ValidationError "TaskFieldValue"
               (missing "variable" variable ++
                missing "field_type" field_type ++
                missing "original_value" original_value))
  end.

(** The list comprehension over [field_values]: the first entry pydantic
    rejects ends it. *)
Fixpoint validate_field_values (field_values : list (gmap string value))
  : result (list TaskFieldValue.t) :=
  match field_values with
  | [] => Ok []
  | fv :: rest =>
      match parse_TaskFieldValue fv with
      | Raise e => Raise e
      | Ok v =>
          match validate_field_values rest with
          | Raise e => Raise e
          | Ok vs => Ok (v :: vs)
          end
      end
  end.

Definition task_uid_is (task_uid : string) (t : WorkItemTask.t) : bool :=
  String.eqb (WorkItemTask.uid t) task_uid.

(** The filter [{"uid": lead_uid, "tasks.uid": task_uid}]. *)
Definition has_task (lead_uid task_uid : string) (doc : WorkItem.t) : bool :=
  uid_is lead_uid doc && existsb (task_uid_is task_uid) (WorkItem.tasks doc).

(** The five [tasks.$.*] assignments, on the array element the filter hit. *)
Definition complete (now : datetime) (completed_by : option string)
    (notes : string) (values : list TaskFieldValue.t) (t : WorkItemTask.t)
  : WorkItemTask.t :=
  WorkItemTask.mk (WorkItemTask.uid t) (WorkItemTask.name t)
    (WorkItemTask.description t) (WorkItemTask.template_id t)
    (WorkItemTask.stage t) TASK_COMPLETED (WorkItemTask.required t)
    (WorkItemTask.order t) (WorkItemTask.is_active t)
    (WorkItemTask.task_variables t)
    (Some now) completed_by notes values.

Definition complete_update (now : datetime) (task_uid : string)
    (completed_by : option string) (notes : string)
    (values : list TaskFieldValue.t) (doc : WorkItem.t) : WorkItem.t :=
  WorkItem.mk (WorkItem.uid doc) (WorkItem.item_id doc)
    (WorkItem.current_stage doc) (WorkItem.status doc)
    (WorkItem.name doc) (WorkItem.email doc) (WorkItem.phone doc)
    (WorkItem.config doc) (WorkItem.config_values doc)
    (WorkItem.assigned_to doc) (WorkItem.properties doc)
    (WorkItem.linked_entities doc)
    (WorkItem.history doc)
    (update_first (task_uid_is task_uid)
       (complete now completed_by notes values) (WorkItem.tasks doc))
    (WorkItem.activities doc ++
       [Activity.mk "TASK_COMPLETED" "Task completed" None completed_by now
          completed_by [("task_uid", VStr task_uid); ("notes", VStr notes)]])
    (WorkItem.created_at doc) now (WorkItem.created_by doc).

(** [complete_task(lead_uid, task_uid, field_values, notes, completed_by)] *)
Definition complete_task (now : datetime) (lead_uid task_uid : string)
    (field_values : list (gmap string value)) (notes : string)
    (completed_by : option string) : M bool :=
  validated_values <- lift (validate_field_values field_values) ;;
  modified_count <- update_one_lead (has_task lead_uid task_uid)
                      (complete_update now task_uid completed_by notes
                         validated_values) ;;
  ret (0 <? modified_count)%Z.

(** *** list_stages and get_kanban_data *)

(** [if config_uid:] on an optional string. *)
Definition config_given (config_uid : option string) : option string :=
  match config_uid with
  | Some c => if str_truthy c then Some c else None
  | None => None
  end.

(** [.sort("order", 1)]: ascending, documents of equal [order] left in
    natural order (a document goes in front of the first one of the sorted
    rest whose [order] is not smaller). *)
Fixpoint insert_by_order (s : WorkStage.t) (l : list WorkStage.t)
  : list WorkStage.t :=
  match l with
  | [] => [s]
  | x :: l' =>
      if (WorkStage.order s <=? WorkStage.order x)%Z then s :: x :: l'
      else x :: insert_by_order s l'
  end.

Definition sort_by_order (l : list WorkStage.t) : list WorkStage.t :=
  fold_right insert_by_order [] l.

Definition stage_query (config_uid : option string) (doc : WorkStage.t) : bool :=
  match config_given config_uid with
  | Some c => String.eqb (WorkStage.config doc) c
  | None => true
  end.

Definition list_stages (config_uid : option string) : M (list WorkStage.t) :=
  fun w =>
    (Ok (sort_by_order (List.filter (stage_query config_uid)
                                    (stages_collection w))), w).

(** The query [{"current_stage": stage.uid}], with ["config"] added when a
    config is given. *)
Definition lead_query (config_uid : option string) (stage : WorkStage.t)
    (doc : WorkItem.t) : bool :=
  String.eqb (WorkItem.current_stage doc) (WorkStage.uid stage)
  && match config_given config_uid with
     | Some c => String.eqb (WorkItem.config doc) c
     | None => true
     end.

(** One element of the list [get_kanban_data] returns. *)
Module KanbanColumn.
Record t : Type := mk {
stage : WorkStage.t;
leads : list WorkItem.t;
count : Z
}.
End KanbanColumn.

Definition kanban_column (config_uid : option string) (stage : WorkStage.t)
  : M KanbanColumn.t :=
  fun w =>
    let leads := List.filter (lead_query config_uid stage) (leads_collection w) in
    (Ok (KanbanColumn.mk stage leads (Z.of_nat (length leads))), w).

Definition get_kanban_data (config_uid : option string)
  : M (list KanbanColumn.t) :=
  stages <- list_stages config_uid ;;
  mapM (kanban_column config_uid) stages.



(** *** delete_lead, delete_stage, add_activity *)

(** [delete_one]: the first document the filter selects is removed. *)
Fixpoint remove_first {A} (p : A -> bool) (l : list A) : list A :=
  match l with
  | [] => []
  | x :: l' => if p x then l' else x :: remove_first p l'
  end.

(** [delete_lead(uid)]; the result is [deleted_count > 0]. *)
Definition delete_lead (uid : string) : M bool :=
  fun w =>
    (Ok (0 <? matched_count (uid_is uid) (leads_collection w))%Z,
     set_leads w (remove_first (uid_is uid) (leads_collection w))).

Definition stage_uid_is (uid : string) (doc : WorkStage.t) : bool :=
  String.eqb (WorkStage.uid doc) uid.

Definition set_stages (w : World) (stages : list WorkStage.t) : World :=
  mkWorld (leads_collection w) stages (configs_collection w)
          (uuid_source w) (uuid_drawn w).

(** [count_documents({"current_stage": uid})] on the leads. *)
Definition count_leads_in (uid : string) (leads : list WorkItem.t) : Z :=
  Z.of_nat (length (List.filter
    (fun doc => String.eqb (WorkItem.current_stage doc) uid) leads)).

Definition stage_in_use (lead_count : Z) : exn :=
  ValueError (text ("Cannot delete stage: " +:+ decimal lead_count
                    +:+ " leads are currently in this stage")).

(** [delete_stage(uid)] *)
Definition delete_stage (uid : string) : M bool :=
  fun w =>
    let lead_count := count_leads_in uid (leads_collection w) in
    if (0 <? lead_count)%Z
    then (Raise (stage_in_use lead_count), w)
    else
      (Ok (0 <? matched_count (stage_uid_is uid) (stages_collection w))%Z,
       set_stages w (remove_first (stage_uid_is uid) (stages_collection w))).

(** The [$push] and [$set] of [add_activity]. *)
Definition activity_update (activity : Activity.t) (updated_at : datetime)
    (doc : WorkItem.t) : WorkItem.t :=
  WorkItem.mk (WorkItem.uid doc) (WorkItem.item_id doc)
    (WorkItem.current_stage doc) (WorkItem.status doc)
    (WorkItem.name doc) (WorkItem.email doc) (WorkItem.phone doc)
    (WorkItem.config doc) (WorkItem.config_values doc)
    (WorkItem.assigned_to doc) (WorkItem.properties doc)
    (WorkItem.linked_entities doc) (WorkItem.history doc) (WorkItem.tasks doc)
    (WorkItem.activities doc ++ [activity])
    (WorkItem.created_at doc) updated_at (WorkItem.created_by doc).

(** [add_activity(lead_uid, activity_type, subject, description,
    performed_by, activity_data)].  The method reads the clock twice:
    [created] stamps the activity, [updated] the lead.  A missing or empty
    [activity_data] is stored as the empty map. *)
Definition add_activity (created updated : datetime) (lead_uid : string)
    (activity_type subject description : string)
    (performed_by : option string) (activity_data : option open_map)
  : M bool :=
  let activity :=
    Activity.mk activity_type subject (Some description) performed_by created
      performed_by
      (match activity_data with Some d => d | None => [] end) in
  modified_count <- update_one_lead (uid_is lead_uid)
                      (activity_update activity updated) ;;
  ret (0 <? modified_count)%Z.

(** *** get_config and get_or_create_config *)

Definition config_uid_is (uid : string) (doc : WorkItemConfig.t) : bool :=
  String.eqb (WorkItemConfig.uid doc) uid.

Definition get_config (uid : string) : M (option WorkItemConfig.t) :=
  fun w => (Ok (List.find (config_uid_is uid) (configs_collection w)), w).

Definition insert_config (doc : WorkItemConfig.t) : M unit :=
  fun w =>
    (Ok tt,
     mkWorld (leads_collection w) (stages_collection w)
             (configs_collection w ++ [doc]) (uuid_source w) (uuid_drawn w)).

(** [get_or_create_config(uid)].  [created] and [updated] are the two
    [datetime.utcnow()] defaults the new model takes. *)
Definition get_or_create_config (created updated : datetime) (uid : string)
  : M WorkItemConfig.t :=
  doc <- get_config uid ;;
  match doc with
  | Some config => ret config
  | None =>
      let config :=
        WorkItemConfig.mk uid ("Workflow " +:+ uid) true [] created updated in
      _ <- insert_config config ;;
      ret config
  end.

(* ===================================================================== *)
(** * The vocabulary of the statements *)
(* ===================================================================== *)

(** The world after [k] more UUIDs were drawn. *)
Definition drawn (k : nat) (w : World) : World :=
  mkWorld (leads_collection w) (stages_collection w) (configs_collection w)
          (uuid_source w) (uuid_drawn w + k).

(** The tasks the loop over the templates builds, the first one with the
    [n]-th UUID of [source]. *)
Fixpoint instances (source : nat -> string) (n : nat) (new_stage_uid : string)
    (templates : list WorkStageTask.t) : list WorkItemTask.t :=
  match templates with
  | [] => []
  | stage_task :: rest =>
      WorkItemTask.mk (source n)
        (WorkStageTask.name stage_task)
        (WorkStageTask.description stage_task)
        (WorkStageTask.uid stage_task)
        new_stage_uid TASK_PENDING
        (WorkStageTask.required stage_task)
        (WorkStageTask.order stage_task)
        (WorkStageTask.is_active stage_task)
        (WorkStageTask.task_variables stage_task)
        None None "" []
      :: instances source (S n) new_stage_uid rest
  end.

(** How an instantiated task relates to the template it came from. *)
Definition instance_of (new_stage_uid : string) (stage_task : WorkStageTask.t)
    (task : WorkItemTask.t) : Prop :=
  WorkItemTask.template_id task = WorkStageTask.uid stage_task
  /\ WorkItemTask.stage task = new_stage_uid
  /\ WorkItemTask.status task = TASK_PENDING
  /\ WorkItemTask.field_values task = []
  /\ WorkItemTask.name task = WorkStageTask.name stage_task
  /\ WorkItemTask.required task = WorkStageTask.required stage_task
  /\ WorkItemTask.is_active task = WorkStageTask.is_active stage_task.

(** The STAGE_CHANGE activity of a transition. *)
Definition stage_change (now : datetime) (comment : string)
    (performed_by : option string) (current_stage new_stage : WorkStage.t)
  : Activity.t :=
  Activity.mk "STAGE_CHANGE"
    ("Lead moved to " +:+ WorkStage.name new_stage)
    (Some comment) performed_by now performed_by
    [("from_stage", VStr (WorkStage.name current_stage));
     ("to_stage", VStr (WorkStage.name new_stage));
     ("comment", VStr comment)].

(** The update a transition sends once it has read [lead]. *)
Definition transition_write (now : datetime) (new_stage_uid comment : string)
    (performed_by : option string) (w : World)
    (current_stage new_stage : WorkStage.t) (lead : WorkItem.t)
  : WorkItem.t -> WorkItem.t :=
  transition_update new_stage_uid now
    (map (exit_stage (WorkItem.current_stage lead) now) (WorkItem.history lead))
    (instances (uuid_source w) (uuid_drawn w) new_stage_uid
               (WorkStage.stage_tasks new_stage))
    (stage_change now comment performed_by current_stage new_stage).

(** The document a successful transition leaves in the place of [lead]. *)
Definition transitioned (now : datetime) (new_stage_uid comment : string)
    (performed_by : option string) (w : World)
    (current_stage new_stage : WorkStage.t) (lead : WorkItem.t) : WorkItem.t :=
  transition_write now new_stage_uid comment performed_by w
                   current_stage new_stage lead lead.

(** The five preconditions under which a transition reaches its write. *)
Definition may_transition (lead_uid new_stage_uid : string) (w : World)
    (lead : WorkItem.t) (current_stage new_stage : WorkStage.t) : Prop :=
  get_lead lead_uid w = (Ok (Some lead), w)
  /\ get_stage (WorkItem.current_stage lead) w = (Ok (Some current_stage), w)
  /\ get_stage new_stage_uid w = (Ok (Some new_stage), w)
  /\ str_in new_stage_uid (WorkStage.allowed_next_stages current_stage) = true
  /\ List.filter blocks_transition (WorkItem.tasks lead) = [].

(** The history invariant of the specification: exactly one entry is open,
    and it is the entry of the current stage. *)
Definition history_invariant (lead : WorkItem.t) : Prop :=
  exists hist,
    List.filter is_open (WorkItem.history lead) = [hist]
    /\ HistoryData.stage hist = WorkItem.current_stage lead.

Definition by_order (a b : WorkStage.t) : Prop :=
  (WorkStage.order a <= WorkStage.order b)%Z.

(** The column of one stage, as the loop body builds it. *)
Definition column_of (config_uid : option string) (w : World)
    (stage : WorkStage.t) : KanbanColumn.t :=
  let leads := List.filter (lead_query config_uid stage) (leads_collection w) in
  KanbanColumn.mk stage leads (Z.of_nat (length leads)).

(** What "the config matches" means for a document of config [c]:
    no condition unless a non-empty config uid was passed. *)
Definition config_matches (config_uid : option string) (c : string) : Prop :=
  match config_given config_uid with
  | Some wanted => c = wanted
  | None => True
  end.

(** The calls the engine takes for one lead, in the order they arrive. *)
Inductive command : Type :=
| Transition (now : datetime) (new_stage_uid comment : string)
             (performed_by : option string)
| CompleteTask (now : datetime) (task_uid : string)
               (field_values : list (gmap string value)) (notes : string)
               (completed_by : option string).

Definition run_command (lead_uid : string) (c : command) : M bool :=
  match c with
  | Transition now new_stage_uid comment performed_by =>
      transition_stage now lead_uid new_stage_uid comment performed_by
  | CompleteTask now task_uid field_values notes completed_by =>
      complete_task now lead_uid task_uid field_values notes completed_by
  end.

(** The calls one after the other; stops at the first exception. *)
Fixpoint run (lead_uid : string) (commands : list command) : M unit :=
  match commands with
  | [] => ret tt
  | c :: rest => _ <- run_command lead_uid c ;; run lead_uid rest
  end.

(** The number of templates of the stage stored under [uid]. *)
Definition template_count (stages : list WorkStage.t) (uid : string) : nat :=
  match List.find (fun doc => String.eqb (WorkStage.uid doc) uid) stages with
  | Some stage => length (WorkStage.stage_tasks stage)
  | None => O
  end.

(** k1 + ... + kN over the transitions among the commands. *)
Fixpoint templates_entered (stages : list WorkStage.t)
    (commands : list command) : nat :=
  match commands with
  | [] => O
  | Transition _ new_stage_uid _ _ :: rest =>
      (template_count stages new_stage_uid + templates_entered stages rest)%nat
  | CompleteTask _ _ _ _ _ :: rest => templates_entered stages rest
  end.

(** The uids of all tasks the store holds, lead after lead. *)
Definition stored_task_uids (w : World) : list string :=
  flat_map (fun lead => map WorkItemTask.uid (WorkItem.tasks lead))
           (leads_collection w).

(** What [uuid.uuid4()] is trusted for: it never returns a value twice,
    and no value it has yet to return is the uid of a stored task. *)
Definition uuid4_unique (w : World) : Prop :=
  (forall i j, uuid_source w i = uuid_source w j -> i = j)
  /\ (forall i, (uuid_drawn w <= i)%nat ->
                ~ In (uuid_source w i) (stored_task_uids w)).

(** The members of [FieldType] with their values (models.py, 49-57). *)
Definition FieldType_values : list (string * FieldType) :=
  [("string", STRING); ("integer", INTEGER); ("decimal", DECIMAL);
   ("boolean", BOOLEAN); ("date", DATE); ("datetime", DATETIME);
   ("enum", ENUM); ("array", ARRAY); ("document", DOCUMENT)].

(** The [TaskFieldValue] an entry of [field_values] stands for, read off the
    declaration of [FieldValueBase]: ["variable"] holds a string,
    ["field_type"] the value of a member of [FieldType],
    ["original_value"] a string or is absent (then it is [""]), and
    ["value"] is taken as it comes ([None] when absent).  An entry that
    stands for no [TaskFieldValue] is a malformed one. *)
Definition built_from (fv : gmap string value) (v : TaskFieldValue.t) : Prop :=
  fv !! "variable" = Some (VStr (FieldValueBase.variable v))
  /\ (exists name, fv !! "field_type" = Some (VStr name)
                   /\ In (name, FieldValueBase.field_type v) FieldType_values)
  /\ match fv !! "original_value" with
     | Some given => given = VStr (FieldValueBase.original_value v)
     | None => FieldValueBase.original_value v = ""
     end
  /\ FieldValueBase.value v
     = match fv !! "value" with Some given => given | None => VNone end.

(** Every character is an ASCII digit. *)
Fixpoint all_digits (s : string) : bool :=
  match s with
  | EmptyString => true
  | String c s' =>
      match digit_of c with Some _ => all_digits s' | None => false end
  end.

(** The number a string of digits writes, read onto [acc]. *)
Fixpoint digits_value (s : string) (acc : Z) : Z :=
  match s with
  | EmptyString => acc
  | String c s' =>
      digits_value s'
        (10 * acc + match digit_of c with Some d => d | None => 0 end)
  end.

(** Every stored identifier of the month is the pattern followed by the
    five-digit form of a number from 1 to [limit]. *)
Definition month_numbered (pattern : string) (limit : Z)
    (collection : list WorkItem.t) : Prop :=
  forall doc,
    In doc collection ->
    startswith pattern (WorkItem.item_id doc) = true ->
    exists k, (1 <= k <= limit)%Z
              /\ WorkItem.item_id doc = pattern +:+ format_05d k.

(** The month's identifiers in the store are numbered up to [top], and
    [top] itself is there unless it is zero. *)
Definition numbered_up_to (pattern : string) (top : Z)
    (collection : list WorkItem.t) : Prop :=
  month_numbered pattern top collection
  /\ (top = 0%Z
      \/ exists doc, In doc collection
                     /\ WorkItem.item_id doc = pattern +:+ format_05d top).

(** [create_lead] called once per request, in order; the first exception
    ends the run. *)
Fixpoint create_leads (year_month : string)
    (requests : list (datetime * LeadData.t)) : M (list WorkItem.t) :=
  match requests with
  | [] => ret []
  | (now, lead_data) :: rest =>
      lead <- create_lead year_month now lead_data ;;
      leads <- create_leads year_month rest ;;
      ret (lead :: leads)
  end.

(* ===================================================================== *)
(** * A small pipeline to run the service on *)
(* ===================================================================== *)

(** A required text field with a lower bound. *)
Definition bounded_text_field : FieldDefinition.t :=
  FieldDefinition.mk "company" "Company" STRING TEXT true [] None
    {[ "min" := VInt 3 ]} "" "" 0 true None.

(** An integer field without rules. *)
Definition age_field : FieldDefinition.t :=
  FieldDefinition.mk "age" "Age" INTEGER NUMBER true [] None ∅ "" "" 0 true None.

(** An integer field with both bounds. *)
Definition score_field : FieldDefinition.t :=
  FieldDefinition.mk "score" "Score" INTEGER NUMBER false [] None
    {[ "min" := VInt 1; "max" := VInt 10 ]} "" "" 0 true None.

(** A required date field without rules. *)
Definition due_field : FieldDefinition.t :=
  FieldDefinition.mk "due" "Due date" DATE DATE_PICKER true [] None ∅ "" "" 0
    true None.

Module Demo.
Definition template_T : WorkStageTask.t :=
  WorkStageTask.mk "tmpl-T" "Call the customer" None true 0 true [].

(** A template switched off in the stage editor. *)
Definition template_off : WorkStageTask.t :=
  WorkStageTask.mk "tmpl-off" "Send brochure" None false 1 false [].

Definition stage_A : WorkStage.t :=
  WorkStage.mk "A" "default" "New" "new" "#6B7280" None 0 true ["B"] [] 0 0.

Definition stage_B : WorkStage.t :=
  WorkStage.mk "B" "default" "Contacted" "contacted" "#6B7280" None 1 true
    ["C"; "D"] [template_T] 0 0.

Definition stage_C : WorkStage.t :=
  WorkStage.mk "C" "default" "Won" "won" "#6B7280" None 2 true [] [] 0 0.

(** A retired stage: still stored, no longer active. *)
Definition stage_D : WorkStage.t :=
  WorkStage.mk "D" "default" "Parked" "parked" "#6B7280" None 3 false
    ["A"] [template_off] 0 0.

Definition uuids (n : nat) : string := "uuid-" +:+ decimal (Z.of_nat n).

Definition empty_world : World :=
  mkWorld [] [stage_A; stage_B; stage_C; stage_D] [] uuids 0.

Definition lead_data (uid current_stage : string) : LeadData.t :=
  LeadData.mk (Some uid) None current_stage PENDING "Ada" None None
    "default" [] [] [] [] [] [] [] None.

(** The world a call leaves. *)
Definition after {A} (m : M A) (w : World) : World := snd (m w).

(** One lead, created in stage A at time 10. *)
Definition world_1 : World :=
  after (create_lead "202611" 10 (lead_data "L1" "A")) empty_world.

(** ... moved to stage B at time 20, which gives it the required task. *)
Definition world_2 : World :=
  after (transition_stage 20 "L1" "B" "" None) world_1.

(** A lead whose stage is not in the catalog; [create_lead] does not
    look the stage up. *)
Definition world_ghost : World :=
  after (create_lead "202611" 10 (lead_data "L9" "ghost")) empty_world.

(** The lead as [world_1] and [world_2] store it. *)
Definition lead_1 : WorkItem.t :=
  WorkItem.mk "L1" "LEAD-202611-00001" "A" PENDING "Ada" None None "default"
    [] [] [] [] [HistoryData.mk "A" 10 None] []
    [Activity.mk "CREATED" "Lead created" None None 10 None []] 10 10 None.

(** The task [world_2] holds for [template_T]. *)
Definition task_T : WorkItemTask.t :=
  WorkItemTask.mk "uuid-0" "Call the customer" None "tmpl-T" "B"
    TASK_PENDING true 0 true [] None None "" [].

Definition lead_2 : WorkItem.t :=
  WorkItem.mk "L1" "LEAD-202611-00001" "B" IN_PROGRESS "Ada" None None
    "default" [] [] [] [] [HistoryData.mk "A" 10 (Some 20)]
    [WorkItemTask.mk "uuid-0" "Call the customer" None "tmpl-T" "B"
       TASK_PENDING true 0 true [] None None "" []]
    [Activity.mk "CREATED" "Lead created" None None 10 None [];
     Activity.mk "STAGE_CHANGE" "Lead moved to Contacted" (Some "") None 20
       None [("from_stage", VStr "New"); ("to_stage", VStr "Contacted");
             ("comment", VStr "")]]
    10 20 None.
End Demo.

Module DemoTask.
(** An entry without ["variable"], with a type that is no [FieldType]. *)
Definition malformed : gmap string value :=
  {[ "field_type" := VStr "colour"; "value" := VInt 3 ]}.

Definition well_formed : gmap string value :=
  {[ "variable" := VStr "contact_method"; "field_type" := VStr "enum";
     "original_value" := VStr "email"; "value" := VStr "email" ]}.

(** An entry of the right shape whose value is no integer. *)
Definition mistyped : gmap string value :=
  {[ "variable" := VStr "age"; "field_type" := VStr "integer";
     "original_value" := VStr "abc"; "value" := VStr "abc" ]}.
End DemoTask.

Module DemoIds.
(** The month's 99998th lead. *)
Definition lead_99998 : WorkItem.t :=
  WorkItem.mk "K0" "LEAD-202611-99998" "A" PENDING "Bob" None None "default"
    [] [] [] [] [HistoryData.mk "A" 5 None] []
    [Activity.mk "CREATED" "Lead created" None None 5 None []] 5 5 None.

Definition world_0 : World :=
  mkWorld [lead_99998] [Demo.stage_A] [] Demo.uuids 0.

(** Three more leads created one after the other in the same month, each
    leaving its [item_id] to the generator. *)
Definition create (uid : string) (now : datetime) : M WorkItem.t :=
  create_lead "202611" now (Demo.lead_data uid "A").

(** Two requests that leave the identifier to the generator. *)
Definition two_requests : list (datetime * LeadData.t) :=
  [(10, Demo.lead_data "K1" "A"); (11, Demo.lead_data "K2" "A")].

Definition three_creations : M (list string) :=
  l1 <- create "K1" 11 ;;
  l2 <- create "K2" 12 ;;
  l3 <- create "K3" 13 ;;
  ret [WorkItem.item_id l1; WorkItem.item_id l2; WorkItem.item_id l3].
End DemoIds.

Module DemoRun.
(** Into B, the required task done, then on to the retired stage D. *)
Definition commands : list command :=
  [Transition 20 "B" "" None;
   CompleteTask 25 "uuid-0" [] "done" None;
   Transition 30 "D" "" None].

(** [Demo.world_2] with the task of stage B completed. *)
Definition world_3 : World :=
  Demo.after (complete_task 25 "L1" "uuid-0" [] "done" None) Demo.world_2.

Definition world_4 : World :=
  Demo.after (transition_stage 30 "L1" "D" "" None) world_3.
End DemoRun.

(* ===================================================================== *)
(** * Properties *)
(* ===================================================================== *)

(** ** validate_field_value on [None] *)

Lemma py_compare_None (op : cmpop) (bound : value) :
  py_compare op VNone bound = Raise (not_supported op VNone bound).
Proof. destruct bound; reflexivity. Qed.

Lemma rule_broken_None (op : cmpop) (key : string) (rules : gmap string value)
    (bound : value) :
  rules !! key = Some bound ->
  rule_broken op key rules VNone = Raise (not_supported op VNone bound).
Proof.
  intros Hkey. unfold rule_broken. rewrite Hkey.
  now rewrite py_compare_None.
Qed.

Lemma rule_broken_absent (op : cmpop) (key : string)
    (rules : gmap string value) (v : value) :
  rules !! key = None -> rule_broken op key rules v = Ok None.
Proof. intros Hkey. unfold rule_broken. now rewrite Hkey. Qed.

Lemma check_type_untyped (field_def : FieldDefinition.t) (v : value) :
  FieldDefinition.field_type field_def <> INTEGER ->
  FieldDefinition.field_type field_def <> DECIMAL ->
  FieldDefinition.field_type field_def <> BOOLEAN ->
  check_type field_def v = Ok tt.
Proof.
  intros Hi Hd Hb. unfold check_type.
  destruct (FieldDefinition.field_type field_def); congruence.
Qed.

(** C10.  For a definition whose type is not integer, decimal or boolean
    and whose validation rules have a "min" or a "max" key, validating
    [None] ends in the [TypeError] of the ordered comparison of [None] with
    the bound ([<] against "min" when that key is there, else [>] against
    "max"); so the outcome is not a [ValueError], and in particular not the
    "Required field cannot be None" one, whatever [required] says. *)
Theorem validate_None_with_bounds_raises_TypeError
    (field_def : FieldDefinition.t) :
  FieldDefinition.field_type field_def <> INTEGER ->
  FieldDefinition.field_type field_def <> DECIMAL ->
  FieldDefinition.field_type field_def <> BOOLEAN ->
  is_Some (FieldDefinition.validation_rules field_def !! "min")
  \/ is_Some (FieldDefinition.validation_rules field_def !! "max") ->
  (exists op bound,
      validate_field_value field_def VNone
      = Raise (not_supported op VNone bound)
      /\ FieldDefinition.validation_rules field_def
           !! (match op with OpLt => "min" | OpGt => "max" end) = Some bound)
  /\ (exists msg, validate_field_value field_def VNone = Raise (TypeError msg))
  /\ (forall msg, validate_field_value field_def VNone <> Raise (ValueError msg)).
Proof.
  intros Hi Hd Hb Hkeys.
  assert (Hmain : exists op bound,
             validate_field_value field_def VNone
             = Raise (not_supported op VNone bound)
             /\ FieldDefinition.validation_rules field_def
                  !! (match op with OpLt => "min" | OpGt => "max" end)
                = Some bound).
  { unfold validate_field_value.
    rewrite (check_type_untyped field_def VNone Hi Hd Hb).
    unfold check_rules.
    destruct (decide (FieldDefinition.validation_rules field_def = ∅)) as [He|_].
    { rewrite He in Hkeys. rewrite !lookup_empty in Hkeys.
      destruct Hkeys as [[x Hx]|[x Hx]]; discriminate. }
    destruct (FieldDefinition.validation_rules field_def !! "min")
      as [lo|] eqn:Hmin.
    - exists OpLt, lo. now rewrite (rule_broken_None OpLt "min" _ lo Hmin).
    - destruct Hkeys as [[x Hx]|[hi Hmax]]; [discriminate|].
      exists OpGt, hi.
      rewrite (rule_broken_absent OpLt "min" _ VNone Hmin).
      now rewrite (rule_broken_None OpGt "max" _ hi Hmax). }
  split; [exact Hmain|].
  destruct Hmain as (op & bound & Hres & _).
  rewrite Hres. unfold not_supported.
  split; [eexists; reflexivity | intros msg; discriminate].
Qed.

Lemma validate_None_with_bounds_witness :
  validate_field_value bounded_text_field VNone
  = Raise (TypeError
      (text "'<' not supported between instances of 'NoneType' and 'int'"))
  /\ forall msg,
       validate_field_value bounded_text_field VNone <> Raise (ValueError msg).
Proof.
  split; [vm_compute; reflexivity|].
  apply (validate_None_with_bounds_raises_TypeError bounded_text_field);
    try discriminate.
  left. vm_compute. eexists; reflexivity.
Defined.

(** ** Collections *)

Section Collections.
Context {A : Type}.
Implicit Types (p : A -> bool) (f : A -> A) (l : list A).

Lemma update_first_length p f l :
  length (update_first p f l) = length l.
Proof.
  induction l as [|x l IH]; simpl; [reflexivity|].
  destruct (p x); simpl; congruence.
Qed.

Lemma update_first_none p f l :
  existsb p l = false -> update_first p f l = l.
Proof.
  induction l as [|x l IH]; simpl; [reflexivity|].
  destruct (p x); simpl; [discriminate|].
  intros H. now rewrite IH.
Qed.

Lemma existsb_find p l :
  existsb p l = match List.find p l with Some _ => true | None => false end.
Proof.
  induction l as [|x l IH]; simpl; [reflexivity|].
  destruct (p x); simpl; [reflexivity|exact IH].
Qed.

(** A rewrite that keeps the selecting predicate true is seen by a later
    [find_one] with the same filter. *)
Lemma find_update_first p f l :
  (forall x, p x = true -> p (f x) = true) ->
  List.find p (update_first p f l) = option_map f (List.find p l).
Proof.
  intros Hp. induction l as [|x l IH]; simpl; [reflexivity|].
  destruct (p x) eqn:Hx; simpl.
  - now rewrite (Hp x Hx).
  - now rewrite Hx.
Qed.

(** A rewrite [f] of the first document under [q] changes what a
    [find_one] under [p] returns at most by [f], when [f] does not move
    documents in or out of [p]. *)
Lemma find_update_other p (q : A -> bool) f l :
  (forall x, p (f x) = p x) ->
  List.find p (update_first q f l) = List.find p l
  \/ exists x, List.find p l = Some x
               /\ List.find p (update_first q f l) = Some (f x).
Proof.
  intros Hp. induction l as [|x l IH]; simpl; [now left|].
  destruct (q x) eqn:Hq; simpl.
  - rewrite Hp. destruct (p x); [right; eauto | now left].
  - destruct (p x); [now left | exact IH].
Qed.
End Collections.

Section MoreCollections.
Context {A : Type}.
Implicit Types (p q : A -> bool) (f : A -> A) (l : list A).

(** Where [find_one] hits, and what [update_one] and [delete_one] do
    there. *)
Lemma find_split p l x :
  List.find p l = Some x ->
  exists pre post,
    l = pre ++ x :: post
    /\ p x = true
    /\ existsb p pre = false
    /\ (forall f, update_first p f l = pre ++ f x :: post)
    /\ remove_first p l = pre ++ post.
Proof.
  induction l as [|y l IH]; simpl; [discriminate|].
  destruct (p y) eqn:Hy.
  - intros [= ->]. exists [], l. simpl. rewrite Hy.
    split; [reflexivity|]. split; [reflexivity|]. split; [reflexivity|].
    split; [intros f|]; reflexivity.
  - intros Hx. destruct (IH Hx) as (pre & post & Hl & Hp & Hpre & Hup & Hrm).
    exists (y :: pre), post. simpl. rewrite Hy, Hrm.
    split; [now rewrite Hl|]. split; [exact Hp|]. split; [exact Hpre|].
    split; [intros f; now rewrite Hup | reflexivity].
Qed.

Lemma find_none_existsb p l :
  List.find p l = None -> existsb p l = false.
Proof.
  induction l as [|y l IH]; simpl; [reflexivity|].
  destruct (p y); [discriminate | exact IH].
Qed.

Lemma remove_first_none p l :
  existsb p l = false -> remove_first p l = l.
Proof.
  induction l as [|y l IH]; simpl; [reflexivity|].
  destruct (p y); simpl; [discriminate|]. intros H. now rewrite IH.
Qed.

(** Two filters that agree up to the first hit of one select the same
    document. *)
Lemma update_first_same_hit p q f l x :
  List.find p l = Some x -> q x = true ->
  (forall y, q y = true -> p y = true) ->
  update_first q f l = update_first p f l.
Proof.
  intros Hx Hq Hqp. induction l as [|y l IH]; simpl in *; [reflexivity|].
  destruct (p y) eqn:Hy.
  - injection Hx as ->. now rewrite Hq.
  - destruct (q y) eqn:Hqy; [rewrite (Hqp y Hqy) in Hy; discriminate|].
    now rewrite IH.
Qed.

Lemma map_update_first {B} (g : A -> B) p f l :
  (forall x, g (f x) = g x) -> map g (update_first p f l) = map g l.
Proof.
  intros Hg. induction l as [|y l IH]; simpl; [reflexivity|].
  destruct (p y); simpl; [now rewrite Hg | now rewrite IH].
Qed.

(** [update_one] touches one document at most, and only under its
    filter. *)
Lemma update_first_frame p f l :
  Forall2 (fun x y => y = x \/ (p x = true /\ y = f x)) l (update_first p f l).
Proof.
  induction l as [|y l IH]; simpl; [constructor|].
  destruct (p y) eqn:Hy; constructor; auto.
  clear. induction l; constructor; auto.
Qed.
End MoreCollections.

Lemma str_in_In (x : string) (xs : list string) :
  str_in x xs = true <-> In x xs.
Proof.
  unfold str_in. rewrite existsb_exists. split.
  - intros (y & Hin & Heq). apply String.eqb_eq in Heq. now subst.
  - intros Hin. exists x. split; [exact Hin | apply String.eqb_refl].
Qed.

Lemma str_in_false (x : string) (xs : list string) :
  str_in x xs = false <-> ~ In x xs.
Proof.
  rewrite <- str_in_In. destruct (str_in x xs); split; congruence.
Qed.

Lemma find_uid (uid : string) (leads : list WorkItem.t) (lead : WorkItem.t) :
  List.find (uid_is uid) leads = Some lead ->
  In lead leads /\ WorkItem.uid lead = uid.
Proof.
  intros H. apply find_some in H as [Hin Hu].
  split; [exact Hin | now apply String.eqb_eq].
Qed.

(** ** The steps of transition_stage *)

(** What a call does is read off three lookups and two tests; the lemmas
    below name the outcome on each path. *)
Section TransitionPaths.
Variables (now : datetime) (lead_uid new_stage_uid comment : string)
          (performed_by : option string) (w : World).

Let call := transition_stage now lead_uid new_stage_uid comment performed_by w.
Let stage_of (uid : string) :=
  List.find (fun doc => String.eqb (WorkStage.uid doc) uid) (stages_collection w).

Lemma transition_no_lead :
  List.find (uid_is lead_uid) (leads_collection w) = None ->
  call = (Raise (lead_not_found lead_uid), w).
Proof.
  intros H. unfold call, transition_stage, bind, get_lead. now rewrite H.
Qed.

Lemma transition_no_target (lead : WorkItem.t) :
  List.find (uid_is lead_uid) (leads_collection w) = Some lead ->
  stage_of new_stage_uid = None ->
  call = (Raise (stage_not_found new_stage_uid), w).
Proof.
  intros Hl Ht. unfold call, transition_stage, bind, get_lead, get_stage.
  rewrite Hl. fold (stage_of new_stage_uid). now rewrite Ht.
Qed.

Lemma transition_no_current (lead : WorkItem.t) (new_stage : WorkStage.t) :
  List.find (uid_is lead_uid) (leads_collection w) = Some lead ->
  stage_of new_stage_uid = Some new_stage ->
  stage_of (WorkItem.current_stage lead) = None ->
  call = (Raise (none_has_no_attribute "allowed_next_stages"), w).
Proof.
  intros Hl Ht Hc. unfold call, transition_stage, bind, get_lead, get_stage.
  rewrite Hl. fold (stage_of new_stage_uid). rewrite Ht.
  fold (stage_of (WorkItem.current_stage lead)). now rewrite Hc.
Qed.

Lemma transition_edge_missing (lead : WorkItem.t)
    (current_stage new_stage : WorkStage.t) :
  List.find (uid_is lead_uid) (leads_collection w) = Some lead ->
  stage_of (WorkItem.current_stage lead) = Some current_stage ->
  stage_of new_stage_uid = Some new_stage ->
  str_in new_stage_uid (WorkStage.allowed_next_stages current_stage) = false ->
  call = (Raise (transition_not_allowed (WorkStage.name current_stage)
                                        (WorkStage.name new_stage)), w).
Proof.
  intros Hl Hc Ht Hedge.
  unfold call, transition_stage, bind, get_lead, get_stage.
  rewrite Hl. fold (stage_of new_stage_uid). rewrite Ht.
  fold (stage_of (WorkItem.current_stage lead)). rewrite Hc.
  now rewrite Hedge.
Qed.

Lemma transition_blocked (lead : WorkItem.t)
    (current_stage new_stage : WorkStage.t) :
  List.find (uid_is lead_uid) (leads_collection w) = Some lead ->
  stage_of (WorkItem.current_stage lead) = Some current_stage ->
  stage_of new_stage_uid = Some new_stage ->
  str_in new_stage_uid (WorkStage.allowed_next_stages current_stage) = true ->
  List.filter blocks_transition (WorkItem.tasks lead) <> [] ->
  call = (Raise (required_tasks_incomplete
                   (map WorkItemTask.name
                      (List.filter blocks_transition (WorkItem.tasks lead)))),
          w).
Proof.
  intros Hl Hc Ht Hedge Hblock.
  unfold call, transition_stage, bind, get_lead, get_stage.
  rewrite Hl. fold (stage_of new_stage_uid). rewrite Ht.
  fold (stage_of (WorkItem.current_stage lead)). rewrite Hc.
  rewrite Hedge. simpl.
  destruct (List.filter blocks_transition (WorkItem.tasks lead));
    [contradiction | reflexivity].
Qed.
End TransitionPaths.

Lemma drawn_0 (w : World) : drawn 0 w = w.
Proof. destruct w. unfold drawn. simpl. now rewrite Nat.add_0_r. Qed.

Lemma mapM_instantiate_task (new_stage_uid : string)
    (templates : list WorkStageTask.t) (w : World) :
  mapM (instantiate_task new_stage_uid) templates w
  = (Ok (instances (uuid_source w) (uuid_drawn w) new_stage_uid templates),
     drawn (length templates) w).
Proof.
  revert w. induction templates as [|st rest IH]; intros w; simpl.
  - unfold ret. now rewrite drawn_0.
  - unfold bind, instantiate_task, uuid4, ret. simpl.
    unfold bind in IH. rewrite IH. simpl. unfold drawn. simpl.
    now rewrite Nat.add_succ_r.
Qed.

Lemma instances_length source n new_stage_uid templates :
  length (instances source n new_stage_uid templates) = length templates.
Proof.
  revert n. induction templates as [|st rest IH]; intros n; simpl;
    [reflexivity | now rewrite IH].
Qed.

Lemma instances_uids source n new_stage_uid templates :
  map WorkItemTask.uid (instances source n new_stage_uid templates)
  = map source (seq n (length templates)).
Proof.
  revert n. induction templates as [|st rest IH]; intros n; simpl;
    [reflexivity | now rewrite IH].
Qed.

Lemma instances_Forall2 source n new_stage_uid templates :
  Forall2 (instance_of new_stage_uid) templates
          (instances source n new_stage_uid templates).
Proof.
  revert n. induction templates as [|st rest IH]; intros n; simpl;
    constructor; [repeat split | apply IH].
Qed.

Lemma get_lead_find (lead_uid : string) (w : World) (found : option WorkItem.t) :
  get_lead lead_uid w = (Ok found, w) <->
  List.find (uid_is lead_uid) (leads_collection w) = found.
Proof. unfold get_lead. split; intros H; [now inversion H | now rewrite H]. Qed.

Lemma get_stage_find (uid : string) (w : World) (found : option WorkStage.t) :
  get_stage uid w = (Ok found, w) <->
  List.find (fun doc => String.eqb (WorkStage.uid doc) uid) (stages_collection w)
  = found.
Proof. unfold get_stage. split; intros H; [now inversion H | now rewrite H]. Qed.

Lemma blocks_transition_spec (t : WorkItemTask.t) :
  blocks_transition t = true <->
  WorkItemTask.required t = true /\ WorkItemTask.status t <> TASK_COMPLETED.
Proof.
  unfold blocks_transition. rewrite andb_true_iff, negb_true_iff.
  destruct (WorkItemTask.status t); simpl; intuition congruence.
Qed.

Section TransitionSuccess.
Variables (now : datetime) (lead_uid new_stage_uid comment : string)
          (performed_by : option string) (w : World).

Let call := transition_stage now lead_uid new_stage_uid comment performed_by w.
Let stage_of (uid : string) :=
  List.find (fun doc => String.eqb (WorkStage.uid doc) uid) (stages_collection w).

Lemma transition_succeeds lead current_stage new_stage :
  may_transition lead_uid new_stage_uid w lead current_stage new_stage ->
  call =
  (Ok true,
   set_leads (drawn (length (WorkStage.stage_tasks new_stage)) w)
     (update_first (uid_is lead_uid)
        (transition_write now new_stage_uid comment performed_by w
                          current_stage new_stage lead)
        (leads_collection w))).
Proof.
  intros (Hl & Hc & Ht & Hedge & Hfree).
  apply get_lead_find in Hl. apply get_stage_find in Hc, Ht.
  unfold call, transition_stage, bind, get_lead, get_stage.
  rewrite Hl, Ht, Hc, Hedge, Hfree. simpl.
  pose proof (mapM_instantiate_task new_stage_uid
                (WorkStage.stage_tasks new_stage) w) as Hloop.
  unfold bind in Hloop. rewrite Hloop. reflexivity.
Qed.

(** A call that returns went through all five preconditions. *)
Lemma transition_returns_inv (b : bool) (w' : World) :
  call = (Ok b, w') ->
  exists lead current_stage new_stage,
    may_transition lead_uid new_stage_uid w lead current_stage new_stage.
Proof.
  intros Hcall.
  destruct (List.find (uid_is lead_uid) (leads_collection w)) as [lead|] eqn:Hl.
  2:{ unfold call in Hcall.
      rewrite (transition_no_lead _ _ _ _ _ _ Hl) in Hcall. discriminate. }
  destruct (stage_of new_stage_uid) as [ns|] eqn:Ht.
  2:{ unfold call in Hcall.
      rewrite (transition_no_target _ _ _ _ _ _ lead Hl Ht) in Hcall.
      discriminate. }
  destruct (stage_of (WorkItem.current_stage lead)) as [cs|] eqn:Hc.
  2:{ unfold call in Hcall.
      rewrite (transition_no_current _ _ _ _ _ _ lead ns Hl Ht Hc) in Hcall.
      discriminate. }
  destruct (str_in new_stage_uid (WorkStage.allowed_next_stages cs)) eqn:Hedge.
  2:{ unfold call in Hcall.
      rewrite (transition_edge_missing _ _ _ _ _ _ lead cs ns Hl Hc Ht Hedge)
        in Hcall.
      discriminate. }
  destruct (List.filter blocks_transition (WorkItem.tasks lead)) eqn:Hfree.
  2:{ unfold call in Hcall.
      rewrite (transition_blocked _ _ _ _ _ _ lead cs ns Hl Hc Ht Hedge)
        in Hcall; [discriminate | now rewrite Hfree]. }
  exists lead, cs, ns.
  split; [now apply get_lead_find|].
  split; [now apply get_stage_find|].
  split; [now apply get_stage_find|].
  split; [exact Hedge | exact Hfree].
Qed.
End TransitionSuccess.

(** ** The leads the demo worlds store *)

Example world_1_leads : leads_collection Demo.world_1 = [Demo.lead_1].
Proof. vm_compute. reflexivity. Qed.

Example world_2_leads : leads_collection Demo.world_2 = [Demo.lead_2].
Proof. vm_compute. reflexivity. Qed.

(** ** Transition graph *)

(** C4.  When the lead's current stage resolves to [A], the target
    resolves to [B] and [B]'s uid is not among [A.allowed_next_stages], the
    call raises the "Transition from A.name to B.name not allowed" error and
    the world, the lead included, is as before. *)
Theorem transition_outside_graph_refused
    (now : datetime) (lead_uid comment : string) (performed_by : option string)
    (w : World) (lead : WorkItem.t) (A B : WorkStage.t) :
  get_lead lead_uid w = (Ok (Some lead), w) ->
  get_stage (WorkItem.current_stage lead) w = (Ok (Some A), w) ->
  get_stage (WorkStage.uid B) w = (Ok (Some B), w) ->
  ~ In (WorkStage.uid B) (WorkStage.allowed_next_stages A) ->
  transition_stage now lead_uid (WorkStage.uid B) comment performed_by w
  = (Raise (ValueError (text ("Transition from " +:+ WorkStage.name A +:+ " to "
                              +:+ WorkStage.name B +:+ " not allowed"))), w).
Proof.
  intros Hl Ha Hb Hedge.
  apply get_lead_find in Hl. apply get_stage_find in Ha, Hb.
  apply str_in_false in Hedge.
  exact (transition_edge_missing now lead_uid (WorkStage.uid B) comment
           performed_by w lead A B Hl Ha Hb Hedge).
Qed.

Lemma transition_outside_graph_witness :
  transition_stage 30 "L1" "C" "skip ahead" None Demo.world_1
  = (Raise (ValueError (text "Transition from New to Won not allowed")),
     Demo.world_1).
Proof.
  apply (transition_outside_graph_refused 30 "L1" "skip ahead" None
           Demo.world_1 Demo.lead_1 Demo.stage_A Demo.stage_C).
  - vm_compute. reflexivity.
  - vm_compute. reflexivity.
  - vm_compute. reflexivity.
  - simpl. intros [H|[]]. discriminate.
Defined.

(** ** Required tasks *)

(** C3, as the code has it.  A lead with a required task that is not
    completed never gets through: for every target the call raises and
    leaves the world as it was.  Which error it raises is settled by the
    checks in the order the code runs them: a target that is not stored
    gives "Stage ... not found"; with the lead's current stage and the
    target both stored, a target outside [allowed_next_stages] gives
    "Transition from ... to ... not allowed" with the two stage names, and
    a target inside it gives "Required tasks not completed: ..." with the
    names of all blocking tasks, in task order and joined by ", ". *)
Theorem required_tasks_gate
    (now : datetime) (lead_uid new_stage_uid comment : string)
    (performed_by : option string) (w : World) (lead : WorkItem.t)
    (blocking : WorkItemTask.t) :
  get_lead lead_uid w = (Ok (Some lead), w) ->
  In blocking (WorkItem.tasks lead) ->
  WorkItemTask.required blocking = true ->
  WorkItemTask.status blocking <> TASK_COMPLETED ->
  let call := transition_stage now lead_uid new_stage_uid comment performed_by w in
  let names := map WorkItemTask.name
                   (List.filter blocks_transition (WorkItem.tasks lead)) in
  (exists e, call = (Raise e, w))
  /\ In (WorkItemTask.name blocking) names
  /\ (get_stage new_stage_uid w = (Ok None, w) ->
      call = (Raise (ValueError (text ("Stage " +:+ new_stage_uid
                                       +:+ " not found"))), w))
  /\ (forall current_stage new_stage,
        get_stage (WorkItem.current_stage lead) w = (Ok (Some current_stage), w) ->
        get_stage new_stage_uid w = (Ok (Some new_stage), w) ->
        (~ In new_stage_uid (WorkStage.allowed_next_stages current_stage) ->
         call = (Raise (ValueError
                          (text ("Transition from "
                                 +:+ WorkStage.name current_stage +:+ " to "
                                 +:+ WorkStage.name new_stage
                                 +:+ " not allowed"))), w))
        /\ (In new_stage_uid (WorkStage.allowed_next_stages current_stage) ->
            call = (Raise (ValueError (text ("Required tasks not completed: "
                                             +:+ join ", " names))), w))).
Proof.
  intros Hl Hin Hreq Hst call names.
  apply get_lead_find in Hl.
  assert (Hblocks : In blocking (List.filter blocks_transition (WorkItem.tasks lead))).
  { apply filter_In. split; [exact Hin|]. now apply blocks_transition_spec. }
  assert (Hne : List.filter blocks_transition (WorkItem.tasks lead) <> []).
  { intros He. rewrite He in Hblocks. contradiction. }
  assert (Hgate : forall cs ns,
             get_stage (WorkItem.current_stage lead) w = (Ok (Some cs), w) ->
             get_stage new_stage_uid w = (Ok (Some ns), w) ->
             In new_stage_uid (WorkStage.allowed_next_stages cs) ->
             call = (Raise (required_tasks_incomplete names), w)).
  { intros cs ns Hc Ht Hedge.
    apply get_stage_find in Hc, Ht. apply str_in_In in Hedge.
    exact (transition_blocked now lead_uid new_stage_uid comment performed_by
             w lead cs ns Hl Hc Ht Hedge Hne). }
  split; [|split; [|split]].
  - destruct (List.find (fun doc => String.eqb (WorkStage.uid doc) new_stage_uid)
                        (stages_collection w)) as [ns|] eqn:Ht.
    2:{ eexists. exact (transition_no_target now lead_uid new_stage_uid comment
                          performed_by w lead Hl Ht). }
    destruct (List.find (fun doc => String.eqb (WorkStage.uid doc)
                                      (WorkItem.current_stage lead))
                        (stages_collection w)) as [cs|] eqn:Hc.
    2:{ eexists. exact (transition_no_current now lead_uid new_stage_uid comment
                          performed_by w lead ns Hl Ht Hc). }
    destruct (str_in new_stage_uid (WorkStage.allowed_next_stages cs)) eqn:Hedge.
    2:{ eexists. exact (transition_edge_missing now lead_uid new_stage_uid
                          comment performed_by w lead cs ns Hl Hc Ht Hedge). }
    eexists. apply (Hgate cs ns).
    + now apply get_stage_find.
    + now apply get_stage_find.
    + now apply str_in_In.
  - unfold names. now apply in_map.
  - intros Ht. apply get_stage_find in Ht.
    exact (transition_no_target now lead_uid new_stage_uid comment
             performed_by w lead Hl Ht).
  - intros cs ns Hc Ht. split.
    + intros Hedge. apply get_stage_find in Hc, Ht.
      apply str_in_false in Hedge.
      exact (transition_edge_missing now lead_uid new_stage_uid comment
               performed_by w lead cs ns Hl Hc Ht Hedge).
    + exact (Hgate cs ns Hc Ht).
Qed.

Lemma required_tasks_gate_witness :
  transition_stage 30 "L1" "C" "" None Demo.world_2
  = (Raise (ValueError (text "Required tasks not completed: Call the customer")),
     Demo.world_2)
  /\ transition_stage 30 "L1" "A" "" None Demo.world_2
     = (Raise (ValueError (text "Transition from Contacted to New not allowed")),
        Demo.world_2)
  /\ transition_stage 30 "L1" "Z" "" None Demo.world_2
     = (Raise (ValueError (text "Stage Z not found")), Demo.world_2).
Proof.
  assert (Hl : get_lead "L1" Demo.world_2 = (Ok (Some Demo.lead_2), Demo.world_2))
    by (vm_compute; reflexivity).
  assert (Hin : In Demo.task_T (WorkItem.tasks Demo.lead_2))
    by (left; reflexivity).
  assert (Hreq : WorkItemTask.required Demo.task_T = true) by reflexivity.
  assert (Hst : WorkItemTask.status Demo.task_T <> TASK_COMPLETED)
    by discriminate.
  split; [|split].
  - refine (proj2 (proj2 (proj2 (proj2
      (required_tasks_gate 30 "L1" "C" "" None Demo.world_2 Demo.lead_2
         Demo.task_T Hl Hin Hreq Hst))) Demo.stage_B Demo.stage_C _ _) _).
    + vm_compute. reflexivity.
    + vm_compute. reflexivity.
    + simpl. left. reflexivity.
  - refine (proj1 (proj2 (proj2 (proj2
      (required_tasks_gate 30 "L1" "A" "" None Demo.world_2 Demo.lead_2
         Demo.task_T Hl Hin Hreq Hst))) Demo.stage_B Demo.stage_A _ _) _).
    + vm_compute. reflexivity.
    + vm_compute. reflexivity.
    + simpl. intros [H|[H|[]]]; discriminate.
  - refine (proj1 (proj2 (proj2
      (required_tasks_gate 30 "L1" "Z" "" None Demo.world_2 Demo.lead_2
         Demo.task_T Hl Hin Hreq Hst))) _).
    vm_compute. reflexivity.
Defined.

(** C3 as stated fails: with a required task pending, a target that is not
    an allowed next stage is refused by the graph check, which runs first,
    and the error is not the required-tasks one. *)
Lemma required_tasks_error_not_for_every_target :
  get_lead "L1" Demo.world_2 = (Ok (Some Demo.lead_2), Demo.world_2)
  /\ (exists t, In t (WorkItem.tasks Demo.lead_2)
                /\ WorkItemTask.required t = true
                /\ WorkItemTask.status t <> TASK_COMPLETED)
  /\ transition_stage 30 "L1" "A" "" None Demo.world_2
     = (Raise (ValueError (text "Transition from Contacted to New not allowed")),
        Demo.world_2)
  /\ forall names,
       fst (transition_stage 30 "L1" "A" "" None Demo.world_2)
       <> Raise (required_tasks_incomplete names).
Proof.
  split; [vm_compute; reflexivity|].
  split.
  { eexists. split; [left; reflexivity|]. split; [reflexivity|discriminate]. }
  assert (H : transition_stage 30 "L1" "A" "" None Demo.world_2
              = (Raise (ValueError
                   (text "Transition from Contacted to New not allowed")),
                 Demo.world_2))
    by (vm_compute; reflexivity).
  split; [exact H|].
  intros names. rewrite H. simpl.
  unfold required_tasks_incomplete, text. intros Heq.
  injection Heq as Heq. discriminate Heq.
Qed.

(** ** What a successful transition writes *)

Lemma uid_is_transition_update lead_uid new_stage_uid now history new_tasks
    activity (doc : WorkItem.t) :
  uid_is lead_uid (transition_update new_stage_uid now history new_tasks
                     activity doc)
  = uid_is lead_uid doc.
Proof. reflexivity. Qed.

(** A call that returns leaves, under the lead's uid, the document
    [transitioned] describes; the catalog of stages is as before. *)
Lemma transition_effect
    (now : datetime) (lead_uid new_stage_uid comment : string)
    (performed_by : option string) (w w' : World) (b : bool)
    (lead : WorkItem.t) :
  transition_stage now lead_uid new_stage_uid comment performed_by w
  = (Ok b, w') ->
  get_lead lead_uid w = (Ok (Some lead), w) ->
  exists current_stage new_stage,
    may_transition lead_uid new_stage_uid w lead current_stage new_stage
    /\ b = true
    /\ get_lead lead_uid w'
       = (Ok (Some (transitioned now new_stage_uid comment performed_by w
                                 current_stage new_stage lead)), w')
    /\ stages_collection w' = stages_collection w
    /\ uuid_source w' = uuid_source w
    /\ uuid_drawn w'
       = (uuid_drawn w + length (WorkStage.stage_tasks new_stage))%nat.
Proof.
  intros Hcall Hl. apply get_lead_find in Hl.
  destruct (transition_returns_inv _ _ _ _ _ _ _ _ Hcall)
    as (lead0 & cs & ns & Hmay).
  assert (lead0 = lead) as ->.
  { destruct Hmay as (Hl0 & _). apply get_lead_find in Hl0. congruence. }
  exists cs, ns. split; [exact Hmay|].
  rewrite (transition_succeeds _ _ _ _ _ _ _ _ _ Hmay) in Hcall.
  inversion Hcall; subst b w'; clear Hcall.
  split; [reflexivity|]. split; [|repeat split].
  apply get_lead_find. simpl.
  rewrite find_update_first by (intros x Hx; exact Hx).
  now rewrite Hl.
Qed.

(** ** The stage history *)

(** Closing leaves no open entry of the stage that was left. *)
Lemma exit_stage_closes (current_stage : string) (now : datetime)
    (history : list HistoryData.t) :
  Forall (fun hist => is_open hist = true ->
                      HistoryData.stage hist = current_stage) history ->
  List.filter is_open (map (exit_stage current_stage now) history) = [].
Proof.
  induction 1 as [|hist history Hh _ IH]; simpl; [reflexivity|].
  unfold exit_stage at 1.
  destruct (is_open hist) eqn:Hopen.
  - rewrite (Hh eq_refl), String.eqb_refl. simpl. exact IH.
  - rewrite andb_false_r, Hopen. exact IH.
Qed.

(** C1 (what the code does).  From a lead that satisfies the history
    invariant, a transition that returns stores a lead with no open history
    entry at all: the entry of the stage left is closed and the entry of the
    stage entered is never written.  The invariant is therefore lost with
    the first transition. *)
Theorem transition_loses_open_history_entry
    (now : datetime) (lead_uid new_stage_uid comment : string)
    (performed_by : option string) (w w' : World) (lead : WorkItem.t) :
  get_lead lead_uid w = (Ok (Some lead), w) ->
  history_invariant lead ->
  transition_stage now lead_uid new_stage_uid comment performed_by w
  = (Ok true, w') ->
  exists lead',
    get_lead lead_uid w' = (Ok (Some lead'), w')
    /\ WorkItem.current_stage lead' = new_stage_uid
    /\ List.filter is_open (WorkItem.history lead') = []
    /\ ~ history_invariant lead'.
Proof.
  intros Hl (open & Hopen & Hstage) Hcall.
  destruct (transition_effect _ _ _ _ _ _ _ _ _ Hcall Hl)
    as (cs & ns & _ & _ & Hl' & _).
  eexists. split; [exact Hl'|]. split; [reflexivity|].
  assert (Hnone : List.filter is_open
            (WorkItem.history
               (transitioned now new_stage_uid comment performed_by w cs ns lead))
            = []).
  { simpl. apply exit_stage_closes. apply List.Forall_forall.
    intros hist Hin Ho.
    assert (Hmem : In hist (List.filter is_open (WorkItem.history lead)))
      by (apply filter_In; split; assumption).
    rewrite Hopen in Hmem. destruct Hmem as [<-|[]]. exact Hstage. }
  split; [exact Hnone|].
  intros (hist & Hone & _). rewrite Hnone in Hone. discriminate.
Qed.

Lemma transition_loses_open_history_entry_witness :
  history_invariant Demo.lead_1
  /\ exists lead',
       get_lead "L1" Demo.world_2 = (Ok (Some lead'), Demo.world_2)
       /\ WorkItem.current_stage lead' = "B"
       /\ List.filter is_open (WorkItem.history lead') = []
       /\ ~ history_invariant lead'.
Proof.
  assert (Hinv : history_invariant Demo.lead_1).
  { exists (HistoryData.mk "A" 10 None). split; reflexivity. }
  split; [exact Hinv|].
  apply (transition_loses_open_history_entry 20 "L1" "B" "" None
           Demo.world_1 Demo.world_2 Demo.lead_1).
  - vm_compute. reflexivity.
  - exact Hinv.
  - reflexivity.
Defined.

(** A lead created without a history of its own, in a stage with a name,
    starts with the invariant. *)
Lemma create_lead_history_invariant (year_month : string) (now : datetime)
    (lead_data : LeadData.t) (w w' : World) (lead : WorkItem.t) :
  LeadData.history lead_data = [] ->
  LeadData.current_stage lead_data <> "" ->
  create_lead year_month now lead_data w = (Ok lead, w') ->
  history_invariant lead
  /\ leads_collection w' = leads_collection w ++ [lead].
Proof.
  intros Hh Hs Hcall. unfold create_lead, bind in Hcall.
  destruct (match LeadData.uid lead_data with
            | Some u => ret u
            | None => uuid4
            end w) as [[uid|e] w1] eqn:Huid; [|discriminate].
  assert (Hw1 : leads_collection w1 = leads_collection w).
  { destruct (LeadData.uid lead_data); inversion Huid; reflexivity. }
  destruct (match LeadData.item_id lead_data with
            | Some i => ret i
            | None => fun w0 =>
                (generate_lead_id year_month (leads_collection w0) "LEAD", w0)
            end w1) as [[item_id|e] w2] eqn:Hid; [|discriminate].
  assert (Hw2 : w2 = w1).
  { destruct (LeadData.item_id lead_data); inversion Hid; reflexivity. }
  subst w2. unfold insert_lead, ret in Hcall.
  inversion Hcall; subst lead w'; clear Hcall. simpl.
  split; [|now rewrite Hw1].
  rewrite Hh. simpl.
  assert (Ht : str_truthy (LeadData.current_stage lead_data) = true).
  { unfold str_truthy. apply negb_true_iff. now apply String.eqb_neq. }
  rewrite Ht. eexists. split; reflexivity.
Qed.

(** C2 (what the code does).  A transition that returns stores, under the
    lead's uid, a document with [current_stage] the target, [status]
    in_progress and [updated_at] the time of the call, and whose history is
    the old history, entry by entry, with the open entries of the stage left
    closed at that time.  The history gets no new entry: it is as long as
    before, so the open entry for the target is missing. *)
Theorem transition_appends_no_history_entry
    (now : datetime) (lead_uid new_stage_uid comment : string)
    (performed_by : option string) (w w' : World) (lead : WorkItem.t) :
  get_lead lead_uid w = (Ok (Some lead), w) ->
  transition_stage now lead_uid new_stage_uid comment performed_by w
  = (Ok true, w') ->
  exists lead',
    get_lead lead_uid w' = (Ok (Some lead'), w')
    /\ WorkItem.current_stage lead' = new_stage_uid
    /\ WorkItem.status lead' = IN_PROGRESS
    /\ WorkItem.updated_at lead' = now
    /\ WorkItem.history lead'
       = map (exit_stage (WorkItem.current_stage lead) now)
             (WorkItem.history lead)
    /\ length (WorkItem.history lead') = length (WorkItem.history lead)
    /\ WorkItem.history lead'
       <> map (exit_stage (WorkItem.current_stage lead) now)
              (WorkItem.history lead)
          ++ [HistoryData.mk new_stage_uid now None].
Proof.
  intros Hl Hcall.
  destruct (transition_effect _ _ _ _ _ _ _ _ _ Hcall Hl)
    as (cs & ns & _ & _ & Hl' & _).
  eexists. split; [exact Hl'|]. simpl.
  repeat split.
  - now rewrite length_map.
  - intros Heq. apply (f_equal (@length _)) in Heq.
    rewrite length_app in Heq. simpl in Heq. lia.
Qed.

Lemma transition_appends_no_history_entry_witness :
  exists lead',
    get_lead "L1" Demo.world_2 = (Ok (Some lead'), Demo.world_2)
    /\ WorkItem.current_stage lead' = "B"
    /\ WorkItem.status lead' = IN_PROGRESS
    /\ WorkItem.updated_at lead' = 20
    /\ WorkItem.history lead' = [HistoryData.mk "A" 10 (Some 20)]
    /\ length (WorkItem.history lead') = 1%nat
    /\ WorkItem.history lead'
       <> [HistoryData.mk "A" 10 (Some 20); HistoryData.mk "B" 20 None].
Proof.
  apply (transition_appends_no_history_entry 20 "L1" "B" "" None
           Demo.world_1 Demo.world_2 Demo.lead_1).
  - vm_compute. reflexivity.
  - reflexivity.
Defined.

(** ** Order of the checks *)

(** C6 (what the code does).  The lead of [Demo.world_ghost] names a stage
    the catalog does not have.  A transition to an existing stage then fails
    on reading [allowed_next_stages] off [None], with an [AttributeError]
    rather than a [ValueError]; and when the target is missing as well, it
    is the target's "not found" that is reported: the current stage is
    looked up first but never checked. *)
Theorem unresolved_current_stage_is_unchecked :
  (exists lead,
      get_lead "L9" Demo.world_ghost = (Ok (Some lead), Demo.world_ghost)
      /\ WorkItem.current_stage lead = "ghost")
  /\ get_stage "ghost" Demo.world_ghost = (Ok None, Demo.world_ghost)
  /\ transition_stage 30 "L9" "B" "" None Demo.world_ghost
     = (Raise (AttributeError
          (text "'NoneType' object has no attribute 'allowed_next_stages'")),
        Demo.world_ghost)
  /\ transition_stage 30 "L9" "nowhere" "" None Demo.world_ghost
     = (Raise (ValueError (text "Stage nowhere not found")), Demo.world_ghost).
Proof.
  split; [eexists; split; vm_compute; reflexivity|].
  repeat split; vm_compute; reflexivity.
Qed.

(** ** complete_task *)

Lemma parse_TaskFieldValue_error (fv : gmap string value) (e : exn) :
  parse_TaskFieldValue fv = Raise e ->
  exists locs, e = ValidationError "TaskFieldValue" locs.
Proof.
  unfold parse_TaskFieldValue.
  repeat match goal with
         | |- context [match ?o with Some _ => _ | None => _ end] =>
             destruct o eqn:?
         | |- context [match ?v with VNone => _ | _ => _ end] => destruct v
         end;
    intros H; inversion H; eexists; reflexivity.
Qed.

Lemma validate_field_values_error (field_values : list (gmap string value)) :
  (exists fv, In fv field_values /\ is_Ok (parse_TaskFieldValue fv) = false) ->
  exists locs,
    validate_field_values field_values
    = Raise (ValidationError "TaskFieldValue" locs).
Proof.
  induction field_values as [|fv rest IH]; intros (bad & Hin & Hbad).
  - contradiction.
  - simpl. destruct (parse_TaskFieldValue fv) as [v|e] eqn:Hfv.
    + destruct Hin as [->|Hin]; [rewrite Hfv in Hbad; discriminate|].
      destruct IH as (locs & ->); [now exists bad|]. now exists locs.
    + destruct (parse_TaskFieldValue_error fv e Hfv) as (locs & ->).
      now exists locs.
Qed.

Lemma validate_field_values_ok (field_values : list (gmap string value)) :
  (forall fv, In fv field_values -> is_Ok (parse_TaskFieldValue fv) = true) ->
  exists values, validate_field_values field_values = Ok values
                 /\ length values = length field_values.
Proof.
  induction field_values as [|fv rest IH]; intros Hall; simpl.
  - now exists [].
  - destruct (parse_TaskFieldValue fv) as [v|e] eqn:Hfv.
    + destruct IH as (vs & -> & Hlen); [intros; apply Hall; now right|].
      exists (v :: vs). simpl. now rewrite Hlen.
    + specialize (Hall fv (or_introl eq_refl)). rewrite Hfv in Hall.
      discriminate.
Qed.

Lemma set_leads_same (w : World) : set_leads w (leads_collection w) = w.
Proof. now destruct w. Qed.

Lemma FieldType_of_string_spec (name : string) (ft : FieldType) :
  FieldType_of_string name = Some ft <-> In (name, ft) FieldType_values.
Proof.
  split.
  - unfold FieldType_of_string.
    repeat match goal with
           | |- context [String.eqb name ?s] =>
               destruct (String.eqb_spec name s) as [->|_]
           end;
      intros [= <-]; simpl; auto 10.
  - intros H. simpl in H.
    repeat (destruct H as [H|H]; [now inversion H|]). contradiction.
Qed.

(** pydantic accepts an entry exactly when it stands for a
    [TaskFieldValue], and that is the one it builds. *)
Lemma parse_TaskFieldValue_built (fv : gmap string value) (v : TaskFieldValue.t) :
  parse_TaskFieldValue fv = Ok v <-> built_from fv v.
Proof.
  unfold parse_TaskFieldValue, built_from. split.
  - intros H.
    destruct (fv !! "variable") as [[]|]; try discriminate H.
    all: destruct (fv !! "field_type") as [[]|]; try discriminate H.
    all: match type of H with
         | context [FieldType_of_string ?n] =>
             destruct (FieldType_of_string n) as [ft|] eqn:Hft;
             [|destruct (fv !! "original_value") as [[]|]; discriminate H]
         end.
    all: apply FieldType_of_string_spec in Hft.
    all: destruct (fv !! "original_value") as [[]|]; try discriminate H.
    all: injection H as <-; simpl; eauto 10.
  - destruct v as [var ft ov val]. simpl.
    intros (-> & (name & -> & Hft) & Hov & ->).
    apply FieldType_of_string_spec in Hft. rewrite Hft.
    destruct (fv !! "original_value") as [given|]; [subst given|subst ov];
      reflexivity.
Qed.

Lemma validate_field_values_built (field_values : list (gmap string value))
    (values : list TaskFieldValue.t) :
  validate_field_values field_values = Ok values
  <-> Forall2 built_from field_values values.
Proof.
  revert values. induction field_values as [|fv rest IH]; intros values; simpl.
  - split; [intros [= <-]; constructor | intros H; now inversion H].
  - destruct (parse_TaskFieldValue fv) as [v|e] eqn:Hfv.
    + destruct (validate_field_values rest) as [vs|e] eqn:Hrest.
      * split.
        -- intros [= <-]. constructor;
             [now apply parse_TaskFieldValue_built | now apply IH].
        -- intros H. inversion H as [|? v' ? vs' Hb Hbs]; subst.
           apply parse_TaskFieldValue_built in Hb. apply IH in Hbs.
           congruence.
      * split; [discriminate|].
        intros H. inversion H as [|? v' ? vs' Hb Hbs]; subst.
        apply IH in Hbs. discriminate.
    + split; [discriminate|].
      intros H. inversion H as [|? v' ? vs' Hb Hbs]; subst.
      apply parse_TaskFieldValue_built in Hb. congruence.
Qed.

Lemma validate_field_values_malformed (field_values : list (gmap string value)) :
  (exists fv, In fv field_values /\ forall v, ~ built_from fv v) ->
  exists locs,
    validate_field_values field_values
    = Raise (ValidationError "TaskFieldValue" locs).
Proof.
  intros (fv & Hin & Hbad). apply validate_field_values_error.
  exists fv. split; [exact Hin|].
  destruct (parse_TaskFieldValue fv) as [v|e] eqn:Hfv; [|reflexivity].
  apply parse_TaskFieldValue_built in Hfv. now apply Hbad in Hfv.
Qed.

(** Every list of entries has a malformed entry or stands for a list of
    values. *)
Lemma validate_field_values_cases (field_values : list (gmap string value)) :
  (exists fv, In fv field_values /\ forall v, ~ built_from fv v)
  \/ (exists values, Forall2 built_from field_values values).
Proof.
  induction field_values as [|fv rest IH].
  - right. exists []. constructor.
  - destruct (parse_TaskFieldValue fv) as [v|e] eqn:Hfv.
    + destruct IH as [(bad & Hin & Hbad)|(vs & Hvs)].
      * left. exists bad. split; [now right | exact Hbad].
      * right. exists (v :: vs). constructor;
          [now apply parse_TaskFieldValue_built | exact Hvs].
    + left. exists fv. split; [now left|].
      intros v Hv. apply parse_TaskFieldValue_built in Hv. congruence.
Qed.

Lemma complete_task_hit
    (now : datetime) (lead_uid task_uid : string)
    (field_values : list (gmap string value)) (notes : string)
    (completed_by : option string) (w : World) (lead : WorkItem.t)
    (values : list TaskFieldValue.t) :
  get_lead lead_uid w = (Ok (Some lead), w) ->
  existsb (task_uid_is task_uid) (WorkItem.tasks lead) = true ->
  validate_field_values field_values = Ok values ->
  let w' := set_leads w
              (update_first (uid_is lead_uid)
                 (complete_update now task_uid completed_by notes values)
                 (leads_collection w)) in
  complete_task now lead_uid task_uid field_values notes completed_by w
  = (Ok true, w')
  /\ get_lead lead_uid w'
     = (Ok (Some (complete_update now task_uid completed_by notes values lead)),
        w').
Proof.
  intros Hl Htask Hv w'. apply get_lead_find in Hl.
  destruct (find_split _ _ _ Hl) as (pre & post & Hleads & Hu & _).
  assert (Hhas : has_task lead_uid task_uid lead = true).
  { unfold has_task. now rewrite Hu, Htask. }
  assert (Hex : existsb (has_task lead_uid task_uid) (leads_collection w) = true).
  { apply existsb_exists. exists lead. split; [|exact Hhas].
    rewrite Hleads. apply in_or_app. right. now left. }
  split.
  - unfold complete_task, bind, lift, update_one_lead, ret.
    rewrite Hv. simpl. unfold matched_count. rewrite Hex. simpl.
    unfold w'. f_equal. f_equal.
    apply (update_first_same_hit (uid_is lead_uid) _ _ _ lead Hl Hhas).
    intros y Hy. unfold has_task in Hy. now apply andb_true_iff in Hy as [? _].
  - apply get_lead_find. unfold w'. simpl.
    rewrite find_update_first by (intros x Hx; exact Hx).
    now rewrite Hl.
Qed.

(** C7, as the code has it.  [complete_task] builds a [TaskFieldValue] from
    every entry of [field_values] before it sends its one update, and what
    it checks is the shape of the entry: ["variable"] a string,
    ["field_type"] the value of a [FieldType] member, ["original_value"] a
    string when present; ["value"] is taken as given and not compared with
    the type.  Every list of entries either has a malformed entry or stands
    for a list of values, one per entry and in order.  With a malformed
    entry the call raises pydantic's [ValidationError] and the world is
    unchanged.  With none, the values built are what the call works with:
    if no stored lead has both the uid [lead_uid] and a task with uid
    [task_uid], be it that the lead is missing or that it lacks the task,
    the call returns [False] and the world is unchanged; if the lead is
    there and has such a task, the call returns [True] and the first such
    task is stored completed with exactly these values as [field_values]. *)
Theorem complete_task_validates_before_write
    (now : datetime) (lead_uid task_uid : string)
    (field_values : list (gmap string value)) (notes : string)
    (completed_by : option string) (w : World) :
  let call :=
    complete_task now lead_uid task_uid field_values notes completed_by w in
  let no_match :=
    get_lead lead_uid w = (Ok None, w)
    \/ forall lead, In lead (leads_collection w) ->
                    WorkItem.uid lead = lead_uid ->
                    forall t, In t (WorkItem.tasks lead) ->
                              WorkItemTask.uid t <> task_uid in
  ((exists fv, In fv field_values /\ forall v, ~ built_from fv v)
   \/ (exists values, Forall2 built_from field_values values))
  /\ ((exists fv, In fv field_values /\ forall v, ~ built_from fv v) ->
      exists locs, call = (Raise (ValidationError "TaskFieldValue" locs), w))
  /\ (no_match -> snd call = w)
  /\ (forall values,
        Forall2 built_from field_values values ->
        (no_match -> call = (Ok false, w))
        /\ (forall lead task,
              get_lead lead_uid w = (Ok (Some lead), w) ->
              List.find (task_uid_is task_uid) (WorkItem.tasks lead)
              = Some task ->
              exists w' lead' before after done,
                call = (Ok true, w')
                /\ get_lead lead_uid w' = (Ok (Some lead'), w')
                /\ WorkItem.tasks lead = before ++ task :: after
                /\ WorkItem.tasks lead' = before ++ done :: after
                /\ existsb (task_uid_is task_uid) before = false
                /\ WorkItemTask.uid done = task_uid
                /\ WorkItemTask.status done = TASK_COMPLETED
                /\ WorkItemTask.field_values done = values)).
Proof.
  intros call no_match.
  assert (Hmiss : no_match ->
            call = match validate_field_values field_values with
                   | Ok _ => (Ok false, w)
                   | Raise e => (Raise e, w)
                   end).
  { intros Hmiss.
    assert (Hno : existsb (has_task lead_uid task_uid) (leads_collection w)
                  = false).
    { apply not_true_is_false. intros Hex.
      apply existsb_exists in Hex as (lead & Hin & Hhas).
      unfold has_task in Hhas. apply andb_true_iff in Hhas as [Hu Ht].
      apply existsb_exists in Ht as (t & Hint & Htu).
      apply String.eqb_eq in Hu, Htu.
      destruct Hmiss as [Hnone|Hnotask].
      - apply get_lead_find in Hnone.
        apply (find_none _ _ Hnone) in Hin. unfold uid_is in Hin.
        rewrite Hu, String.eqb_refl in Hin. discriminate.
      - exact (Hnotask lead Hin Hu t Hint Htu). }
    unfold call, complete_task, bind, lift, update_one_lead, ret.
    destruct (validate_field_values field_values); [|reflexivity].
    unfold matched_count. rewrite Hno.
    rewrite update_first_none by exact Hno.
    now rewrite set_leads_same. }
  split; [apply validate_field_values_cases|]. split; [|split].
  - intros Hbad.
    destruct (validate_field_values_malformed _ Hbad) as (locs & Hv).
    exists locs. unfold call, complete_task, bind, lift. now rewrite Hv.
  - intros Hno. rewrite (Hmiss Hno).
    now destruct (validate_field_values field_values).
  - intros values Hvalues. apply validate_field_values_built in Hvalues.
    split.
    + intros Hno. now rewrite (Hmiss Hno), Hvalues.
    + intros lead task Hl Ht.
      destruct (find_split _ _ _ Ht)
        as (pre & post & Htasks & Hu & Hpre & Hup & _).
      assert (Hex : existsb (task_uid_is task_uid) (WorkItem.tasks lead) = true).
      { apply existsb_exists. exists task. split; [|exact Hu].
        rewrite Htasks. apply in_or_app. right. now left. }
      destruct (complete_task_hit now lead_uid task_uid field_values notes
                  completed_by w lead values Hl Hex Hvalues) as (Hcall & Hl').
      eexists. eexists. exists pre, post.
      exists (complete now completed_by notes values task).
      split; [exact Hcall|]. split; [exact Hl'|]. split; [exact Htasks|].
      split; [simpl; apply Hup|]. split; [exact Hpre|].
      split; [simpl; now apply String.eqb_eq|].
      split; reflexivity.
Qed.

Lemma complete_task_validates_before_write_witness :
  (exists locs,
      complete_task 40 "L1" "uuid-0" [DemoTask.well_formed; DemoTask.malformed]
        "" None Demo.world_2
      = (Raise (ValidationError "TaskFieldValue" locs), Demo.world_2))
  /\ complete_task 40 "L7" "uuid-0" [DemoTask.well_formed] "" None Demo.world_2
     = (Ok false, Demo.world_2)
  /\ complete_task 40 "L1" "uuid-5" [DemoTask.well_formed] "" None Demo.world_2
     = (Ok false, Demo.world_2)
  /\ (exists w' lead' before after done,
         complete_task 40 "L1" "uuid-0" [DemoTask.well_formed] "" None
           Demo.world_2
         = (Ok true, w')
         /\ get_lead "L1" w' = (Ok (Some lead'), w')
         /\ WorkItem.tasks Demo.lead_2 = before ++ Demo.task_T :: after
         /\ WorkItem.tasks lead' = before ++ done :: after
         /\ existsb (task_uid_is "uuid-0") before = false
         /\ WorkItemTask.uid done = "uuid-0"
         /\ WorkItemTask.status done = TASK_COMPLETED
         /\ WorkItemTask.field_values done
            = [FieldValueBase.mk "contact_method" ENUM "email" (VStr "email")]).
Proof.
  assert (Hbuilt : Forall2 built_from [DemoTask.well_formed]
                     [FieldValueBase.mk "contact_method" ENUM "email"
                        (VStr "email")]).
  { constructor; [|constructor].
    split; [reflexivity|]. split; [|split; reflexivity].
    exists "enum". split; [reflexivity|]. simpl. tauto. }
  split; [|split; [|split]].
  - apply (proj1 (proj2 (complete_task_validates_before_write 40 "L1" "uuid-0"
             [DemoTask.well_formed; DemoTask.malformed] "" None Demo.world_2))).
    exists DemoTask.malformed. split; [right; left; reflexivity|].
    intros v (Hvar & _). vm_compute in Hvar. discriminate Hvar.
  - apply (proj1 (proj2 (proj2 (proj2
             (complete_task_validates_before_write 40 "L7" "uuid-0"
                [DemoTask.well_formed] "" None Demo.world_2))) _ Hbuilt)).
    left. vm_compute. reflexivity.
  - apply (proj1 (proj2 (proj2 (proj2
             (complete_task_validates_before_write 40 "L1" "uuid-5"
                [DemoTask.well_formed] "" None Demo.world_2))) _ Hbuilt)).
    right. rewrite world_2_leads. intros lead [<-|[]] _ t [<-|[]].
    discriminate.
  - apply (proj2 (proj2 (proj2 (proj2
             (complete_task_validates_before_write 40 "L1" "uuid-0"
                [DemoTask.well_formed] "" None Demo.world_2))) _ Hbuilt)
             Demo.lead_2 Demo.task_T).
    + vm_compute. reflexivity.
    + reflexivity.
Defined.

(** C7 as stated fails: an entry that declares the type integer and
    carries the text "abc" as its value is not validated against that type.
    [validate_field_value] rejects the value for an integer field of the
    same name, yet [complete_task] raises nothing, returns [True] and stores
    the value on the task. *)
Lemma mistyped_value_is_written :
  DemoTask.mistyped !! "field_type" = Some (VStr "integer")
  /\ DemoTask.mistyped !! "value" = Some (VStr "abc")
  /\ FieldDefinition.field_type age_field = INTEGER
  /\ validate_field_value age_field (VStr "abc")
     = Raise (ValueError (text "age: Expected integer, got <class 'str'>"))
  /\ fst (complete_task 25 "L1" "uuid-0" [DemoTask.mistyped] "" None
            Demo.world_2)
     = Ok true
  /\ exists lead',
       get_lead "L1"
         (snd (complete_task 25 "L1" "uuid-0" [DemoTask.mistyped] "" None
                 Demo.world_2))
       = (Ok (Some lead'),
          snd (complete_task 25 "L1" "uuid-0" [DemoTask.mistyped] "" None
                 Demo.world_2))
       /\ map (fun t => (WorkItemTask.uid t, WorkItemTask.status t,
                         WorkItemTask.field_values t))
              (WorkItem.tasks lead')
          = [("uuid-0", TASK_COMPLETED,
              [FieldValueBase.mk "age" INTEGER "abc" (VStr "abc")])].
Proof.
  split; [reflexivity|]. split; [reflexivity|]. split; [reflexivity|].
  split; [vm_compute; reflexivity|]. split; [vm_compute; reflexivity|].
  eexists. split; vm_compute; reflexivity.
Qed.

(** ** The ID generator *)

(** C8 (what the code does).  Once the month's counter has passed 99999
    the generated identifiers repeat.  The sixth digit makes "100000" sort
    below "99999" in the order the query uses, so the greatest [item_id]
    stays "...-99999" and every later call returns "...-100000" again:
    three sequential creations after the 99998th lead get the identifiers
    99999, 100000 and 100000. *)
Theorem generated_ids_repeat_past_99999 :
  fst (DemoIds.three_creations DemoIds.world_0)
  = Ok ["LEAD-202611-99999"; "LEAD-202611-100000"; "LEAD-202611-100000"]
  /\ String.ltb "LEAD-202611-100000" "LEAD-202611-99999" = true
  /\ forall leads,
       map WorkItem.item_id leads
       = ["LEAD-202611-99999"; "LEAD-202611-100000"] ->
       generate_lead_id "202611" leads "LEAD" = Ok "LEAD-202611-100000".
Proof.
  split; [vm_compute; reflexivity|].
  split; [vm_compute; reflexivity|].
  intros [|l1 [|l2 [|l3 leads]]] Hids; try discriminate.
  destruct l1, l2. simpl in Hids. injection Hids as -> ->.
  vm_compute. reflexivity.
Qed.

(** ** The Kanban board *)

Lemma insert_by_order_perm (s : WorkStage.t) (l : list WorkStage.t) :
  Permutation (insert_by_order s l) (s :: l).
Proof.
  induction l as [|x l IH]; simpl; [reflexivity|].
  destruct (WorkStage.order s <=? WorkStage.order x)%Z; [reflexivity|].
  rewrite IH. apply perm_swap.
Qed.

Lemma sort_by_order_perm (l : list WorkStage.t) :
  Permutation (sort_by_order l) l.
Proof.
  induction l as [|x l IH]; simpl; [reflexivity|].
  rewrite insert_by_order_perm. now constructor.
Qed.

Lemma insert_by_order_sorted (s : WorkStage.t) (l : list WorkStage.t) :
  StronglySorted by_order l -> StronglySorted by_order (insert_by_order s l).
Proof.
  induction 1 as [|x l Hl IH Hx]; simpl.
  - constructor; constructor.
  - destruct (WorkStage.order s <=? WorkStage.order x)%Z eqn:Hle.
    + apply Z.leb_le in Hle. constructor; [now constructor|].
      constructor; [exact Hle|].
      eapply List.Forall_impl; [|exact Hx].
      intros y Hy. unfold by_order in *. lia.
    + apply Z.leb_gt in Hle. constructor; [exact IH|].
      eapply Permutation_Forall; [symmetry; apply insert_by_order_perm|].
      constructor; [unfold by_order; lia | exact Hx].
Qed.

Lemma sort_by_order_sorted (l : list WorkStage.t) :
  StronglySorted by_order (sort_by_order l).
Proof.
  induction l as [|x l IH]; simpl; [constructor|].
  now apply insert_by_order_sorted.
Qed.

Lemma mapM_kanban_column (config_uid : option string)
    (stages : list WorkStage.t) (w : World) :
  mapM (kanban_column config_uid) stages w
  = (Ok (map (column_of config_uid w) stages), w).
Proof.
  induction stages as [|st rest IH]; simpl; [reflexivity|].
  unfold bind in *. unfold kanban_column at 1. now rewrite IH.
Qed.

Lemma stage_query_spec (config_uid : option string) (doc : WorkStage.t) :
  stage_query config_uid doc = true
  <-> config_matches config_uid (WorkStage.config doc).
Proof.
  unfold stage_query, config_matches.
  destruct (config_given config_uid); [apply String.eqb_eq | tauto].
Qed.

Lemma lead_query_spec (config_uid : option string) (stage : WorkStage.t)
    (doc : WorkItem.t) :
  lead_query config_uid stage doc = true
  <-> WorkItem.current_stage doc = WorkStage.uid stage
      /\ config_matches config_uid (WorkItem.config doc).
Proof.
  unfold lead_query, config_matches. rewrite andb_true_iff, String.eqb_eq.
  destruct (config_given config_uid); [rewrite String.eqb_eq|]; tauto.
Qed.

(** C9, as the code has it.  [get_kanban_data] returns and leaves the
    world as it was.  Its columns are, up to order, the stored stages whose
    config matches, active or not, one column each; they come sorted by
    [order], ascending.  The leads of a column are the stored leads, in
    store order, whose [current_stage] is the stage's uid and whose config
    matches, and [count] is their number. *)
Theorem kanban_projection (config_uid : option string) (w : World) :
  exists columns,
    get_kanban_data config_uid w = (Ok columns, w)
    /\ Permutation (map KanbanColumn.stage columns)
                   (List.filter (stage_query config_uid) (stages_collection w))
    /\ (forall doc,
           In doc (map KanbanColumn.stage columns) <->
           In doc (stages_collection w)
           /\ config_matches config_uid (WorkStage.config doc))
    /\ StronglySorted by_order (map KanbanColumn.stage columns)
    /\ Forall (fun column =>
                 KanbanColumn.leads column
                 = List.filter (lead_query config_uid (KanbanColumn.stage column))
                               (leads_collection w)
                 /\ (forall lead,
                        In lead (KanbanColumn.leads column) <->
                        In lead (leads_collection w)
                        /\ WorkItem.current_stage lead
                           = WorkStage.uid (KanbanColumn.stage column)
                        /\ config_matches config_uid (WorkItem.config lead))
                 /\ KanbanColumn.count column
                    = Z.of_nat (length (KanbanColumn.leads column)))
              columns.
Proof.
  set (stages := sort_by_order
                   (List.filter (stage_query config_uid) (stages_collection w))).
  exists (map (column_of config_uid w) stages).
  assert (Hstages : map KanbanColumn.stage (map (column_of config_uid w) stages)
                    = stages).
  { rewrite map_map. simpl. apply map_id. }
  rewrite Hstages.
  split; [|split; [|split; [|split]]].
  - unfold get_kanban_data, bind, list_stages. fold stages.
    apply mapM_kanban_column.
  - apply sort_by_order_perm.
  - intros doc. rewrite <- stage_query_spec, <- filter_In.
    split; apply Permutation_in;
      [|symmetry]; apply sort_by_order_perm.
  - apply sort_by_order_sorted.
  - apply List.Forall_forall. intros column Hin.
    apply in_map_iff in Hin as (stage & <- & _). simpl.
    split; [reflexivity|]. split; [|reflexivity].
    intros lead. rewrite filter_In, lead_query_spec. tauto.
Qed.

(** C9 as stated fails: the catalog of [Demo.world_1] has the inactive
    stage D, and the board has a column for it next to the three active
    ones. *)
Lemma kanban_has_column_for_inactive_stage :
  exists columns,
    get_kanban_data None Demo.world_1 = (Ok columns, Demo.world_1)
    /\ map (fun column => WorkStage.uid (KanbanColumn.stage column)) columns
       = ["A"; "B"; "C"; "D"]
    /\ map (fun column => WorkStage.is_active (KanbanColumn.stage column)) columns
       = [true; true; true; false]
    /\ length (List.filter WorkStage.is_active
                           (stages_collection Demo.world_1)) = 3%nat
    /\ length columns = 4%nat.
Proof.
  eexists. split; [vm_compute; reflexivity|].
  repeat split; vm_compute; reflexivity.
Qed.

(** ** Task instantiation and accumulation *)

Lemma complete_task_effect
    (now : datetime) (lead_uid task_uid : string)
    (field_values : list (gmap string value)) (notes : string)
    (completed_by : option string) (w w' : World) (b : bool)
    (lead : WorkItem.t) :
  complete_task now lead_uid task_uid field_values notes completed_by w
  = (Ok b, w') ->
  get_lead lead_uid w = (Ok (Some lead), w) ->
  stages_collection w' = stages_collection w
  /\ exists lead', get_lead lead_uid w' = (Ok (Some lead'), w')
                   /\ length (WorkItem.tasks lead')
                      = length (WorkItem.tasks lead).
Proof.
  intros Hcall Hl. apply get_lead_find in Hl.
  unfold complete_task, bind, lift, update_one_lead, ret in Hcall.
  destruct (validate_field_values field_values) as [values|e]; [|discriminate].
  inversion Hcall; subst b w'; clear Hcall.
  split; [reflexivity|]. simpl.
  destruct (find_update_other (uid_is lead_uid) (has_task lead_uid task_uid)
              (complete_update now task_uid completed_by notes values)
              (leads_collection w)) as [Hsame|(x & Hx & Hnew)].
  - reflexivity.
  - exists lead. split; [|reflexivity].
    apply get_lead_find. simpl. now rewrite Hsame.
  - eexists. split; [apply get_lead_find; simpl; exact Hnew|].
    rewrite Hl in Hx. inversion Hx; subst x. simpl.
    apply update_first_length.
Qed.

Lemma run_accumulates (lead_uid : string) (commands : list command) :
  forall (w w' : World) (lead : WorkItem.t),
    get_lead lead_uid w = (Ok (Some lead), w) ->
    run lead_uid commands w = (Ok tt, w') ->
    exists lead',
      get_lead lead_uid w' = (Ok (Some lead'), w')
      /\ length (WorkItem.tasks lead')
         = (length (WorkItem.tasks lead)
            + templates_entered (stages_collection w) commands)%nat.
Proof.
  induction commands as [|c rest IH]; intros w w' lead Hl Hrun.
  - inversion Hrun; subst w'. exists lead. split; [exact Hl|]. simpl. lia.
  - simpl in Hrun. unfold bind in Hrun.
    destruct (run_command lead_uid c w) as [[b|e] w1] eqn:Hc; [|discriminate].
    destruct c as [now target comment by_|now task_uid fvs notes by_];
      simpl in Hc.
    + destruct (transition_effect _ _ _ _ _ _ _ _ _ Hc Hl)
        as (cs & ns & Hmay & _ & Hl1 & Hst & _).
      destruct (IH _ _ _ Hl1 Hrun) as (lead' & Hl' & Hlen).
      exists lead'. split; [exact Hl'|].
      rewrite Hlen, Hst. simpl.
      rewrite length_app, instances_length.
      unfold template_count.
      destruct Hmay as (_ & _ & Hns & _). apply get_stage_find in Hns.
      rewrite Hns. lia.
    + destruct (complete_task_effect _ _ _ _ _ _ _ _ _ _ Hc Hl)
        as (Hst & lead1 & Hl1 & Hlen1).
      destruct (IH _ _ _ Hl1 Hrun) as (lead' & Hl' & Hlen).
      exists lead'. split; [exact Hl'|].
      rewrite Hlen, Hst, Hlen1. reflexivity.
Qed.

(** *** Task uids *)

Lemma flat_map_update_first_perm {A B} (g : A -> list B) (p : A -> bool)
    (f : A -> A) (l : list A) (x : A) (extra : list B) :
  List.find p l = Some x ->
  g (f x) = g x ++ extra ->
  Permutation (flat_map g (update_first p f l)) (extra ++ flat_map g l).
Proof.
  intros Hx Hg.
  destruct (find_split p l x Hx) as (pre & post & Hl & _ & _ & Hup & _).
  rewrite Hup, Hl, !flat_map_app. simpl. rewrite Hg, <- !app_assoc.
  rewrite (app_assoc (flat_map g pre) (g x)).
  rewrite (app_assoc (flat_map g pre) (g x) (flat_map g post)).
  apply Permutation_app_swap_app.
Qed.

Lemma flat_map_update_first_same {A B} (g : A -> list B) (p : A -> bool)
    (f : A -> A) (l : list A) :
  (forall x, g (f x) = g x) ->
  flat_map g (update_first p f l) = flat_map g l.
Proof.
  intros Hg. induction l as [|y l IH]; simpl; [reflexivity|].
  destruct (p y); simpl; [now rewrite Hg | now rewrite IH].
Qed.

Lemma NoDup_flat_map_In {A B} (g : A -> list B) (l : list A) (x : A) :
  List.NoDup (flat_map g l) -> In x l -> List.NoDup (g x).
Proof.
  intros Hnd Hin. apply in_split in Hin as (l1 & l2 & ->).
  rewrite flat_map_app in Hnd. simpl in Hnd.
  apply NoDup_app_remove_l in Hnd. now apply NoDup_app_remove_r in Hnd.
Qed.

(** The task uids in the store after a transition that returned: those
    that were there and the next UUIDs of the source, one per template. *)
Lemma transition_task_uids
    (now : datetime) (lead_uid new_stage_uid comment : string)
    (performed_by : option string) (w w' : World) (b : bool) :
  transition_stage now lead_uid new_stage_uid comment performed_by w
  = (Ok b, w') ->
  exists new_stage,
    get_stage new_stage_uid w = (Ok (Some new_stage), w)
    /\ uuid_source w' = uuid_source w
    /\ uuid_drawn w'
       = (uuid_drawn w + length (WorkStage.stage_tasks new_stage))%nat
    /\ Permutation
         (stored_task_uids w')
         (map (uuid_source w)
              (seq (uuid_drawn w) (length (WorkStage.stage_tasks new_stage)))
          ++ stored_task_uids w).
Proof.
  intros Hcall.
  destruct (transition_returns_inv _ _ _ _ _ _ _ _ Hcall)
    as (lead & cs & ns & Hmay).
  rewrite (transition_succeeds _ _ _ _ _ _ _ _ _ Hmay) in Hcall.
  inversion Hcall; subst b w'; clear Hcall.
  destruct Hmay as (Hl & _ & Hns & _). apply get_lead_find in Hl.
  exists ns. split; [exact Hns|]. split; [reflexivity|].
  split; [reflexivity|].
  unfold stored_task_uids. simpl.
  apply (flat_map_update_first_perm _ _ _ _ lead); [exact Hl|].
  simpl. now rewrite map_app, instances_uids.
Qed.

(** Completing a task changes no task uid and draws no UUID. *)
Lemma complete_task_task_uids
    (now : datetime) (lead_uid task_uid : string)
    (field_values : list (gmap string value)) (notes : string)
    (completed_by : option string) (w w' : World) (b : bool) :
  complete_task now lead_uid task_uid field_values notes completed_by w
  = (Ok b, w') ->
  uuid_source w' = uuid_source w
  /\ uuid_drawn w' = uuid_drawn w
  /\ stored_task_uids w' = stored_task_uids w.
Proof.
  intros Hcall.
  unfold complete_task, bind, lift, update_one_lead, ret in Hcall.
  destruct (validate_field_values field_values) as [values|e]; [|discriminate].
  inversion Hcall; subst b w'; clear Hcall.
  split; [reflexivity|]. split; [reflexivity|].
  unfold stored_task_uids. simpl.
  apply flat_map_update_first_same. intros doc. simpl.
  apply map_update_first. reflexivity.
Qed.

(** Drawing the next [k] UUIDs for new tasks keeps the task uids unique. *)
Lemma uuid4_unique_step (w w' : World) (k : nat) :
  uuid4_unique w ->
  uuid_source w' = uuid_source w ->
  uuid_drawn w' = (uuid_drawn w + k)%nat ->
  Permutation (stored_task_uids w')
              (map (uuid_source w) (seq (uuid_drawn w) k) ++ stored_task_uids w) ->
  List.NoDup (map (uuid_source w) (seq (uuid_drawn w) k))
  /\ (forall uid, In uid (map (uuid_source w) (seq (uuid_drawn w) k)) ->
                  ~ In uid (stored_task_uids w))
  /\ uuid4_unique w'
  /\ (List.NoDup (stored_task_uids w) -> List.NoDup (stored_task_uids w')).
Proof.
  intros (Hinj & Hfresh) Hsrc Hdrawn Hperm.
  assert (Hnew : List.NoDup (map (uuid_source w) (seq (uuid_drawn w) k))).
  { apply Finite.Injective_map_NoDup; [exact Hinj | apply List.seq_NoDup]. }
  assert (Hapart : forall uid,
             In uid (map (uuid_source w) (seq (uuid_drawn w) k)) ->
             ~ In uid (stored_task_uids w)).
  { intros uid Hin. apply in_map_iff in Hin as (i & <- & Hi).
    apply in_seq in Hi. apply Hfresh. lia. }
  split; [exact Hnew|]. split; [exact Hapart|]. split.
  - split; [now rewrite Hsrc|].
    intros i Hi Hin. rewrite Hsrc in Hin.
    apply (Permutation_in _ Hperm) in Hin.
    apply in_app_or in Hin as [Hin|Hin].
    + apply in_map_iff in Hin as (j & Hj & Hseq).
      apply Hinj in Hj. subst j. apply in_seq in Hseq. lia.
    + apply (Hfresh i); [lia | exact Hin].
  - intros Hold. apply (Permutation_NoDup (Permutation_sym Hperm)).
    now apply List.NoDup_app.
Qed.

Lemma run_keeps_task_uids_unique (lead_uid : string) (commands : list command) :
  forall (w w' : World),
    run lead_uid commands w = (Ok tt, w') ->
    uuid4_unique w ->
    List.NoDup (stored_task_uids w) ->
    uuid4_unique w' /\ List.NoDup (stored_task_uids w').
Proof.
  induction commands as [|c rest IH]; intros w w' Hrun Hu Hnd.
  - inversion Hrun; subst w'. now split.
  - simpl in Hrun. unfold bind in Hrun.
    destruct (run_command lead_uid c w) as [[b|e] w1] eqn:Hc; [|discriminate].
    destruct c as [now target comment by_|now task_uid fvs notes by_];
      simpl in Hc.
    + destruct (transition_task_uids _ _ _ _ _ _ _ _ Hc)
        as (ns & _ & Hsrc & Hdrawn & Hperm).
      destruct (uuid4_unique_step w w1 _ Hu Hsrc Hdrawn Hperm)
        as (_ & _ & Hu1 & Hnd1).
      exact (IH w1 w' Hrun Hu1 (Hnd1 Hnd)).
    + destruct (complete_task_task_uids _ _ _ _ _ _ _ _ _ Hc)
        as (Hsrc & Hdrawn & Hsame).
      apply (IH w1 w' Hrun).
      * destruct Hu as (Hinj & Hfresh). split.
        -- now rewrite Hsrc.
        -- intros i Hi. rewrite Hsrc, Hsame. apply Hfresh. lia.
      * now rewrite Hsame.
Qed.

(** C5, as the code has it.  A transition that returns appends to the
    lead's tasks one new task for every template in the target stage's
    [stage_tasks], inactive ones included, in template order: each with the
    next UUID drawn as uid, the template's uid as [template_id], the target
    as [stage], status pending and no field values; the tasks that were
    there stay in front, unchanged, and the source has moved on by one UUID
    per template.  With [uuid4] never repeating a value nor returning the
    uid of a stored task, the new uids differ from each other and from the
    uid of every task of every stored lead, the same holds of the source in
    the world the call leaves, and task uids that were unique in the store
    still are.  Over any run of transitions and task completions for one
    lead that all return, the length of the task list grows by the sum of
    the template counts of the stages entered, and task uids that were
    unique in the store stay so, those of the lead among them. *)
Theorem transition_instantiates_every_template (lead_uid : string) :
  (forall now new_stage_uid comment performed_by w w' lead new_stage,
      get_lead lead_uid w = (Ok (Some lead), w) ->
      get_stage new_stage_uid w = (Ok (Some new_stage), w) ->
      transition_stage now lead_uid new_stage_uid comment performed_by w
      = (Ok true, w') ->
      exists lead' new_tasks,
        get_lead lead_uid w' = (Ok (Some lead'), w')
        /\ WorkItem.tasks lead' = WorkItem.tasks lead ++ new_tasks
        /\ Forall2 (instance_of new_stage_uid)
                   (WorkStage.stage_tasks new_stage) new_tasks
        /\ map WorkItemTask.uid new_tasks
           = map (uuid_source w)
                 (seq (uuid_drawn w) (length (WorkStage.stage_tasks new_stage)))
        /\ uuid_source w' = uuid_source w
        /\ uuid_drawn w'
           = (uuid_drawn w + length (WorkStage.stage_tasks new_stage))%nat
        /\ (uuid4_unique w ->
            List.NoDup (map WorkItemTask.uid new_tasks)
            /\ (forall task, In task new_tasks ->
                             ~ In (WorkItemTask.uid task) (stored_task_uids w))
            /\ uuid4_unique w'
            /\ (List.NoDup (stored_task_uids w) ->
                List.NoDup (stored_task_uids w'))))
  /\ (forall commands w w' lead,
         get_lead lead_uid w = (Ok (Some lead), w) ->
         run lead_uid commands w = (Ok tt, w') ->
         exists lead',
           get_lead lead_uid w' = (Ok (Some lead'), w')
           /\ length (WorkItem.tasks lead')
              = (length (WorkItem.tasks lead)
                 + templates_entered (stages_collection w) commands)%nat
           /\ (uuid4_unique w ->
               List.NoDup (stored_task_uids w) ->
               uuid4_unique w'
               /\ List.NoDup (stored_task_uids w')
               /\ List.NoDup (map WorkItemTask.uid (WorkItem.tasks lead')))).
Proof.
  split.
  - intros now new_stage_uid comment performed_by w w' lead new_stage
           Hl Hs Hcall.
    destruct (transition_effect _ _ _ _ _ _ _ _ _ Hcall Hl)
      as (cs & ns & Hmay & _ & Hl' & _ & Hsrc & Hdrawn).
    assert (ns = new_stage) as ->.
    { destruct Hmay as (_ & _ & Hns & _). congruence. }
    destruct (transition_task_uids _ _ _ _ _ _ _ _ Hcall)
      as (ns & Hns & _ & _ & Hperm).
    assert (ns = new_stage) as -> by congruence.
    eexists. eexists. split; [exact Hl'|]. simpl.
    split; [reflexivity|]. split; [apply instances_Forall2|].
    split; [apply instances_uids|].
    split; [exact Hsrc|]. split; [exact Hdrawn|].
    intros Hu.
    destruct (uuid4_unique_step w w' _ Hu Hsrc Hdrawn Hperm)
      as (Hnew & Hapart & Hu' & Hnd').
    rewrite instances_uids.
    split; [exact Hnew|]. split; [|split; [exact Hu' | exact Hnd']].
    intros task Hin. apply Hapart.
    rewrite <- (instances_uids _ _ new_stage_uid). now apply in_map.
  - intros commands w w' lead Hl Hrun.
    destruct (run_accumulates lead_uid commands w w' lead Hl Hrun)
      as (lead' & Hl' & Hlen).
    exists lead'. split; [exact Hl'|]. split; [exact Hlen|].
    intros Hu Hnd.
    destruct (run_keeps_task_uids_unique lead_uid commands w w' Hrun Hu Hnd)
      as (Hu' & Hnd').
    split; [exact Hu'|]. split; [exact Hnd'|].
    apply get_lead_find in Hl'. apply find_some in Hl' as [Hin _].
    exact (NoDup_flat_map_In _ _ lead' Hnd' Hin).
Qed.

(** C5 as stated fails: stage D has one template, and it is not active;
    the transition into D still appends a task for it, so the lead has two
    tasks where the active templates of the stages entered number one. *)
Lemma inactive_template_is_instantiated :
  fst (transition_stage 30 "L1" "D" "" None DemoRun.world_3) = Ok true
  /\ map WorkStageTask.is_active (WorkStage.stage_tasks Demo.stage_D) = [false]
  /\ exists lead',
       get_lead "L1" DemoRun.world_4 = (Ok (Some lead'), DemoRun.world_4)
       /\ map (fun t => (WorkItemTask.uid t, WorkItemTask.template_id t,
                         WorkItemTask.stage t, WorkItemTask.is_active t))
              (WorkItem.tasks lead')
          = [("uuid-0", "tmpl-T", "B", true); ("uuid-1", "tmpl-off", "D", false)].
Proof.
  split; [vm_compute; reflexivity|].
  split; [reflexivity|].
  eexists. split; vm_compute; reflexivity.
Qed.

(* ===================================================================== *)
(** * Further properties of the code *)
(* ===================================================================== *)

(** ** validate_field_value: the type gates and the bounds *)

Lemma check_rules_empty (field_def : FieldDefinition.t) (v : value) :
  FieldDefinition.validation_rules field_def = ∅ ->
  check_rules field_def v = Ok tt.
Proof.
  intros He. unfold check_rules.
  destruct (decide (FieldDefinition.validation_rules field_def = ∅));
    [reflexivity | contradiction].
Qed.

(** X1.  Without validation rules, an integer field accepts exactly the
    [int]s, booleans among them, a decimal field exactly [int]s, booleans
    and [float]s, and a boolean field exactly the booleans; everything else,
    [None] included, is refused with the "Expected ..., got <class ...>"
    [ValueError] that starts with the field key. *)
Theorem typed_field_accepts_its_type_only
    (field_def : FieldDefinition.t) (v : value) :
  FieldDefinition.validation_rules field_def = ∅ ->
  let key := FieldDefinition.field_key field_def in
  (FieldDefinition.field_type field_def = INTEGER ->
   validate_field_value field_def v
   = match v with
     | VInt _ | VBool _ => Ok true
     | _ => Raise (ValueError (text (key +:+ ": Expected integer, got <class '"
                                     +:+ type_name v +:+ "'>")))
     end)
  /\ (FieldDefinition.field_type field_def = DECIMAL ->
      validate_field_value field_def v
      = match v with
        | VInt _ | VBool _ | VFloat _ => Ok true
        | _ => Raise (ValueError (text (key +:+ ": Expected number, got <class '"
                                        +:+ type_name v +:+ "'>")))
        end)
  /\ (FieldDefinition.field_type field_def = BOOLEAN ->
      validate_field_value field_def v
      = match v with
        | VBool _ => Ok true
        | _ => Raise (ValueError (text (key +:+ ": Expected boolean, got <class '"
                                        +:+ type_name v +:+ "'>")))
        end).
Proof.
  intros He key. unfold validate_field_value, check_type, check_required.
  rewrite (check_rules_empty field_def v He).
  repeat split; intros ->; destruct v; simpl;
    try reflexivity; now rewrite andb_false_r.
Qed.

Lemma typed_field_accepts_its_type_only_witness :
  validate_field_value age_field (VBool true) = Ok true
  /\ validate_field_value age_field (VStr "41")
     = Raise (ValueError (text "age: Expected integer, got <class 'str'>"))
  /\ validate_field_value age_field VNone
     = Raise (ValueError (text "age: Expected integer, got <class 'NoneType'>")).
Proof.
  split; [|split].
  - exact (proj1 (typed_field_accepts_its_type_only age_field (VBool true)
                    eq_refl) eq_refl).
  - exact (proj1 (typed_field_accepts_its_type_only age_field (VStr "41")
                    eq_refl) eq_refl).
  - exact (proj1 (typed_field_accepts_its_type_only age_field VNone
                    eq_refl) eq_refl).
Defined.

Lemma Qlt_bool_inject_Z (a b : Z) :
  Qlt_bool (inject_Z a) (inject_Z b) = (a <? b)%Z.
Proof.
  unfold Qlt_bool, Qle_bool, inject_Z. simpl. rewrite !Z.mul_1_r.
  now rewrite Z.ltb_antisym.
Qed.

(** X2.  The bounds are inclusive.  For an integer field whose rules bind
    "min" to the integer [lo] and "max" to the integer [hi], an integer [n]
    validates exactly when [lo <= n <= hi]; below [lo] the error is the
    "below minimum" one, above [hi] (and not below [lo]) the "exceeds
    maximum" one. *)
Theorem integer_bounds_are_inclusive
    (field_def : FieldDefinition.t) (lo hi n : Z) :
  FieldDefinition.field_type field_def = INTEGER ->
  FieldDefinition.validation_rules field_def !! "min" = Some (VInt lo) ->
  FieldDefinition.validation_rules field_def !! "max" = Some (VInt hi) ->
  let key := FieldDefinition.field_key field_def in
  ((lo <= n <= hi)%Z -> validate_field_value field_def (VInt n) = Ok true)
  /\ ((n < lo)%Z ->
      validate_field_value field_def (VInt n)
      = Raise (ValueError [Lit (key +:+ ": Value "); Fmt (VInt n);
                           Lit " below minimum "; Fmt (VInt lo)]))
  /\ ((lo <= n)%Z -> (hi < n)%Z ->
      validate_field_value field_def (VInt n)
      = Raise (ValueError [Lit (key +:+ ": Value "); Fmt (VInt n);
                           Lit " exceeds maximum "; Fmt (VInt hi)])).
Proof.
  intros Hty Hmin Hmax key.
  assert (Hne : FieldDefinition.validation_rules field_def <> ∅).
  { intros He. rewrite He, lookup_empty in Hmin. discriminate. }
  assert (Hshape : validate_field_value field_def (VInt n)
            = if (n <? lo)%Z
              then Raise (ValueError [Lit (key +:+ ": Value "); Fmt (VInt n);
                                      Lit " below minimum "; Fmt (VInt lo)])
              else if (hi <? n)%Z
              then Raise (ValueError [Lit (key +:+ ": Value "); Fmt (VInt n);
                                      Lit " exceeds maximum "; Fmt (VInt hi)])
              else Ok true).
  { unfold validate_field_value, check_type, check_rules, check_required,
      rule_broken.
    rewrite Hty. simpl.
    destruct (decide (FieldDefinition.validation_rules field_def = ∅));
      [contradiction|].
    rewrite Hmin, Hmax. simpl.
    rewrite !Qlt_bool_inject_Z.
    destruct (n <? lo)%Z; [reflexivity|].
    destruct (hi <? n)%Z; [reflexivity|].
    now rewrite andb_false_r. }
  rewrite Hshape. repeat split.
  - intros [Hlo Hhi].
    apply Z.ltb_ge in Hlo. apply Z.ltb_ge in Hhi. now rewrite Hlo, Hhi.
  - intros Hlt. apply Z.ltb_lt in Hlt. now rewrite Hlt.
  - intros Hlo Hgt. apply Z.ltb_ge in Hlo. apply Z.ltb_lt in Hgt.
    now rewrite Hlo, Hgt.
Qed.

Lemma integer_bounds_are_inclusive_witness :
  validate_field_value score_field (VInt 1) = Ok true
  /\ validate_field_value score_field (VInt 10) = Ok true
  /\ validate_field_value score_field (VInt 0)
     = Raise (ValueError [Lit "score: Value "; Fmt (VInt 0);
                          Lit " below minimum "; Fmt (VInt 1)])
  /\ validate_field_value score_field (VInt 11)
     = Raise (ValueError [Lit "score: Value "; Fmt (VInt 11);
                          Lit " exceeds maximum "; Fmt (VInt 10)]).
Proof.
  assert (Hmin : FieldDefinition.validation_rules score_field !! "min"
                 = Some (VInt 1)) by (vm_compute; reflexivity).
  assert (Hmax : FieldDefinition.validation_rules score_field !! "max"
                 = Some (VInt 10)) by (vm_compute; reflexivity).
  split; [|split; [|split]].
  - apply (integer_bounds_are_inclusive score_field 1 10 1 eq_refl Hmin Hmax).
    lia.
  - apply (integer_bounds_are_inclusive score_field 1 10 10 eq_refl Hmin Hmax).
    lia.
  - apply (integer_bounds_are_inclusive score_field 1 10 0 eq_refl Hmin Hmax).
    lia.
  - apply (integer_bounds_are_inclusive score_field 1 10 11 eq_refl Hmin Hmax);
      lia.
Defined.

Lemma py_compare_str_number (op : cmpop) (s : string) (bound : value) :
  is_Some (as_number bound) ->
  py_compare op (VStr s) bound = Raise (not_supported op (VStr s) bound).
Proof. intros [q Hq]. destruct bound; try discriminate; reflexivity. Qed.

(** X3.  A numeric bound never measures a string.  For a field that is not
    integer, decimal or boolean, a string value meets a numeric "min" (or,
    when there is no "min", a numeric "max") in an ordered comparison of
    [str] with a number, and validation ends in that [TypeError], whatever
    the string and the bound are. *)
Theorem numeric_bound_on_string_raises_TypeError
    (field_def : FieldDefinition.t) (s : string) (bound : value) :
  FieldDefinition.field_type field_def <> INTEGER ->
  FieldDefinition.field_type field_def <> DECIMAL ->
  FieldDefinition.field_type field_def <> BOOLEAN ->
  is_Some (as_number bound) ->
  (FieldDefinition.validation_rules field_def !! "min" = Some bound ->
   validate_field_value field_def (VStr s)
   = Raise (TypeError (text ("'<' not supported between instances of 'str' and '"
                             +:+ type_name bound +:+ "'"))))
  /\ (FieldDefinition.validation_rules field_def !! "min" = None ->
      FieldDefinition.validation_rules field_def !! "max" = Some bound ->
      validate_field_value field_def (VStr s)
      = Raise (TypeError (text ("'>' not supported between instances of 'str' and '"
                                +:+ type_name bound +:+ "'")))).
Proof.
  intros Hi Hd Hb Hnum.
  unfold validate_field_value.
  rewrite (check_type_untyped field_def (VStr s) Hi Hd Hb).
  unfold check_rules, rule_broken.
  split.
  - intros Hmin.
    destruct (decide (FieldDefinition.validation_rules field_def = ∅)) as [He|_].
    { rewrite He, lookup_empty in Hmin. discriminate. }
    rewrite Hmin, (py_compare_str_number OpLt s bound Hnum). reflexivity.
  - intros Hmin Hmax.
    destruct (decide (FieldDefinition.validation_rules field_def = ∅)) as [He|_].
    { rewrite He, lookup_empty in Hmax. discriminate. }
    rewrite Hmin, Hmax, (py_compare_str_number OpGt s bound Hnum). reflexivity.
Qed.

Lemma numeric_bound_on_string_witness :
  validate_field_value bounded_text_field (VStr "Acme Ltd")
  = Raise (TypeError
      (text "'<' not supported between instances of 'str' and 'int'")).
Proof.
  apply (proj1 (numeric_bound_on_string_raises_TypeError bounded_text_field
                  "Acme Ltd" (VInt 3) ltac:(discriminate) ltac:(discriminate)
                  ltac:(discriminate) ltac:(eexists; reflexivity))).
  vm_compute. reflexivity.
Defined.

(** X4.  Fields of the other six types are not type-checked at all.  For a
    field that is not integer, decimal or boolean and has no validation
    rules, every value other than [None] validates, whatever its Python
    type; [None] validates unless the field is required, in which case the
    error is the "Required field cannot be None" [ValueError]. *)
Theorem untyped_field_accepts_any_value
    (field_def : FieldDefinition.t) (v : value) :
  FieldDefinition.field_type field_def <> INTEGER ->
  FieldDefinition.field_type field_def <> DECIMAL ->
  FieldDefinition.field_type field_def <> BOOLEAN ->
  FieldDefinition.validation_rules field_def = ∅ ->
  (v <> VNone -> validate_field_value field_def v = Ok true)
  /\ (FieldDefinition.required field_def = false ->
      validate_field_value field_def VNone = Ok true)
  /\ (FieldDefinition.required field_def = true ->
      validate_field_value field_def VNone
      = Raise (ValueError (text (FieldDefinition.field_key field_def
                                 +:+ ": Required field cannot be None")))).
Proof.
  intros Hi Hd Hb He. unfold validate_field_value.
  rewrite !(check_type_untyped field_def _ Hi Hd Hb).
  rewrite !(check_rules_empty field_def _ He).
  unfold check_required. split; [|split].
  - intros Hv. destruct v; try contradiction; now rewrite andb_false_r.
  - intros ->. reflexivity.
  - intros ->. reflexivity.
Qed.

Lemma untyped_field_accepts_any_value_witness :
  validate_field_value due_field (VInt 7) = Ok true
  /\ validate_field_value due_field (VList [VStr "x"]) = Ok true
  /\ validate_field_value due_field VNone
     = Raise (ValueError (text "due: Required field cannot be None")).
Proof.
  split; [|split].
  - apply (proj1 (untyped_field_accepts_any_value due_field (VInt 7)
                    ltac:(discriminate) ltac:(discriminate) ltac:(discriminate)
                    eq_refl)).
    discriminate.
  - apply (proj1 (untyped_field_accepts_any_value due_field (VList [VStr "x"])
                    ltac:(discriminate) ltac:(discriminate) ltac:(discriminate)
                    eq_refl)).
    discriminate.
  - apply (proj2 (proj2 (untyped_field_accepts_any_value due_field VNone
                    ltac:(discriminate) ltac:(discriminate) ltac:(discriminate)
                    eq_refl))).
    reflexivity.
Defined.

(** ** transition_stage: failures, frame, composition *)

(** A transition that raises has written nothing. *)
Lemma transition_raise_no_write
    (now : datetime) (lead_uid new_stage_uid comment : string)
    (performed_by : option string) (w w' : World) (e : exn) :
  transition_stage now lead_uid new_stage_uid comment performed_by w
  = (Raise e, w') ->
  w' = w.
Proof.
  intros Hcall.
  destruct (List.find (uid_is lead_uid) (leads_collection w)) as [lead|] eqn:Hl.
  2:{ rewrite (transition_no_lead _ _ _ _ _ _ Hl) in Hcall. congruence. }
  destruct (List.find (fun doc => String.eqb (WorkStage.uid doc) new_stage_uid)
                      (stages_collection w)) as [ns|] eqn:Ht.
  2:{ rewrite (transition_no_target _ _ _ _ _ _ lead Hl Ht) in Hcall.
      congruence. }
  destruct (List.find (fun doc => String.eqb (WorkStage.uid doc)
                                    (WorkItem.current_stage lead))
                      (stages_collection w)) as [cs|] eqn:Hc.
  2:{ rewrite (transition_no_current _ _ _ _ _ _ lead ns Hl Ht Hc) in Hcall.
      congruence. }
  destruct (str_in new_stage_uid (WorkStage.allowed_next_stages cs)) eqn:Hedge.
  2:{ rewrite (transition_edge_missing _ _ _ _ _ _ lead cs ns Hl Hc Ht Hedge)
        in Hcall.
      congruence. }
  destruct (List.filter blocks_transition (WorkItem.tasks lead)) eqn:Hfree.
  2:{ rewrite (transition_blocked _ _ _ _ _ _ lead cs ns Hl Hc Ht Hedge)
        in Hcall; [congruence | now rewrite Hfree]. }
  assert (Hmay : may_transition lead_uid new_stage_uid w lead cs ns).
  { split; [now apply get_lead_find|].
    split; [now apply get_stage_find|].
    split; [now apply get_stage_find|]. now split. }
  rewrite (transition_succeeds _ _ _ _ _ _ _ _ _ Hmay) in Hcall.
  discriminate.
Qed.

(** X5.  A transition is all or nothing.  Whatever the arguments and the
    store, the call either returns [True], and then all five preconditions
    held, or raises, and then the world it leaves is the world it found. *)
Theorem transition_all_or_nothing
    (now : datetime) (lead_uid new_stage_uid comment : string)
    (performed_by : option string) (w w' : World) (r : result bool) :
  transition_stage now lead_uid new_stage_uid comment performed_by w = (r, w') ->
  (r = Ok true
   /\ exists lead current_stage new_stage,
        may_transition lead_uid new_stage_uid w lead current_stage new_stage)
  \/ (exists e, r = Raise e /\ w' = w).
Proof.
  intros Hcall. destruct r as [b|e].
  - left.
    destruct (transition_returns_inv _ _ _ _ _ _ _ _ Hcall)
      as (lead & cs & ns & Hmay).
    rewrite (transition_succeeds _ _ _ _ _ _ _ _ _ Hmay) in Hcall.
    injection Hcall as <- _. split; [reflexivity|]. now exists lead, cs, ns.
  - right. exists e. split; [reflexivity|].
    exact (transition_raise_no_write _ _ _ _ _ _ _ _ Hcall).
Qed.

Lemma transition_all_or_nothing_witness :
  (Ok true = Ok true
   /\ exists lead current_stage new_stage,
        may_transition "L1" "B" Demo.world_1 lead current_stage new_stage)
  \/ (exists e, Ok true = Raise e /\ Demo.world_2 = Demo.world_1).
Proof.
  apply (transition_all_or_nothing 20 "L1" "B" "" None Demo.world_1
           Demo.world_2 (Ok true)).
  vm_compute. reflexivity.
Defined.

(** X6.  The two "not found" failures.  Without a lead under [lead_uid]
    the call raises "Lead <uid> not found"; with the lead but without a
    stage under the target uid it raises "Stage <uid> not found", whether or
    not the lead's own stage resolves.  Neither writes. *)
Theorem transition_not_found_errors
    (now : datetime) (lead_uid new_stage_uid comment : string)
    (performed_by : option string) (w : World) :
  let call := transition_stage now lead_uid new_stage_uid comment performed_by w in
  (get_lead lead_uid w = (Ok None, w) ->
   call = (Raise (ValueError (text ("Lead " +:+ lead_uid +:+ " not found"))), w))
  /\ (forall lead,
         get_lead lead_uid w = (Ok (Some lead), w) ->
         get_stage new_stage_uid w = (Ok None, w) ->
         call = (Raise (ValueError (text ("Stage " +:+ new_stage_uid
                                          +:+ " not found"))), w)).
Proof.
  intros call. split.
  - intros Hl. apply get_lead_find in Hl.
    exact (transition_no_lead now lead_uid new_stage_uid comment performed_by
             w Hl).
  - intros lead Hl Ht. apply get_lead_find in Hl. apply get_stage_find in Ht.
    exact (transition_no_target now lead_uid new_stage_uid comment performed_by
             w lead Hl Ht).
Qed.

Lemma transition_not_found_errors_witness :
  transition_stage 30 "L7" "B" "" None Demo.world_1
  = (Raise (ValueError (text "Lead L7 not found")), Demo.world_1)
  /\ transition_stage 30 "L1" "Z" "" None Demo.world_1
     = (Raise (ValueError (text "Stage Z not found")), Demo.world_1).
Proof.
  split.
  - apply (proj1 (transition_not_found_errors 30 "L7" "B" "" None Demo.world_1)).
    vm_compute. reflexivity.
  - apply (proj2 (transition_not_found_errors 30 "L1" "Z" "" None Demo.world_1)
             Demo.lead_1).
    + vm_compute. reflexivity.
    + vm_compute. reflexivity.
Defined.

(** X7.  A transition touches one lead at most.  Whatever the outcome, the
    stage and config collections are as before, the leads keep their number,
    order and uids, and every stored lead is either unchanged or carries the
    uid the call was given. *)
Theorem transition_frame
    (now : datetime) (lead_uid new_stage_uid comment : string)
    (performed_by : option string) (w w' : World) (r : result bool) :
  transition_stage now lead_uid new_stage_uid comment performed_by w = (r, w') ->
  stages_collection w' = stages_collection w
  /\ configs_collection w' = configs_collection w
  /\ map WorkItem.uid (leads_collection w') = map WorkItem.uid (leads_collection w)
  /\ Forall2 (fun before after =>
                after = before \/ WorkItem.uid before = lead_uid)
             (leads_collection w) (leads_collection w').
Proof.
  intros Hcall. destruct r as [b|e].
  - destruct (transition_returns_inv _ _ _ _ _ _ _ _ Hcall)
      as (lead & cs & ns & Hmay).
    rewrite (transition_succeeds _ _ _ _ _ _ _ _ _ Hmay) in Hcall.
    injection Hcall as _ <-. simpl.
    split; [reflexivity|]. split; [reflexivity|].
    split; [apply map_update_first; reflexivity|].
    eapply Forall2_impl; [apply update_first_frame|].
    intros before after [->|[Hu _]]; [now left|].
    right. now apply String.eqb_eq.
  - rewrite (transition_raise_no_write _ _ _ _ _ _ _ _ Hcall).
    repeat split.
    induction (leads_collection w); constructor; auto.
Qed.

Lemma transition_frame_witness :
  stages_collection Demo.world_2 = stages_collection Demo.world_1
  /\ configs_collection Demo.world_2 = configs_collection Demo.world_1
  /\ map WorkItem.uid (leads_collection Demo.world_2)
     = map WorkItem.uid (leads_collection Demo.world_1)
  /\ Forall2 (fun before after => after = before \/ WorkItem.uid before = "L1")
             (leads_collection Demo.world_1) (leads_collection Demo.world_2).
Proof.
  apply (transition_frame 20 "L1" "B" "" None Demo.world_1 Demo.world_2
           (Ok true)).
  vm_compute. reflexivity.
Defined.

(** X8.  The audit trail of a transition.  A transition that returns keeps
    the lead's activities and adds exactly one at the end: type
    "STAGE_CHANGE", subject "Lead moved to <target name>", the comment as
    description, stamped with the time and the actor of the call, and with
    the names of the stage left and the stage entered and the comment in
    [activity_data]. *)
Theorem transition_logs_one_stage_change
    (now : datetime) (lead_uid new_stage_uid comment : string)
    (performed_by : option string) (w w' : World)
    (lead : WorkItem.t) (current_stage new_stage : WorkStage.t) :
  get_lead lead_uid w = (Ok (Some lead), w) ->
  get_stage (WorkItem.current_stage lead) w = (Ok (Some current_stage), w) ->
  get_stage new_stage_uid w = (Ok (Some new_stage), w) ->
  transition_stage now lead_uid new_stage_uid comment performed_by w
  = (Ok true, w') ->
  exists lead',
    get_lead lead_uid w' = (Ok (Some lead'), w')
    /\ WorkItem.activities lead'
       = WorkItem.activities lead
         ++ [Activity.mk "STAGE_CHANGE"
               ("Lead moved to " +:+ WorkStage.name new_stage)
               (Some comment) performed_by now performed_by
               [("from_stage", VStr (WorkStage.name current_stage));
                ("to_stage", VStr (WorkStage.name new_stage));
                ("comment", VStr comment)]].
Proof.
  intros Hl Hc Ht Hcall.
  destruct (transition_effect _ _ _ _ _ _ _ _ _ Hcall Hl)
    as (cs & ns & Hmay & _ & Hl' & _).
  destruct Hmay as (_ & Hc' & Ht' & _).
  assert (cs = current_stage) as -> by congruence.
  assert (ns = new_stage) as -> by congruence.
  eexists. split; [exact Hl'|]. reflexivity.
Qed.

Lemma transition_logs_one_stage_change_witness :
  exists lead',
    get_lead "L1" Demo.world_2 = (Ok (Some lead'), Demo.world_2)
    /\ WorkItem.activities lead'
       = WorkItem.activities Demo.lead_1
         ++ [Activity.mk "STAGE_CHANGE" "Lead moved to Contacted" (Some "")
               None 20 None
               [("from_stage", VStr "New"); ("to_stage", VStr "Contacted");
                ("comment", VStr "")]].
Proof.
  apply (transition_logs_one_stage_change 20 "L1" "B" "" None Demo.world_1
           Demo.world_2 Demo.lead_1 Demo.stage_A Demo.stage_B).
  - vm_compute. reflexivity.
  - vm_compute. reflexivity.
  - vm_compute. reflexivity.
  - reflexivity.
Defined.

(** A lead with a blocking task does not get through, whatever the
    target. *)
Lemma blocked_lead_stays
    (now : datetime) (lead_uid new_stage_uid comment : string)
    (performed_by : option string) (w : World) (lead : WorkItem.t) :
  get_lead lead_uid w = (Ok (Some lead), w) ->
  List.filter blocks_transition (WorkItem.tasks lead) <> [] ->
  exists e,
    transition_stage now lead_uid new_stage_uid comment performed_by w
    = (Raise e, w).
Proof.
  intros Hl Hblock.
  destruct (transition_stage now lead_uid new_stage_uid comment performed_by w)
    as [[b|e] w'] eqn:Hcall.
  - destruct (transition_returns_inv _ _ _ _ _ _ _ _ Hcall)
      as (lead0 & cs & ns & Hl0 & _ & _ & _ & Hfree).
    assert (lead0 = lead) as -> by congruence. contradiction.
  - exists e. now rewrite (transition_raise_no_write _ _ _ _ _ _ _ _ Hcall).
Qed.

Lemma instances_required source n new_stage_uid templates stage_task :
  In stage_task templates ->
  WorkStageTask.required stage_task = true ->
  exists task,
    In task (instances source n new_stage_uid templates)
    /\ blocks_transition task = true.
Proof.
  revert n. induction templates as [|st rest IH]; intros n Hin Hreq;
    [contradiction|].
  destruct Hin as [->|Hin].
  - eexists. split; [left; reflexivity|].
    unfold blocks_transition. simpl. now rewrite Hreq.
  - destruct (IH (S n) Hin Hreq) as (task & Ht & Hb).
    exists task. split; [right; exact Ht | exact Hb].
Qed.

(** X9.  Entering a stage with a required template locks the lead in.
    After a transition that returned into a stage whose templates include a
    required one, the next transition of that lead raises for every target,
    and writes nothing: the new required task is pending and has to be
    completed first. *)
Theorem required_template_blocks_next_transition
    (now : datetime) (lead_uid new_stage_uid comment : string)
    (performed_by : option string) (w w' : World) (new_stage : WorkStage.t)
    (stage_task : WorkStageTask.t) :
  get_stage new_stage_uid w = (Ok (Some new_stage), w) ->
  In stage_task (WorkStage.stage_tasks new_stage) ->
  WorkStageTask.required stage_task = true ->
  transition_stage now lead_uid new_stage_uid comment performed_by w
  = (Ok true, w') ->
  forall now' target comment' performed_by',
    exists e,
      transition_stage now' lead_uid target comment' performed_by' w'
      = (Raise e, w').
Proof.
  intros Ht Hin Hreq Hcall now' target comment' performed_by'.
  destruct (transition_returns_inv _ _ _ _ _ _ _ _ Hcall)
    as (lead & cs & ns & Hmay).
  pose proof Hmay as (Hl & _ & Ht' & _).
  assert (ns = new_stage) as -> by congruence.
  destruct (transition_effect _ _ _ _ _ _ _ _ _ Hcall Hl)
    as (cs' & ns' & Hmay' & _ & Hl' & _).
  apply (blocked_lead_stays now' lead_uid target comment' performed_by' w' _ Hl').
  destruct Hmay' as (_ & _ & Ht'' & _).
  assert (ns' = new_stage) as -> by congruence.
  destruct (instances_required (uuid_source w) (uuid_drawn w) new_stage_uid
              (WorkStage.stage_tasks new_stage) stage_task Hin Hreq)
    as (task & Htask & Hb).
  simpl. intros Hnil.
  assert (Hmem : In task (List.filter blocks_transition
                   (WorkItem.tasks lead
                    ++ instances (uuid_source w) (uuid_drawn w) new_stage_uid
                         (WorkStage.stage_tasks new_stage)))).
  { apply filter_In. split; [|exact Hb]. apply in_or_app. now right. }
  rewrite Hnil in Hmem. contradiction.
Qed.

Lemma required_template_blocks_next_transition_witness :
  exists e,
    transition_stage 30 "L1" "C" "" None Demo.world_2 = (Raise e, Demo.world_2).
Proof.
  apply (required_template_blocks_next_transition 20 "L1" "B" "" None
           Demo.world_1 Demo.world_2 Demo.stage_B Demo.template_T).
  - vm_compute. reflexivity.
  - left. reflexivity.
  - reflexivity.
  - reflexivity.
Defined.

(** ** complete_task: what it writes, what it leaves *)

(** X10.  What completing a task writes.  When the lead is found, its
    task list has a task with the uid and all field values are accepted,
    the call returns [True].  In the stored lead the first task with that
    uid is completed: status completed, [completed_at] the time of the
    call, [completed_by], [notes] and the validated [field_values] as
    given; the tasks before and after it are untouched.  One
    "TASK_COMPLETED" activity is added at the end, [updated_at] is the time
    of the call, and stage, status and history of the lead are as before. *)
Theorem complete_task_completes_first_match
    (now : datetime) (lead_uid task_uid : string)
    (field_values : list (gmap string value)) (notes : string)
    (completed_by : option string) (w : World) (lead : WorkItem.t)
    (task : WorkItemTask.t) (values : list TaskFieldValue.t) :
  get_lead lead_uid w = (Ok (Some lead), w) ->
  List.find (task_uid_is task_uid) (WorkItem.tasks lead) = Some task ->
  validate_field_values field_values = Ok values ->
  exists w' lead' before after done,
    complete_task now lead_uid task_uid field_values notes completed_by w
    = (Ok true, w')
    /\ get_lead lead_uid w' = (Ok (Some lead'), w')
    /\ WorkItem.tasks lead = before ++ task :: after
    /\ WorkItem.tasks lead' = before ++ done :: after
    /\ existsb (task_uid_is task_uid) before = false
    /\ WorkItemTask.uid done = task_uid
    /\ WorkItemTask.status done = TASK_COMPLETED
    /\ WorkItemTask.completed_at done = Some now
    /\ WorkItemTask.completed_by done = completed_by
    /\ WorkItemTask.notes done = notes
    /\ WorkItemTask.field_values done = values
    /\ WorkItemTask.template_id done = WorkItemTask.template_id task
    /\ WorkItemTask.stage done = WorkItemTask.stage task
    /\ WorkItem.activities lead'
       = WorkItem.activities lead
         ++ [Activity.mk "TASK_COMPLETED" "Task completed" None completed_by
               now completed_by
               [("task_uid", VStr task_uid); ("notes", VStr notes)]]
    /\ WorkItem.updated_at lead' = now
    /\ WorkItem.current_stage lead' = WorkItem.current_stage lead
    /\ WorkItem.status lead' = WorkItem.status lead
    /\ WorkItem.history lead' = WorkItem.history lead.
Proof.
  intros Hl Ht Hv.
  destruct (find_split _ _ _ Ht) as (pre & post & Htasks & Hu & Hpre & Hup & _).
  assert (Hex : existsb (task_uid_is task_uid) (WorkItem.tasks lead) = true).
  { apply existsb_exists. exists task. split; [|exact Hu].
    rewrite Htasks. apply in_or_app. right. now left. }
  destruct (complete_task_hit now lead_uid task_uid field_values notes
              completed_by w lead values Hl Hex Hv) as (Hcall & Hl').
  eexists. eexists. exists pre, post.
  exists (complete now completed_by notes values task).
  split; [exact Hcall|]. split; [exact Hl'|]. split; [exact Htasks|].
  split; [simpl; apply Hup|]. split; [exact Hpre|].
  split; [simpl; now apply String.eqb_eq|].
  repeat split.
Qed.

Lemma complete_task_completes_first_match_witness :
  exists w' lead' before after done,
    complete_task 25 "L1" "uuid-0" [DemoTask.well_formed] "called" (Some "amy")
      Demo.world_2
    = (Ok true, w')
    /\ get_lead "L1" w' = (Ok (Some lead'), w')
    /\ WorkItem.tasks Demo.lead_2 = before ++ Demo.task_T :: after
    /\ WorkItem.tasks lead' = before ++ done :: after
    /\ existsb (task_uid_is "uuid-0") before = false
    /\ WorkItemTask.uid done = "uuid-0"
    /\ WorkItemTask.status done = TASK_COMPLETED
    /\ WorkItemTask.completed_at done = Some 25
    /\ WorkItemTask.completed_by done = Some "amy"
    /\ WorkItemTask.notes done = "called"
    /\ WorkItemTask.field_values done
       = [FieldValueBase.mk "contact_method" ENUM "email" (VStr "email")]
    /\ WorkItemTask.template_id done = WorkItemTask.template_id Demo.task_T
    /\ WorkItemTask.stage done = WorkItemTask.stage Demo.task_T
    /\ WorkItem.activities lead'
       = WorkItem.activities Demo.lead_2
         ++ [Activity.mk "TASK_COMPLETED" "Task completed" None (Some "amy")
               25 (Some "amy")
               [("task_uid", VStr "uuid-0"); ("notes", VStr "called")]]
    /\ WorkItem.updated_at lead' = 25
    /\ WorkItem.current_stage lead' = WorkItem.current_stage Demo.lead_2
    /\ WorkItem.status lead' = WorkItem.status Demo.lead_2
    /\ WorkItem.history lead' = WorkItem.history Demo.lead_2.
Proof.
  apply (complete_task_completes_first_match 25 "L1" "uuid-0"
           [DemoTask.well_formed] "called" (Some "amy") Demo.world_2
           Demo.lead_2 Demo.task_T).
  - vm_compute. reflexivity.
  - vm_compute. reflexivity.
  - vm_compute. reflexivity.
Defined.

Lemma filter_app_single {A} (p : A -> bool) (pre post : list A) (x : A) :
  List.filter p (pre ++ x :: post) = [x] ->
  List.filter p pre = [] /\ List.filter p post = [] /\ p x = true.
Proof.
  rewrite List.filter_app. simpl. destruct (p x) eqn:Hx.
  - intros H. destruct (List.filter p pre) as [|y pre'].
    + simpl in H. injection H as H. auto.
    + simpl in H. injection H as _ H.
      destruct pre'; discriminate.
  - intros H.
    assert (Hin : In x (List.filter p pre ++ List.filter p post))
      by (rewrite H; now left).
    rewrite <- List.filter_app in Hin. apply filter_In in Hin as [_ Hp]. congruence.
Qed.

(** X11.  Completing the blocking task opens the gate.  Let the lead's
    only task that blocks a transition be the first task with uid
    [task_uid], and let the target be a stored stage among the allowed next
    stages of the lead's stage.  Then the transition raises as things are,
    [complete_task] for that task returns [True], and the same transition
    right after returns [True] as well. *)
Theorem completing_the_blocker_enables_transition
    (t1 t2 : datetime) (lead_uid task_uid new_stage_uid comment notes : string)
    (field_values : list (gmap string value)) (actor : option string)
    (w : World) (lead : WorkItem.t) (task : WorkItemTask.t)
    (current_stage new_stage : WorkStage.t)
    (values : list TaskFieldValue.t) :
  get_lead lead_uid w = (Ok (Some lead), w) ->
  get_stage (WorkItem.current_stage lead) w = (Ok (Some current_stage), w) ->
  get_stage new_stage_uid w = (Ok (Some new_stage), w) ->
  In new_stage_uid (WorkStage.allowed_next_stages current_stage) ->
  List.find (task_uid_is task_uid) (WorkItem.tasks lead) = Some task ->
  List.filter blocks_transition (WorkItem.tasks lead) = [task] ->
  validate_field_values field_values = Ok values ->
  (exists e, transition_stage t2 lead_uid new_stage_uid comment actor w
             = (Raise e, w))
  /\ exists w1 w2,
       complete_task t1 lead_uid task_uid field_values notes actor w
       = (Ok true, w1)
       /\ transition_stage t2 lead_uid new_stage_uid comment actor w1
          = (Ok true, w2).
Proof.
  intros Hl Hc Ht Hedge Hfind Hblock Hv. split.
  - apply (blocked_lead_stays t2 lead_uid new_stage_uid comment actor w lead Hl).
    rewrite Hblock. discriminate.
  - destruct (find_split _ _ _ Hfind)
      as (pre & post & Htasks & Hu & Hpre & Hup & _).
    assert (Hex : existsb (task_uid_is task_uid) (WorkItem.tasks lead) = true).
    { apply existsb_exists. exists task. split; [|exact Hu].
      rewrite Htasks. apply in_or_app. right. now left. }
    destruct (complete_task_hit t1 lead_uid task_uid field_values notes actor
                w lead values Hl Hex Hv) as (Hcall & Hl').
    eexists. eexists. split; [exact Hcall|].
    apply transition_succeeds with (current_stage := current_stage)
                                   (new_stage := new_stage).
    split; [exact Hl'|]. simpl.
    split; [apply get_stage_find; simpl; now apply get_stage_find|].
    split; [apply get_stage_find; simpl; now apply get_stage_find|].
    split; [now apply str_in_In|].
    rewrite Hup. rewrite Htasks in Hblock.
    apply filter_app_single in Hblock as (Hp & Hq & _).
    rewrite List.filter_app. simpl.
    unfold blocks_transition at 2. simpl. rewrite andb_false_r.
    now rewrite Hp, Hq.
Qed.

Lemma completing_the_blocker_witness :
  (exists e, transition_stage 30 "L1" "C" "" None Demo.world_2
             = (Raise e, Demo.world_2))
  /\ exists w1 w2,
       complete_task 25 "L1" "uuid-0" [DemoTask.well_formed] "called" None
         Demo.world_2
       = (Ok true, w1)
       /\ transition_stage 30 "L1" "C" "" None w1 = (Ok true, w2).
Proof.
  apply (completing_the_blocker_enables_transition 25 30 "L1" "uuid-0" "C" ""
           "called" [DemoTask.well_formed] None Demo.world_2 Demo.lead_2
           Demo.task_T Demo.stage_B Demo.stage_C
           [FieldValueBase.mk "contact_method" ENUM "email" (VStr "email")]).
  - vm_compute. reflexivity.
  - vm_compute. reflexivity.
  - vm_compute. reflexivity.
  - left. reflexivity.
  - vm_compute. reflexivity.
  - vm_compute. reflexivity.
  - vm_compute. reflexivity.
Defined.

(** X12.  Completing a task never moves a lead.  Whatever the arguments
    and the outcome, every stored lead keeps its uid, identifier, stage,
    status, history and number of tasks, and the stage catalog is as
    before. *)
Theorem complete_task_never_moves_a_lead
    (now : datetime) (lead_uid task_uid : string)
    (field_values : list (gmap string value)) (notes : string)
    (completed_by : option string) (w : World) :
  let w' := snd (complete_task now lead_uid task_uid field_values notes
                   completed_by w) in
  stages_collection w' = stages_collection w
  /\ map (fun doc => (WorkItem.uid doc, WorkItem.item_id doc,
                      WorkItem.current_stage doc, WorkItem.status doc,
                      WorkItem.history doc, length (WorkItem.tasks doc)))
         (leads_collection w')
     = map (fun doc => (WorkItem.uid doc, WorkItem.item_id doc,
                        WorkItem.current_stage doc, WorkItem.status doc,
                        WorkItem.history doc, length (WorkItem.tasks doc)))
           (leads_collection w).
Proof.
  unfold complete_task, bind, lift, update_one_lead, ret.
  destruct (validate_field_values field_values) as [values|e]; simpl;
    [|split; reflexivity].
  split; [reflexivity|].
  apply map_update_first. intros doc. simpl.
  now rewrite update_first_length.
Qed.

(** ** delete_lead and delete_stage *)

Lemma find_app_none {A} (p : A -> bool) (l l' : list A) :
  List.find p l = None -> List.find p (l ++ l') = List.find p l'.
Proof.
  induction l as [|x l IH]; simpl; [reflexivity|].
  destruct (p x); [discriminate | exact IH].
Qed.

Lemma find_existsb_false {A} (p : A -> bool) (l : list A) :
  existsb p l = false -> List.find p l = None.
Proof.
  induction l as [|x l IH]; simpl; [reflexivity|].
  destruct (p x); [discriminate | exact IH].
Qed.

(** X13.  [delete_lead] removes the first lead stored under the uid and
    nothing else.  Without such a lead it returns [False] and the world is
    unchanged.  With one it returns [True], the leads before and after it
    stay in place, and stages and configs are as before; when no two stored
    leads share a uid, a later [get_lead] for the uid finds nothing. *)
Theorem delete_lead_removes_first_match (uid : string) (w : World) :
  (get_lead uid w = (Ok None, w) -> delete_lead uid w = (Ok false, w))
  /\ (forall lead,
         get_lead uid w = (Ok (Some lead), w) ->
         exists before after,
           leads_collection w = before ++ lead :: after
           /\ existsb (uid_is uid) before = false
           /\ delete_lead uid w = (Ok true, set_leads w (before ++ after))
           /\ (List.NoDup (map WorkItem.uid (leads_collection w)) ->
               get_lead uid (set_leads w (before ++ after))
               = (Ok None, set_leads w (before ++ after)))).
Proof.
  split.
  - intros Hl. apply get_lead_find in Hl.
    pose proof (find_none_existsb _ _ Hl) as Hex.
    unfold delete_lead, matched_count. rewrite Hex.
    rewrite (remove_first_none _ _ Hex). now rewrite set_leads_same.
  - intros lead Hl. apply get_lead_find in Hl.
    destruct (find_split _ _ _ Hl) as (pre & post & Hleads & Hu & Hpre & _ & Hrm).
    exists pre, post. split; [exact Hleads|]. split; [exact Hpre|]. split.
    + unfold delete_lead, matched_count. rewrite Hrm.
      assert (Hex : existsb (uid_is uid) (leads_collection w) = true).
      { apply existsb_exists. exists lead. split; [|exact Hu].
        rewrite Hleads. apply in_or_app. right. now left. }
      now rewrite Hex.
    + intros Hnodup. apply get_lead_find. simpl.
      rewrite (find_app_none _ _ _ (find_existsb_false _ _ Hpre)).
      apply find_existsb_false. apply not_true_is_false. intros Hex.
      apply existsb_exists in Hex as (other & Hin & Hou).
      rewrite Hleads, map_app in Hnodup. simpl in Hnodup.
      apply List.NoDup_remove_2 in Hnodup. apply Hnodup.
      apply in_or_app. right.
      apply String.eqb_eq in Hu, Hou. rewrite Hu, <- Hou.
      now apply in_map.
Qed.

Lemma delete_lead_removes_first_match_witness :
  exists before after,
    leads_collection Demo.world_2 = before ++ Demo.lead_2 :: after
    /\ existsb (uid_is "L1") before = false
    /\ delete_lead "L1" Demo.world_2
       = (Ok true, set_leads Demo.world_2 (before ++ after))
    /\ (List.NoDup (map WorkItem.uid (leads_collection Demo.world_2)) ->
        get_lead "L1" (set_leads Demo.world_2 (before ++ after))
        = (Ok None, set_leads Demo.world_2 (before ++ after))).
Proof.
  apply (proj2 (delete_lead_removes_first_match "L1" Demo.world_2) Demo.lead_2).
  vm_compute. reflexivity.
Defined.

Lemma count_leads_in_pos (uid : string) (leads : list WorkItem.t)
    (lead : WorkItem.t) :
  In lead leads -> WorkItem.current_stage lead = uid ->
  (0 < count_leads_in uid leads)%Z.
Proof.
  intros Hin Hs. unfold count_leads_in.
  assert (Hmem : In lead (List.filter
            (fun doc => String.eqb (WorkItem.current_stage doc) uid) leads)).
  { apply filter_In. split; [exact Hin|]. now apply String.eqb_eq. }
  destruct (List.filter _ leads); [contradiction | simpl; lia].
Qed.

(** X14.  A stage in use is not deleted.  As soon as one stored lead has
    the stage as its [current_stage], [delete_stage] raises "Cannot delete
    stage: <n> leads are currently in this stage", [n] being the number of
    such leads, and leaves the world as it was. *)
Theorem delete_stage_refuses_stage_in_use
    (uid : string) (w : World) (lead : WorkItem.t) :
  In lead (leads_collection w) ->
  WorkItem.current_stage lead = uid ->
  let n := Z.of_nat (length (List.filter
             (fun doc => String.eqb (WorkItem.current_stage doc) uid)
             (leads_collection w))) in
  (1 <= n)%Z
  /\ delete_stage uid w
     = (Raise (ValueError (text ("Cannot delete stage: " +:+ decimal n
                                 +:+ " leads are currently in this stage"))), w).
Proof.
  intros Hin Hs n.
  pose proof (count_leads_in_pos uid _ lead Hin Hs) as Hpos.
  unfold count_leads_in in Hpos. fold n in Hpos.
  split; [lia|].
  unfold delete_stage, count_leads_in. fold n.
  apply Z.ltb_lt in Hpos. now rewrite Hpos.
Qed.

Lemma delete_stage_refuses_stage_in_use_witness :
  delete_stage "B" Demo.world_2
  = (Raise (ValueError
       (text "Cannot delete stage: 1 leads are currently in this stage")),
     Demo.world_2).
Proof.
  apply (proj2 (delete_stage_refuses_stage_in_use "B" Demo.world_2 Demo.lead_2
                  ltac:(left; reflexivity) eq_refl)).
Defined.

Lemma find_remove_first_other {A} (p q : A -> bool) (l : list A) :
  (forall x, q x = true -> p x = false) ->
  List.find p (remove_first q l) = List.find p l.
Proof.
  intros Hqp. induction l as [|x l IH]; simpl; [reflexivity|].
  destruct (q x) eqn:Hq.
  - now rewrite (Hqp x Hq).
  - simpl. now rewrite IH.
Qed.

(** X15.  [delete_stage] never takes a stage from under a lead.  Whatever
    the uid and the outcome, the leads are untouched, and for every stored
    lead [get_stage] of its [current_stage] finds after the call what it
    found before.  When no lead is in the stage, the call returns whether a
    stage with the uid was stored, and the catalog loses the first such
    stage and nothing else. *)
Theorem delete_stage_keeps_leads_resolvable (uid : string) (w : World) :
  let w' := snd (delete_stage uid w) in
  leads_collection w' = leads_collection w
  /\ (forall lead,
         In lead (leads_collection w) ->
         fst (get_stage (WorkItem.current_stage lead) w')
         = fst (get_stage (WorkItem.current_stage lead) w))
  /\ ((forall lead, In lead (leads_collection w) ->
                    WorkItem.current_stage lead <> uid) ->
      delete_stage uid w
      = (Ok (existsb (stage_uid_is uid) (stages_collection w)),
         set_stages w (remove_first (stage_uid_is uid) (stages_collection w)))).
Proof.
  unfold delete_stage.
  destruct (0 <? count_leads_in uid (leads_collection w))%Z eqn:Hcount; simpl.
  - split; [reflexivity|]. split; [reflexivity|].
    intros Hnone. exfalso. apply Z.ltb_lt in Hcount.
    unfold count_leads_in in Hcount.
    destruct (List.filter
                (fun doc => String.eqb (WorkItem.current_stage doc) uid)
                (leads_collection w)) as [|lead rest] eqn:Hf;
      [simpl in Hcount; lia|].
    assert (Hin : In lead (List.filter
              (fun doc => String.eqb (WorkItem.current_stage doc) uid)
              (leads_collection w))) by (rewrite Hf; now left).
    apply filter_In in Hin as [Hin Hs]. apply String.eqb_eq in Hs.
    exact (Hnone lead Hin Hs).
  - split; [reflexivity|]. split.
    + intros lead Hin. f_equal.
      apply find_remove_first_other. intros stage Hq.
      apply String.eqb_eq in Hq. apply String.eqb_neq. intros Heq.
      apply Z.ltb_ge in Hcount.
      pose proof (count_leads_in_pos uid _ lead Hin) as Hpos.
      rewrite <- Heq, Hq in Hpos. specialize (Hpos eq_refl). lia.
    + intros _. unfold matched_count.
      now destruct (existsb (stage_uid_is uid) (stages_collection w)).
Qed.

Lemma delete_stage_keeps_leads_resolvable_witness :
  delete_stage "C" Demo.world_2
  = (Ok true, set_stages Demo.world_2 [Demo.stage_A; Demo.stage_B; Demo.stage_D])
  /\ fst (get_stage "B" (snd (delete_stage "C" Demo.world_2)))
     = Ok (Some Demo.stage_B).
Proof.
  split.
  - apply (proj2 (proj2 (delete_stage_keeps_leads_resolvable "C" Demo.world_2))).
    rewrite world_2_leads. intros lead [<-|[]]. discriminate.
  - refine (eq_trans
              (proj1 (proj2 (delete_stage_keeps_leads_resolvable "C"
                               Demo.world_2)) Demo.lead_2 _) _);
      [rewrite world_2_leads; now left | reflexivity].
Defined.

(** ** add_activity *)

(** X16.  [add_activity] only ever adds to the log.  Without a lead under
    the uid it returns [False] and the world is unchanged.  With one it
    returns [True]; the stored lead keeps its activities and gets the new
    one at the end (description and payload as given, an absent payload
    stored as the empty map, actor in both [performed_by] and
    [created_by]), its [updated_at] is set, and stage, status, history and
    tasks are as before. *)
Theorem add_activity_appends
    (created updated : datetime) (lead_uid activity_type subject description
     : string) (performed_by : option string) (activity_data : option open_map)
    (w : World) :
  let call := add_activity created updated lead_uid activity_type subject
                description performed_by activity_data w in
  (get_lead lead_uid w = (Ok None, w) -> call = (Ok false, w))
  /\ (forall lead,
         get_lead lead_uid w = (Ok (Some lead), w) ->
         exists w' lead',
           call = (Ok true, w')
           /\ get_lead lead_uid w' = (Ok (Some lead'), w')
           /\ WorkItem.activities lead'
              = WorkItem.activities lead
                ++ [Activity.mk activity_type subject (Some description)
                      performed_by created performed_by
                      (match activity_data with Some d => d | None => [] end)]
           /\ WorkItem.updated_at lead' = updated
           /\ WorkItem.current_stage lead' = WorkItem.current_stage lead
           /\ WorkItem.status lead' = WorkItem.status lead
           /\ WorkItem.history lead' = WorkItem.history lead
           /\ WorkItem.tasks lead' = WorkItem.tasks lead).
Proof.
  intros call. unfold call, add_activity, bind, update_one_lead, ret.
  unfold matched_count. split.
  - intros Hl. apply get_lead_find in Hl.
    pose proof (find_none_existsb _ _ Hl) as Hex. rewrite Hex.
    rewrite (update_first_none _ _ _ Hex). now rewrite set_leads_same.
  - intros lead Hl. apply get_lead_find in Hl.
    assert (Hex : existsb (uid_is lead_uid) (leads_collection w) = true).
    { rewrite existsb_find, Hl. reflexivity. }
    rewrite Hex. eexists. eexists. split; [reflexivity|].
    split.
    + apply get_lead_find. simpl.
      rewrite find_update_first by (intros x Hx; exact Hx).
      rewrite Hl. reflexivity.
    + repeat split.
Qed.

Lemma add_activity_appends_witness :
  exists w' lead',
    add_activity 31 32 "L1" "NOTE_ADDED" "Call back" "asked for Friday"
      (Some "amy") None Demo.world_2
    = (Ok true, w')
    /\ get_lead "L1" w' = (Ok (Some lead'), w')
    /\ WorkItem.activities lead'
       = WorkItem.activities Demo.lead_2
         ++ [Activity.mk "NOTE_ADDED" "Call back" (Some "asked for Friday")
               (Some "amy") 31 (Some "amy") []]
    /\ WorkItem.updated_at lead' = 32
    /\ WorkItem.current_stage lead' = WorkItem.current_stage Demo.lead_2
    /\ WorkItem.status lead' = WorkItem.status Demo.lead_2
    /\ WorkItem.history lead' = WorkItem.history Demo.lead_2
    /\ WorkItem.tasks lead' = WorkItem.tasks Demo.lead_2.
Proof.
  apply (proj2 (add_activity_appends 31 32 "L1" "NOTE_ADDED" "Call back"
                  "asked for Friday" (Some "amy") None Demo.world_2)
           Demo.lead_2).
  vm_compute. reflexivity.
Defined.

(** ** get_or_create_config *)

Lemma find_app_last {A} (p : A -> bool) (l : list A) (x : A) :
  List.find p l = None -> p x = true -> List.find p (l ++ [x]) = Some x.
Proof.
  intros Hl Hx. rewrite (find_app_none p l [x] Hl). simpl. now rewrite Hx.
Qed.

(** X17.  [get_or_create_config] creates at most once.  When a config is
    stored under the uid, it is returned and nothing is written.  When none
    is, a config named "Workflow <uid>", active and without variables, is
    appended and returned.  Either way the config returned is the one a
    [get_config] finds afterwards, and calling again, at any later time,
    returns the same config and writes nothing. *)
Theorem get_or_create_config_creates_once
    (created updated : datetime) (uid : string) (w : World) :
  exists config w',
    get_or_create_config created updated uid w = (Ok config, w')
    /\ WorkItemConfig.uid config = uid
    /\ get_config uid w' = (Ok (Some config), w')
    /\ (forall stored, get_config uid w = (Ok (Some stored), w) ->
                       config = stored /\ w' = w)
    /\ (get_config uid w = (Ok None, w) ->
        config = WorkItemConfig.mk uid ("Workflow " +:+ uid) true [] created
                                   updated
        /\ configs_collection w' = configs_collection w ++ [config]
        /\ leads_collection w' = leads_collection w
        /\ stages_collection w' = stages_collection w)
    /\ (forall created' updated',
           get_or_create_config created' updated' uid w' = (Ok config, w')).
Proof.
  unfold get_or_create_config, bind, get_config, insert_config, ret.
  destruct (List.find (config_uid_is uid) (configs_collection w))
    as [stored|] eqn:Hfind.
  - exists stored, w.
    pose proof (find_some _ _ Hfind) as [_ Hu]. apply String.eqb_eq in Hu.
    rewrite Hfind.
    split; [reflexivity|]. split; [exact Hu|]. split; [reflexivity|].
    split; [intros s [= <-]; now split|].
    split; [intros [=]|]. intros; reflexivity.
  - eexists. eexists. split; [reflexivity|]. simpl.
    assert (Hlast : List.find (config_uid_is uid)
              (configs_collection w
               ++ [WorkItemConfig.mk uid ("Workflow " +:+ uid) true [] created
                                     updated])
            = Some (WorkItemConfig.mk uid ("Workflow " +:+ uid) true [] created
                                      updated)).
    { apply find_app_last; [exact Hfind|]. apply String.eqb_refl. }
    rewrite Hlast.
    split; [reflexivity|]. split; [reflexivity|].
    split; [intros s [=]|].
    split; [intros _; repeat split|]. intros; reflexivity.
Qed.

(** ** create_lead *)

(** X18.  A created lead can be read back.  When [create_lead] returns,
    the lead it built is the last of the stored leads, stamped with the time
    of the call in [created_at] and [updated_at] and carrying the uid and
    the identifier of [lead_data] where those were given; the leads stored
    before are all still there, in place.  If no lead was stored under its
    uid before, [get_lead] with that uid now returns it. *)
Theorem created_lead_is_stored
    (year_month : string) (now : datetime) (lead_data : LeadData.t)
    (w w' : World) (lead : WorkItem.t) :
  create_lead year_month now lead_data w = (Ok lead, w') ->
  leads_collection w' = leads_collection w ++ [lead]
  /\ stages_collection w' = stages_collection w
  /\ WorkItem.created_at lead = now
  /\ WorkItem.updated_at lead = now
  /\ WorkItem.current_stage lead = LeadData.current_stage lead_data
  /\ WorkItem.tasks lead = LeadData.tasks lead_data
  /\ (forall uid, LeadData.uid lead_data = Some uid -> WorkItem.uid lead = uid)
  /\ (forall item_id, LeadData.item_id lead_data = Some item_id ->
                      WorkItem.item_id lead = item_id)
  /\ (get_lead (WorkItem.uid lead) w = (Ok None, w) ->
      get_lead (WorkItem.uid lead) w' = (Ok (Some lead), w')).
Proof.
  intros Hcall. unfold create_lead, bind in Hcall.
  destruct (match LeadData.uid lead_data with
            | Some u => ret u
            | None => uuid4
            end w) as [[uid|e] w1] eqn:Huid; [|discriminate].
  assert (Hw1 : leads_collection w1 = leads_collection w
                /\ stages_collection w1 = stages_collection w
                /\ forall u, LeadData.uid lead_data = Some u -> uid = u).
  { destruct (LeadData.uid lead_data); inversion Huid; subst;
      repeat split; congruence. }
  destruct Hw1 as (Hleads1 & Hstages1 & Hgiven).
  destruct (match LeadData.item_id lead_data with
            | Some i => ret i
            | None => fun w0 =>
                (generate_lead_id year_month (leads_collection w0) "LEAD", w0)
            end w1) as [[item_id|e] w2] eqn:Hid; [|discriminate].
  assert (Hw2 : w2 = w1
                /\ forall i, LeadData.item_id lead_data = Some i -> item_id = i).
  { destruct (LeadData.item_id lead_data); inversion Hid; subst;
      split; congruence. }
  destruct Hw2 as (-> & Hgiven_id).
  unfold insert_lead, ret in Hcall.
  inversion Hcall; subst lead w'; clear Hcall.
  cbn [leads_collection stages_collection set_leads WorkItem.uid
       WorkItem.item_id WorkItem.created_at WorkItem.updated_at
       WorkItem.current_stage WorkItem.tasks].
  rewrite Hleads1, Hstages1.
  repeat split; try assumption.
  intros Hnone. apply get_lead_find in Hnone. apply get_lead_find.
  cbn [leads_collection set_leads].
  apply find_app_last; [exact Hnone|].
  apply String.eqb_refl.
Qed.

Lemma created_lead_is_stored_witness :
  leads_collection Demo.world_1 = leads_collection Demo.empty_world ++ [Demo.lead_1]
  /\ stages_collection Demo.world_1 = stages_collection Demo.empty_world
  /\ WorkItem.created_at Demo.lead_1 = 10
  /\ WorkItem.updated_at Demo.lead_1 = 10
  /\ WorkItem.current_stage Demo.lead_1 = "A"
  /\ WorkItem.tasks Demo.lead_1 = []
  /\ (forall uid, Some "L1" = Some uid -> WorkItem.uid Demo.lead_1 = uid)
  /\ (forall item_id, None = Some item_id ->
                      WorkItem.item_id Demo.lead_1 = item_id)
  /\ (get_lead (WorkItem.uid Demo.lead_1) Demo.empty_world
      = (Ok None, Demo.empty_world) ->
      get_lead (WorkItem.uid Demo.lead_1) Demo.world_1
      = (Ok (Some Demo.lead_1), Demo.world_1)).
Proof.
  apply (created_lead_is_stored "202611" 10 (Demo.lead_data "L1" "A")
           Demo.empty_world Demo.world_1 Demo.lead_1).
  vm_compute. reflexivity.
Defined.

(** ** Decimal strings *)

Lemma digit_of_range (c : ascii) (d : Z) :
  digit_of c = Some d ->
  (0 <= d <= 9)%Z /\ Z.of_N (N_of_ascii c) = (d + 48)%Z.
Proof.
  unfold digit_of, nat_of_ascii.
  destruct ((48 <=? N.to_nat (N_of_ascii c))%nat
            && (N.to_nat (N_of_ascii c) <=? 57)%nat) eqn:Hr; [|discriminate].
  intros [= <-]. apply andb_true_iff in Hr as [Hlo Hhi].
  apply Nat.leb_le in Hlo, Hhi. rewrite <- N_nat_Z. lia.
Qed.

Lemma digit_not_space (c : ascii) (d : Z) :
  digit_of c = Some d -> is_space c = false /\ c <> "-"%char /\ c <> "_"%char.
Proof.
  intros Hd. destruct (digit_of_range c d Hd) as [Hr Hn].
  split; [|split].
  - unfold is_space, nat_of_ascii. rewrite <- N_nat_Z in Hn.
    apply orb_false_iff. split.
    + apply andb_false_iff. right. apply Nat.leb_gt. lia.
    + apply Nat.eqb_neq. lia.
  - intros ->. change (Z.of_N (N_of_ascii "-")) with 45%Z in Hn. lia.
  - intros ->. change (Z.of_N (N_of_ascii "_")) with 95%Z in Hn. lia.
Qed.

Lemma digit_of_zero : digit_of "0" = Some 0%Z.
Proof. reflexivity. Qed.

Lemma lstrip_digits (c : ascii) (s : string) (d : Z) :
  digit_of c = Some d -> lstrip (String c s) = String c s.
Proof.
  intros Hd. simpl. now rewrite (proj1 (digit_not_space c d Hd)).
Qed.

Lemma rstrip_digits (s : string) :
  all_digits s = true -> rstrip s = s.
Proof.
  induction s as [|c s IH]; simpl; [reflexivity|].
  destruct (digit_of c) as [d|] eqn:Hd; [|discriminate].
  intros Hs. rewrite (IH Hs).
  destruct s; [|reflexivity].
  now rewrite (proj1 (digit_not_space c d Hd)).
Qed.

Lemma all_digits_app (s t : string) :
  all_digits s = true -> all_digits t = true -> all_digits (s +:+ t) = true.
Proof.
  induction s as [|c s IH]; simpl; [auto|].
  destruct (digit_of c); [exact IH | discriminate].
Qed.

Lemma parse_all_digits (s : string) :
  all_digits s = true ->
  forall seen acc,
    seen = true \/ s <> "" ->
    parse_digits seen acc s = Some (digits_value s acc).
Proof.
  induction s as [|c s IH]; simpl; intros Hs seen acc Hne.
  - destruct Hne as [->|Hne]; [reflexivity | contradiction].
  - destruct (digit_of c) as [d|]; [|discriminate].
    apply IH; [exact Hs | now left].
Qed.

Lemma digits_value_acc (s : string) (acc : Z) :
  digits_value s acc
  = (acc * 10 ^ Z.of_nat (String.length s) + digits_value s 0)%Z.
Proof.
  revert acc. induction s as [|c s IH]; intros acc; simpl String.length.
  - simpl. lia.
  - simpl digits_value. destruct (digit_of c) as [d|].
    + rewrite (IH (10 * acc + d)%Z), (IH (10 * 0 + d)%Z).
      rewrite Nat2Z.inj_succ, Z.pow_succ_r by lia. ring.
    + rewrite (IH (10 * acc + 0)%Z), (IH (10 * 0 + 0)%Z).
      rewrite Nat2Z.inj_succ, Z.pow_succ_r by lia. ring.
Qed.

Lemma digits_value_bound (s : string) :
  all_digits s = true ->
  (0 <= digits_value s 0 < 10 ^ Z.of_nat (String.length s))%Z.
Proof.
  induction s as [|c s IH]; simpl String.length; simpl all_digits.
  - intros _. simpl. lia.
  - destruct (digit_of c) as [d|] eqn:Hd; [|discriminate].
    intros Hs. specialize (IH Hs). simpl digits_value. rewrite Hd.
    rewrite digits_value_acc.
    destruct (digit_of_range c d Hd) as [Hr _].
    rewrite Nat2Z.inj_succ, Z.pow_succ_r by lia. nia.
Qed.

Lemma string_of_uint_digits (d : Decimal.uint) :
  all_digits (NilEmpty.string_of_uint d) = true.
Proof. induction d; simpl; auto. Qed.

Lemma value_of_uint_acc (d : Decimal.uint) (acc : positive) :
  digits_value (NilEmpty.string_of_uint d) (Z.pos acc)
  = Z.pos (Pos.of_uint_acc d acc).
Proof.
  revert acc. induction d; intros acc; simpl NilEmpty.string_of_uint;
    simpl Pos.of_uint_acc; [reflexivity|..];
    cbn [digits_value]; rewrite <- IHd; f_equal;
    match goal with |- context [digit_of ?c] =>
      change (digit_of c) with (Some (Z.of_N (N_of_ascii c) - 48)%Z)
    end; cbn [N_of_ascii]; simpl; lia.
Qed.

Lemma value_of_uint (d : Decimal.uint) :
  digits_value (NilEmpty.string_of_uint d) 0 = Z.of_N (Pos.of_uint d).
Proof.
  induction d; simpl NilEmpty.string_of_uint; simpl Pos.of_uint;
    [reflexivity | exact IHd | ..];
    cbn [digits_value Z.of_N]; rewrite <- value_of_uint_acc; f_equal.
Qed.

Lemma to_uint_nonnil (n : N) : N.to_uint n <> Decimal.Nil.
Proof.
  destruct n as [|p]; [discriminate|].
  apply DecimalPos.Unsigned.to_uint_nonnil.
Qed.

Lemma decimal_NilEmpty (n : Z) :
  decimal n = NilEmpty.string_of_uint (N.to_uint (Z.to_N n)).
Proof.
  unfold decimal, NilZero.string_of_uint.
  pose proof (to_uint_nonnil (Z.to_N n)) as Hne.
  destruct (N.to_uint (Z.to_N n)); [contradiction|..]; reflexivity.
Qed.

Lemma decimal_digits (n : Z) : all_digits (decimal n) = true.
Proof. rewrite decimal_NilEmpty. apply string_of_uint_digits. Qed.

Lemma decimal_nonempty (n : Z) : decimal n <> "".
Proof.
  rewrite decimal_NilEmpty.
  pose proof (to_uint_nonnil (Z.to_N n)) as Hne.
  destruct (N.to_uint (Z.to_N n)); [contradiction|..]; discriminate.
Qed.

Lemma decimal_value (n : Z) :
  (0 <= n)%Z -> digits_value (decimal n) 0 = n.
Proof.
  intros Hn. rewrite decimal_NilEmpty, value_of_uint.
  change (Pos.of_uint (N.to_uint (Z.to_N n)))
    with (N.of_uint (N.to_uint (Z.to_N n))).
  rewrite DecimalN.Unsigned.of_to. now apply Z2N.id.
Qed.

Lemma zeros_digits (k : nat) : all_digits (zeros k) = true.
Proof. induction k; simpl; auto. Qed.

Lemma zeros_length (k : nat) : String.length (zeros k) = k.
Proof. induction k; simpl; auto. Qed.

Lemma zeros_value (k : nat) (s : string) :
  digits_value (zeros k +:+ s) 0 = digits_value s 0.
Proof. induction k; simpl; auto. Qed.

Lemma length_append (s t : string) :
  String.length (s +:+ t) = (String.length s + String.length t)%nat.
Proof. induction s; simpl; auto. Qed.

(** Where the padding has room: the shape of [format_05d] on the naturals. *)
Lemma format_05d_nonneg (n : Z) :
  (0 <= n)%Z ->
  format_05d n = zeros (5 - String.length (decimal n)) +:+ decimal n
  /\ all_digits (format_05d n) = true
  /\ digits_value (format_05d n) 0 = n
  /\ format_05d n <> "".
Proof.
  intros Hn. unfold format_05d.
  destruct (n <? 0)%Z eqn:Hneg; [apply Z.ltb_lt in Hneg; lia|].
  split; [reflexivity|]. split; [|split].
  - apply all_digits_app; [apply zeros_digits | apply decimal_digits].
  - rewrite zeros_value. now apply decimal_value.
  - intros He. apply (f_equal String.length) in He.
    rewrite length_append in He. simpl in He.
    pose proof (decimal_nonempty n) as Hd.
    destruct (decimal n); [contradiction | simpl in He; lia].
Qed.

Lemma int_of_str_digits (s : string) :
  all_digits s = true -> s <> "" -> int_of_str s = Ok (digits_value s 0).
Proof.
  intros Hs Hne. destruct s as [|c s']; [contradiction|].
  pose proof Hs as Hc. simpl in Hc.
  destruct (digit_of c) as [d|] eqn:Hd; [|discriminate].
  unfold int_of_str.
  rewrite (lstrip_digits c s' d Hd), (rstrip_digits _ Hs).
  assert (Hbody :
    match String c s' with
    | String "-" rest => option_map Z.opp (parse_digits false 0 rest)
    | String "+" rest => parse_digits false 0 rest
    | _ => parse_digits false 0 (String c s')
    end = parse_digits false 0 (String c s')).
  { destruct c as [[] [] [] [] [] [] [] []]; try reflexivity;
      vm_compute in Hd; discriminate. }
  rewrite Hbody, (parse_all_digits _ Hs false 0%Z) by (right; discriminate).
  reflexivity.
Qed.

Lemma int_of_str_format_05d_nonneg (n : Z) :
  (0 <= n)%Z -> int_of_str (format_05d n) = Ok n.
Proof.
  intros Hn. destruct (format_05d_nonneg n Hn) as (_ & Hd & Hv & Hne).
  now rewrite (int_of_str_digits _ Hd Hne), Hv.
Qed.

Lemma to_uint_normal (n : N) :
  Decimal.unorm (N.to_uint n) = N.to_uint n.
Proof.
  rewrite <- DecimalN.Unsigned.to_of. now rewrite DecimalN.Unsigned.of_to.
Qed.

(** A normal numeral other than zero starts with a digit from 1 to 9. *)
Lemma normal_head (d : Decimal.uint) :
  Decimal.unorm d = d -> d <> Decimal.zero -> d <> Decimal.Nil ->
  exists c s x,
    NilEmpty.string_of_uint d = String c s
    /\ digit_of c = Some x /\ (1 <= x)%Z.
Proof.
  intros Hnorm Hz Hnil. destruct d as [|d|d|d|d|d|d|d|d|d|d].
  - contradiction.
  - exfalso. rewrite DecimalFacts.unorm_D0 in Hnorm.
    destruct (Decimal.uint_eq_dec d Decimal.Nil) as [->|Hd].
    + now apply Hz.
    + pose proof (DecimalFacts.nb_digits_unorm d Hd) as Hlen.
      rewrite Hnorm in Hlen. simpl in Hlen. lia.
  - exists "1"%char, (NilEmpty.string_of_uint d), 1%Z. now repeat split.
  - exists "2"%char, (NilEmpty.string_of_uint d), 2%Z. now repeat split.
  - exists "3"%char, (NilEmpty.string_of_uint d), 3%Z. now repeat split.
  - exists "4"%char, (NilEmpty.string_of_uint d), 4%Z. now repeat split.
  - exists "5"%char, (NilEmpty.string_of_uint d), 5%Z. now repeat split.
  - exists "6"%char, (NilEmpty.string_of_uint d), 6%Z. now repeat split.
  - exists "7"%char, (NilEmpty.string_of_uint d), 7%Z. now repeat split.
  - exists "8"%char, (NilEmpty.string_of_uint d), 8%Z. now repeat split.
  - exists "9"%char, (NilEmpty.string_of_uint d), 9%Z. now repeat split.
Qed.

Lemma decimal_length (n : Z) :
  (0 <= n < 100000)%Z -> (String.length (decimal n) <= 5)%nat.
Proof.
  intros [Hlo Hhi].
  destruct (Z.eq_dec n 0) as [->|Hn0]; [vm_compute; lia|].
  pose proof (decimal_value n Hlo) as Hv.
  pose proof (decimal_digits n) as Hd.
  rewrite decimal_NilEmpty in *.
  destruct (normal_head (N.to_uint (Z.to_N n)) (to_uint_normal _))
    as (c & s & x & Hs & Hc & Hx).
  - destruct (Z.to_N n) as [|p] eqn:Hp; [lia|].
    apply DecimalPos.Unsigned.to_uint_nonzero.
  - apply to_uint_nonnil.
  - rewrite Hs in *. simpl in Hd. rewrite Hc in Hd.
    simpl digits_value in Hv. rewrite Hc, digits_value_acc in Hv.
    pose proof (digits_value_bound s Hd) as Hb.
    simpl String.length.
    destruct (Nat.le_gt_cases (String.length s) 4) as [Hle|Hgt]; [lia|].
    exfalso.
    assert (Hpow : (10 ^ 5 <= 10 ^ Z.of_nat (String.length s))%Z)
      by (apply Z.pow_le_mono_r; lia).
    change (10 ^ 5)%Z with 100000%Z in Hpow. nia.
Qed.

Lemma format_05d_length (n : Z) :
  (0 <= n <= 99999)%Z -> String.length (format_05d n) = 5%nat.
Proof.
  intros Hn. destruct (format_05d_nonneg n (proj1 Hn)) as (-> & _).
  rewrite length_append, zeros_length.
  pose proof (decimal_length n ltac:(lia)). lia.
Qed.

(** Digit strings of one length sort like the numbers they write. *)
Lemma compare_digits (s t : string) :
  all_digits s = true -> all_digits t = true ->
  String.length s = String.length t ->
  String.compare s t = (digits_value s 0 ?= digits_value t 0)%Z.
Proof.
  revert t. induction s as [|c s IH]; intros [|c' t] Hs Ht Hlen;
    try discriminate; [reflexivity|].
  simpl in Hs, Ht, Hlen. injection Hlen as Hlen.
  destruct (digit_of c) as [x|] eqn:Hx; [|discriminate].
  destruct (digit_of c') as [y|] eqn:Hy; [|discriminate].
  destruct (digit_of_range c x Hx) as [Hrx Hnx].
  destruct (digit_of_range c' y Hy) as [Hry Hny].
  pose proof (digits_value_bound s Hs) as Hbs.
  pose proof (digits_value_bound t Ht) as Hbt.
  simpl String.compare. simpl digits_value. rewrite Hx, Hy.
  rewrite (digits_value_acc s), (digits_value_acc t), <- Hlen.
  set (P := (10 ^ Z.of_nat (String.length s))%Z) in *.
  rewrite <- Hlen in Hbt. fold P in Hbt.
  unfold Ascii.compare. rewrite <- N2Z.inj_compare, Hnx, Hny.
  destruct (Z.compare_spec (x + 48) (y + 48)) as [Heq|Hlt|Hgt].
  - assert (x = y) as -> by lia. rewrite (IH t Hs Ht Hlen).
    destruct (Z.compare_spec (digits_value s 0) (digits_value t 0));
      symmetry; [apply Z.compare_eq_iff | apply Z.compare_lt_iff
                | apply Z.compare_gt_iff]; nia.
  - symmetry. apply Z.compare_lt_iff. nia.
  - symmetry. apply Z.compare_gt_iff. nia.
Qed.

Lemma compare_common_prefix (p a b : string) :
  String.compare (p +:+ a) (p +:+ b) = String.compare a b.
Proof.
  induction p as [|c p IH]; simpl; [reflexivity|].
  unfold Ascii.compare. now rewrite N.compare_refl.
Qed.

(** The identifiers of one month, up to 99999, sort like their numbers. *)
Lemma ltb_formatted (pattern : string) (a b : Z) :
  (0 <= a <= 99999)%Z -> (0 <= b <= 99999)%Z ->
  String.ltb (pattern +:+ format_05d a) (pattern +:+ format_05d b)
  = (a <? b)%Z.
Proof.
  intros Ha Hb. unfold String.ltb. rewrite compare_common_prefix.
  destruct (format_05d_nonneg a (proj1 Ha)) as (_ & Hda & Hva & _).
  destruct (format_05d_nonneg b (proj1 Hb)) as (_ & Hdb & Hvb & _).
  rewrite (compare_digits _ _ Hda Hdb), Hva, Hvb
    by (now rewrite !format_05d_length).
  unfold Z.ltb. now destruct (a ?= b)%Z.
Qed.

(** ** generate_lead_id below the limit *)

Lemma append_cons (c : ascii) (a b : string) :
  String c a +:+ b = String c (a +:+ b).
Proof. reflexivity. Qed.

Lemma append_nil (b : string) : "" +:+ b = b.
Proof. reflexivity. Qed.

Lemma append_assoc (a b c : string) : (a +:+ b) +:+ c = a +:+ (b +:+ c).
Proof.
  induction a as [|x a IH]; [reflexivity|].
  rewrite !append_cons. now rewrite IH.
Qed.

Lemma append_inj_l (p a b : string) : p +:+ a = p +:+ b -> a = b.
Proof.
  induction p as [|x p IH]; [rewrite !append_nil; auto|].
  rewrite !append_cons. intros [= H]. auto.
Qed.

Lemma startswith_append (p s : string) : startswith p (p +:+ s) = true.
Proof.
  induction p as [|x p IH]; [reflexivity|].
  rewrite append_cons. simpl. now rewrite Ascii.eqb_refl.
Qed.

Lemma startswith_split (p s : string) :
  startswith p s = true -> exists t, s = p +:+ t.
Proof.
  revert s. induction p as [|x p IH]; intros s; simpl.
  - intros _. now exists s.
  - destruct s as [|y s]; [discriminate|].
    intros H. apply andb_true_iff in H as [Hxy Hp].
    apply Ascii.eqb_eq in Hxy as ->.
    destruct (IH s Hp) as (t & ->). now exists t.
Qed.

Lemma split_nonempty (sep : ascii) (s : string) : split sep s <> [].
Proof.
  destruct s as [|c s]; simpl; [discriminate|].
  destruct (Ascii.eqb c sep); [discriminate|].
  destruct (split sep s); discriminate.
Qed.

Lemma last_cons {A} (x : A) (l : list A) (d : A) :
  l <> [] -> List.last (x :: l) d = List.last l d.
Proof. destruct l; [contradiction | reflexivity]. Qed.

Lemma split_two (sep : ascii) (x t : string) :
  exists p q rest, split sep (x +:+ String sep t) = p :: q :: rest.
Proof.
  induction x as [|c x IH].
  - rewrite append_nil. simpl. rewrite Ascii.eqb_refl.
    destruct (split sep t) as [|q rest] eqn:Hs;
      [now apply split_nonempty in Hs|].
    now exists "", q, rest.
  - rewrite append_cons. simpl. destruct IH as (p & q & rest & ->).
    destruct (Ascii.eqb c sep); eexists; eexists; eexists; reflexivity.
Qed.

(** The segment after the last separator. *)
Lemma last_split_append (sep : ascii) (x t d : string) :
  List.last (split sep (x +:+ String sep t)) d = List.last (split sep t) d.
Proof.
  induction x as [|c x IH].
  - rewrite append_nil. simpl. rewrite Ascii.eqb_refl.
    apply last_cons, split_nonempty.
  - rewrite append_cons. simpl.
    destruct (split_two sep x t) as (p & q & rest & Hs).
    destruct (Ascii.eqb c sep).
    + rewrite last_cons by apply split_nonempty. exact IH.
    + rewrite Hs in *. exact IH.
Qed.

Lemma split_digits (s : string) :
  all_digits s = true -> split "-" s = [s].
Proof.
  induction s as [|c s IH]; simpl; [reflexivity|].
  destruct (digit_of c) as [d|] eqn:Hd; [|discriminate].
  intros Hs. rewrite (IH Hs).
  destruct (digit_not_space c d Hd) as (_ & Hm & _).
  apply Ascii.eqb_neq in Hm. now rewrite Hm.
Qed.

(** The number the generator reads off an identifier it wrote. *)
Lemma last_num_of_generated (prefix year_month : string) (k : Z) :
  (0 <= k)%Z ->
  int_of_str (List.last
    (split "-" ((prefix +:+ "-" +:+ year_month +:+ "-") +:+ format_05d k)) "")
  = Ok k.
Proof.
  intros Hk.
  replace ((prefix +:+ "-" +:+ year_month +:+ "-") +:+ format_05d k)
    with ((prefix +:+ "-" +:+ year_month) +:+ String "-" (format_05d k)).
  2:{ now rewrite !append_assoc. }
  rewrite last_split_append.
  destruct (format_05d_nonneg k Hk) as (_ & Hd & _).
  rewrite (split_digits _ Hd). simpl. now apply int_of_str_format_05d_nonneg.
Qed.

Lemma find_last_lead_none (pattern : string) (collection : list WorkItem.t) :
  (forall doc, In doc collection ->
               startswith pattern (WorkItem.item_id doc) = false) ->
  find_last_lead pattern collection = None.
Proof.
  induction collection as [|doc rest IH]; intros Hnone; simpl; [reflexivity|].
  rewrite (Hnone doc (or_introl eq_refl)).
  apply IH. intros d Hd. apply Hnone. now right.
Qed.

(** X20.  The first identifier of a month, for the prefix "LEAD" the
    service generates with and a month written in digits, as
    [strftime("%Y%m")] writes it.  When no stored [item_id] starts with
    "LEAD-<YYYYMM>-", whatever else the collection holds, the generator
    returns "LEAD-<YYYYMM>-00001". *)
Theorem first_id_of_the_month
    (year_month : string) (collection : list WorkItem.t) :
  all_digits year_month = true ->
  (forall doc, In doc collection ->
               startswith ("LEAD" +:+ "-" +:+ year_month +:+ "-")
                          (WorkItem.item_id doc) = false) ->
  generate_lead_id year_month collection "LEAD"
  = Ok ("LEAD" +:+ "-" +:+ year_month +:+ "-00001").
Proof.
  intros _ Hnone. unfold generate_lead_id.
  rewrite (find_last_lead_none _ _ Hnone).
  change (format_05d 1) with "00001".
  now rewrite !append_assoc.
Qed.

Lemma first_id_of_the_month_witness :
  generate_lead_id "202612" [DemoIds.lead_99998] "LEAD"
  = Ok "LEAD-202612-00001".
Proof.
  apply (first_id_of_the_month "202612" [DemoIds.lead_99998]).
  - reflexivity.
  - intros doc [<-|[]]. vm_compute. reflexivity.
Defined.

Lemma format_05d_inj (pattern : string) (a b : Z) :
  (0 <= a)%Z -> (0 <= b)%Z ->
  pattern +:+ format_05d a = pattern +:+ format_05d b -> a = b.
Proof.
  intros Ha Hb Heq. apply append_inj_l in Heq.
  destruct (format_05d_nonneg a Ha) as (_ & _ & <- & _).
  destruct (format_05d_nonneg b Hb) as (_ & _ & <- & _).
  now rewrite Heq.
Qed.

(** The document the query returns carries the greatest number. *)
Lemma find_last_lead_max (pattern : string) (collection : list WorkItem.t) :
  month_numbered pattern 99999 collection ->
  (find_last_lead pattern collection = None
   /\ forall doc, In doc collection ->
                  startswith pattern (WorkItem.item_id doc) = false)
  \/ exists best top,
       find_last_lead pattern collection = Some best
       /\ In best collection
       /\ (1 <= top <= 99999)%Z
       /\ WorkItem.item_id best = pattern +:+ format_05d top
       /\ forall doc k, In doc collection -> (0 <= k)%Z ->
                        WorkItem.item_id doc = pattern +:+ format_05d k ->
                        (k <= top)%Z.
Proof.
  induction collection as [|doc rest IH]; intros Hnum.
  - left. split; [reflexivity | intros doc []].
  - assert (Hrest : month_numbered pattern 99999 rest).
    { intros d Hd. apply Hnum. now right. }
    specialize (IH Hrest). simpl.
    destruct (startswith pattern (WorkItem.item_id doc)) eqn:Hpre.
    + right. destruct (Hnum doc (or_introl eq_refl) Hpre) as (k & Hk & Hid).
      destruct IH as [[Hnone Hno]|(best & top & Hbest & Hin & Htop & Hbid & Hmax)].
      * rewrite Hnone. exists doc, k.
        split; [reflexivity|]. split; [now left|]. split; [exact Hk|].
        split; [exact Hid|].
        intros d j [<-|Hd] Hj Hdid.
        -- rewrite Hid in Hdid.
           apply format_05d_inj in Hdid; [lia | lia | exact Hj].
        -- specialize (Hno d Hd). rewrite Hdid, startswith_append in Hno.
           discriminate.
      * rewrite Hbest, Hid, Hbid, ltb_formatted by lia.
        destruct (k <? top)%Z eqn:Hlt.
        -- apply Z.ltb_lt in Hlt. exists best, top.
           split; [reflexivity|]. split; [now right|]. split; [exact Htop|].
           split; [exact Hbid|].
           intros d j [<-|Hd] Hj Hdid.
           ++ rewrite Hid in Hdid.
              apply format_05d_inj in Hdid; [lia | lia | exact Hj].
           ++ exact (Hmax d j Hd Hj Hdid).
        -- apply Z.ltb_ge in Hlt. exists doc, k.
           split; [reflexivity|]. split; [now left|]. split; [exact Hk|].
           split; [exact Hid|].
           intros d j [<-|Hd] Hj Hdid.
           ++ rewrite Hid in Hdid.
              apply format_05d_inj in Hdid; [lia | lia | exact Hj].
           ++ pose proof (Hmax d j Hd Hj Hdid). lia.
    + destruct IH as [[Hnone Hno]|(best & top & Hbest & Hin & Htop & Hbid & Hmax)].
      * left. split; [exact Hnone|].
        intros d [<-|Hd]; [exact Hpre | now apply Hno].
      * right. exists best, top.
        split; [exact Hbest|]. split; [now right|]. split; [exact Htop|].
        split; [exact Hbid|].
        intros d j [<-|Hd] Hj Hdid.
        -- rewrite Hdid, startswith_append in Hpre. discriminate.
        -- exact (Hmax d j Hd Hj Hdid).
Qed.

(** The generator returns the number after the greatest one stored. *)
Lemma generate_lead_id_next
    (year_month prefix : string) (collection : list WorkItem.t) :
  let pattern := prefix +:+ "-" +:+ year_month +:+ "-" in
  month_numbered pattern 99998 collection ->
  exists n,
    (1 <= n <= 99999)%Z
    /\ generate_lead_id year_month collection prefix
       = Ok (pattern +:+ format_05d n)
    /\ (forall doc k, In doc collection -> (0 <= k)%Z ->
                      WorkItem.item_id doc = pattern +:+ format_05d k ->
                      (k < n)%Z)
    /\ (n = 1%Z
        \/ exists doc, In doc collection
                       /\ WorkItem.item_id doc = pattern +:+ format_05d (n - 1)).
Proof.
  intros pattern Hnum.
  assert (Hnum' : month_numbered pattern 99999 collection).
  { intros doc Hin Hpre. destruct (Hnum doc Hin Hpre) as (k & Hk & Hid).
    exists k. split; [lia | exact Hid]. }
  unfold generate_lead_id. fold pattern.
  destruct (find_last_lead_max pattern collection Hnum')
    as [[Hnone Hno]|(best & top & Hbest & Hin & Htop & Hbid & Hmax)].
  - rewrite Hnone. exists 1%Z.
    split; [lia|]. split; [reflexivity|]. split; [|now left].
    intros doc k Hd _ Hid. specialize (Hno doc Hd).
    rewrite Hid, startswith_append in Hno. discriminate.
  - rewrite Hbest, Hbid.
    unfold pattern at 1. rewrite last_num_of_generated by lia.
    assert (Htop' : (top <= 99998)%Z).
    { destruct (Hnum best Hin) as (k & Hk & Hid).
      - rewrite Hbid. apply startswith_append.
      - rewrite Hbid in Hid. apply format_05d_inj in Hid; lia. }
    exists (top + 1)%Z.
    split; [lia|]. split; [reflexivity|]. split.
    + intros doc k Hd Hk Hid. pose proof (Hmax doc k Hd Hk Hid). lia.
    + right. exists best. split; [exact Hin|].
      now replace (top + 1 - 1)%Z with top by lia.
Qed.

(** X21.  Below the limit the generator counts correctly, for the prefix
    "LEAD" the service generates with and a month written in digits.  Let
    every stored identifier that starts with "LEAD-<YYYYMM>-" be that
    pattern followed by the five-digit form of a number from 1 to 99998, as
    the generator writes them.  Then the generator returns the pattern
    followed by the five-digit form of [n], one more than the greatest
    number stored for the month (1 when there is none).  That identifier is
    borne by no stored lead, and it sorts after every stored identifier of
    the month in the order the query uses. *)
Theorem generated_id_is_next_and_fresh
    (year_month : string) (collection : list WorkItem.t) :
  let pattern := "LEAD" +:+ "-" +:+ year_month +:+ "-" in
  all_digits year_month = true ->
  month_numbered pattern 99998 collection ->
  exists n,
    (1 <= n <= 99999)%Z
    /\ generate_lead_id year_month collection "LEAD"
       = Ok (pattern +:+ format_05d n)
    /\ (forall doc, In doc collection ->
                    WorkItem.item_id doc <> pattern +:+ format_05d n)
    /\ (forall doc, In doc collection ->
                    startswith pattern (WorkItem.item_id doc) = true ->
                    String.ltb (WorkItem.item_id doc)
                               (pattern +:+ format_05d n) = true)
    /\ (forall doc k, In doc collection -> (0 <= k)%Z ->
                      WorkItem.item_id doc = pattern +:+ format_05d k ->
                      (k < n)%Z)
    /\ (n = 1%Z
        \/ exists doc, In doc collection
                       /\ WorkItem.item_id doc = pattern +:+ format_05d (n - 1)).
Proof.
  intros pattern _ Hnum.
  destruct (generate_lead_id_next year_month "LEAD" collection Hnum)
    as (n & Hn & Hgen & Hbelow & Hprev).
  fold pattern in Hgen, Hbelow, Hprev.
  exists n. split; [exact Hn|]. split; [exact Hgen|].
  split; [|split; [|split; [exact Hbelow | exact Hprev]]].
  - intros doc Hin Heq.
    specialize (Hbelow doc n Hin ltac:(lia) Heq). lia.
  - intros doc Hin Hpre. destruct (Hnum doc Hin Hpre) as (k & Hk & Hid).
    rewrite Hid, ltb_formatted by lia. apply Z.ltb_lt.
    exact (Hbelow doc k Hin ltac:(lia) Hid).
Qed.

(** ** Sequential creations within a month *)

Lemma generate_after (year_month prefix : string) (top : Z)
    (collection : list WorkItem.t) :
  (0 <= top <= 99998)%Z ->
  numbered_up_to (prefix +:+ "-" +:+ year_month +:+ "-") top collection ->
  generate_lead_id year_month collection prefix
  = Ok ((prefix +:+ "-" +:+ year_month +:+ "-") +:+ format_05d (top + 1)).
Proof.
  intros Htop [Hnum Hlast].
  set (pattern := prefix +:+ "-" +:+ year_month +:+ "-") in *.
  assert (Hnum' : month_numbered pattern 99998 collection).
  { intros doc Hin Hpre. destruct (Hnum doc Hin Hpre) as (k & Hk & Hid).
    exists k. split; [lia | exact Hid]. }
  destruct (generate_lead_id_next year_month prefix collection Hnum')
    as (n & Hn & Hgen & Hbelow & Hprev).
  fold pattern in Hgen, Hbelow, Hprev.
  assert (n = top + 1)%Z as ->; [|exact Hgen].
  assert (Hle : (n <= top + 1)%Z).
  { destruct Hprev as [->|(doc & Hin & Hid)]; [lia|].
    destruct (Hnum doc Hin) as (k & Hk & Hid').
    - rewrite Hid. apply startswith_append.
    - rewrite Hid in Hid'. apply format_05d_inj in Hid'; lia. }
  destruct Hlast as [->|(doc & Hin & Hid)]; [lia|].
  pose proof (Hbelow doc top Hin ltac:(lia) Hid). lia.
Qed.

Lemma create_lead_generated (year_month : string) (now : datetime)
    (lead_data : LeadData.t) (w : World) (item_id : string) :
  LeadData.item_id lead_data = None ->
  generate_lead_id year_month (leads_collection w) "LEAD" = Ok item_id ->
  exists lead w',
    create_lead year_month now lead_data w = (Ok lead, w')
    /\ WorkItem.item_id lead = item_id
    /\ leads_collection w' = leads_collection w ++ [lead].
Proof.
  intros Hnone Hgen. unfold create_lead, bind. rewrite Hnone.
  destruct (LeadData.uid lead_data) as [uid|]; unfold ret, uuid4, insert_lead;
    simpl; rewrite Hgen; eexists; eexists;
    (split; [reflexivity|]); split; reflexivity.
Qed.

Lemma numbered_up_to_next (pattern : string) (top : Z)
    (collection : list WorkItem.t) (lead : WorkItem.t) :
  (0 <= top)%Z ->
  numbered_up_to pattern top collection ->
  WorkItem.item_id lead = pattern +:+ format_05d (top + 1) ->
  numbered_up_to pattern (top + 1) (collection ++ [lead]).
Proof.
  intros Htop [Hnum _] Hid. split.
  - intros doc Hin Hpre. apply in_app_or in Hin as [Hin|[<-|[]]].
    + destruct (Hnum doc Hin Hpre) as (k & Hk & Hdid).
      exists k. split; [lia | exact Hdid].
    + exists (top + 1)%Z. split; [lia | exact Hid].
  - right. exists lead. split; [|exact Hid].
    apply in_or_app. right. now left.
Qed.

Lemma create_leads_numbered (year_month : string)
    (requests : list (datetime * LeadData.t)) :
  forall (top : Z) (w : World),
    (0 <= top)%Z ->
    (top + Z.of_nat (length requests) <= 99999)%Z ->
    numbered_up_to ("LEAD" +:+ "-" +:+ year_month +:+ "-") top
                   (leads_collection w) ->
    (forall r, In r requests -> LeadData.item_id (snd r) = None) ->
    exists leads w',
      create_leads year_month requests w = (Ok leads, w')
      /\ map WorkItem.item_id leads
         = map (fun i => ("LEAD" +:+ "-" +:+ year_month +:+ "-")
                         +:+ format_05d (top + Z.of_nat i))
               (seq 1 (length requests))
      /\ leads_collection w' = leads_collection w ++ leads.
Proof.
  induction requests as [|[now lead_data] rest IH]; intros top w Htop Hroom Hinv Hnone.
  - exists [], w. simpl. split; [reflexivity|]. split; [reflexivity|].
    now rewrite app_nil_r.
  - simpl length in Hroom. rewrite Nat2Z.inj_succ in Hroom.
    pose proof (generate_after year_month "LEAD" top (leads_collection w)
                  ltac:(lia) Hinv) as Hgen.
    destruct (create_lead_generated year_month now lead_data w _
                (Hnone (now, lead_data) (or_introl eq_refl)) Hgen)
      as (lead & w1 & Hcall & Hid & Hleads).
    assert (Hinv1 : numbered_up_to ("LEAD" +:+ "-" +:+ year_month +:+ "-")
                      (top + 1) (leads_collection w1)).
    { rewrite Hleads. now apply numbered_up_to_next. }
    destruct (IH (top + 1)%Z w1 ltac:(lia) ltac:(lia) Hinv1
                (fun r Hr => Hnone r (or_intror Hr)))
      as (leads & w' & Hrest & Hids & Hleads').
    exists (lead :: leads), w'. split; [|split].
    + simpl. unfold bind. rewrite Hcall.
      unfold bind in Hrest. now rewrite Hrest.
    + simpl length. rewrite <- cons_seq, <- seq_shift. simpl.
      rewrite Hid, Hids, map_map. f_equal.
      apply map_ext. intros i. do 2 f_equal. lia.
    + rewrite Hleads', Hleads, <- app_assoc. reflexivity.
Qed.

(** X22.  Up to 99999 creations a month are numbered without a repeat.
    Start from a store with no identifier of the month and create leads one
    call after the other, each leaving its [item_id] to the generator, at
    most 99999 of them.  Then every call returns, the leads get
    "LEAD-<YYYYMM>-00001", "...-00002", ... in the order of the calls, these
    identifiers are pairwise distinct, and the leads are appended to the
    store in that order. *)
Theorem sequential_creations_are_numbered
    (year_month : string) (requests : list (datetime * LeadData.t))
    (w : World) :
  (forall doc, In doc (leads_collection w) ->
               startswith ("LEAD" +:+ "-" +:+ year_month +:+ "-")
                          (WorkItem.item_id doc) = false) ->
  (forall r, In r requests -> LeadData.item_id (snd r) = None) ->
  (Z.of_nat (length requests) <= 99999)%Z ->
  exists leads w',
    create_leads year_month requests w = (Ok leads, w')
    /\ map WorkItem.item_id leads
       = map (fun i => ("LEAD" +:+ "-" +:+ year_month +:+ "-")
                       +:+ format_05d (Z.of_nat i))
             (seq 1 (length requests))
    /\ List.NoDup (map WorkItem.item_id leads)
    /\ leads_collection w' = leads_collection w ++ leads.
Proof.
  intros Hnone Hauto Hlen.
  destruct (create_leads_numbered year_month requests 0%Z w ltac:(lia)
              ltac:(lia)) as (leads & w' & Hcall & Hids & Hleads).
  - split; [|now left].
    intros doc Hin Hpre. rewrite (Hnone doc Hin) in Hpre. discriminate.
  - exact Hauto.
  - exists leads, w'. split; [exact Hcall|]. split; [exact Hids|].
    split; [|exact Hleads].
    rewrite Hids. apply Finite.Injective_map_NoDup; [|apply List.seq_NoDup].
    intros i j Heq. apply format_05d_inj in Heq; lia.
Qed.

Lemma sequential_creations_witness :
  exists leads w',
    create_leads "202611" DemoIds.two_requests Demo.empty_world = (Ok leads, w')
    /\ map WorkItem.item_id leads = ["LEAD-202611-00001"; "LEAD-202611-00002"]
    /\ List.NoDup (map WorkItem.item_id leads)
    /\ leads_collection w' = leads_collection Demo.empty_world ++ leads.
Proof.
  apply (sequential_creations_are_numbered "202611" DemoIds.two_requests
           Demo.empty_world).
  - intros doc [].
  - intros r [<-|[<-|[]]]; reflexivity.
  - simpl. lia.
Defined.

Lemma generated_id_is_next_witness :
  exists n,
    (1 <= n <= 99999)%Z
    /\ generate_lead_id "202611" [DemoIds.lead_99998] "LEAD"
       = Ok ("LEAD-202611-" +:+ format_05d n)
    /\ (forall doc, In doc [DemoIds.lead_99998] ->
                    WorkItem.item_id doc <> "LEAD-202611-" +:+ format_05d n)
    /\ (forall doc, In doc [DemoIds.lead_99998] ->
                    startswith "LEAD-202611-" (WorkItem.item_id doc) = true ->
                    String.ltb (WorkItem.item_id doc)
                               ("LEAD-202611-" +:+ format_05d n) = true)
    /\ (forall doc k, In doc [DemoIds.lead_99998] -> (0 <= k)%Z ->
                      WorkItem.item_id doc = "LEAD-202611-" +:+ format_05d k ->
                      (k < n)%Z)
    /\ (n = 1%Z
        \/ exists doc, In doc [DemoIds.lead_99998]
                       /\ WorkItem.item_id doc
                          = "LEAD-202611-" +:+ format_05d (n - 1)).
Proof.
  apply (generated_id_is_next_and_fresh "202611" [DemoIds.lead_99998]).
  - reflexivity.
  - intros doc [<-|[]] _. exists 99998%Z. split; [lia|]. reflexivity.
Defined.

Lemma uuids_injective (i j : nat) : Demo.uuids i = Demo.uuids j -> i = j.
Proof.
  unfold Demo.uuids. intros H. apply append_inj_l in H.
  apply (f_equal (fun s => digits_value s 0)) in H.
  rewrite !decimal_value in H by lia. lia.
Qed.

Lemma transition_instantiates_every_template_witness :
  uuid4_unique Demo.world_1
  /\ (exists lead' new_tasks,
        get_lead "L1" Demo.world_2 = (Ok (Some lead'), Demo.world_2)
        /\ WorkItem.tasks lead' = WorkItem.tasks Demo.lead_1 ++ new_tasks
        /\ Forall2 (instance_of "B") [Demo.template_T] new_tasks
        /\ map WorkItemTask.uid new_tasks = ["uuid-0"]
        /\ uuid_drawn Demo.world_2 = 1%nat
        /\ List.NoDup (map WorkItemTask.uid new_tasks)
        /\ uuid4_unique Demo.world_2
        /\ List.NoDup (stored_task_uids Demo.world_2))
  /\ (exists lead',
         get_lead "L1" DemoRun.world_4 = (Ok (Some lead'), DemoRun.world_4)
         /\ length (WorkItem.tasks lead') = 2%nat
         /\ List.NoDup (map WorkItemTask.uid (WorkItem.tasks lead'))).
Proof.
  assert (Hu : uuid4_unique Demo.world_1).
  { split.
    - exact uuids_injective.
    - intros i _ Hin. vm_compute in Hin. exact Hin. }
  assert (Hnd : List.NoDup (stored_task_uids Demo.world_1))
    by (vm_compute; constructor).
  assert (Hl : get_lead "L1" Demo.world_1 = (Ok (Some Demo.lead_1), Demo.world_1))
    by (vm_compute; reflexivity).
  split; [exact Hu|]. split.
  - destruct (proj1 (transition_instantiates_every_template "L1")
                20 "B" "" None Demo.world_1 Demo.world_2 Demo.lead_1
                Demo.stage_B Hl ltac:(vm_compute; reflexivity)
                ltac:(reflexivity))
      as (lead' & new_tasks & H1 & H2 & H3 & H4 & _ & H6 & H7).
    destruct (H7 Hu) as (Ha & _ & Hc & Hd).
    exists lead', new_tasks.
    split; [exact H1|]. split; [exact H2|]. split; [exact H3|].
    split; [exact H4|]. split; [exact H6|]. split; [exact Ha|].
    split; [exact Hc | exact (Hd Hnd)].
  - destruct (proj2 (transition_instantiates_every_template "L1")
                DemoRun.commands Demo.world_1 DemoRun.world_4 Demo.lead_1
                Hl ltac:(vm_compute; reflexivity))
      as (lead' & H1 & H2 & H3).
    destruct (H3 Hu Hnd) as (_ & _ & Hx).
    exists lead'. split; [exact H1|]. split; [exact H2 | exact Hx].
Defined.

Lemma get_or_create_config_witness :
  exists config w',
    get_or_create_config 1 2 "default" Demo.world_1 = (Ok config, w')
    /\ config = WorkItemConfig.mk "default" "Workflow default" true [] 1 2
    /\ get_config "default" w' = (Ok (Some config), w')
    /\ get_or_create_config 8 9 "default" w' = (Ok config, w').
Proof.
  destruct (get_or_create_config_creates_once 1 2 "default" Demo.world_1)
    as (config & w' & Hcall & _ & Hget & _ & Hnew & Hagain).
  exists config, w'. split; [exact Hcall|]. split; [|split].
  - apply Hnew. reflexivity.
  - exact Hget.
  - apply Hagain.
Defined.

(** X24.  A new lead starts with one open history entry.  When
    [lead_data] brings no history and names a stage (a non-empty string),
    the lead [create_lead] stores has exactly one history entry that is
    open, for its [current_stage], and it is appended to the stored
    leads. *)
Theorem fresh_lead_has_one_open_entry
    (year_month : string) (now : datetime) (lead_data : LeadData.t)
    (w w' : World) (lead : WorkItem.t) :
  LeadData.history lead_data = [] ->
  LeadData.current_stage lead_data <> "" ->
  create_lead year_month now lead_data w = (Ok lead, w') ->
  (exists hist,
      List.filter is_open (WorkItem.history lead) = [hist]
      /\ HistoryData.stage hist = WorkItem.current_stage lead
      /\ HistoryData.entered_at hist = now)
  /\ leads_collection w' = leads_collection w ++ [lead].
Proof.
  intros Hh Hs Hcall.
  destruct (create_lead_history_invariant year_month now lead_data w w' lead
              Hh Hs Hcall) as [_ Hleads].
  split; [|exact Hleads].
  unfold create_lead, bind in Hcall.
  destruct (match LeadData.uid lead_data with
            | Some u => ret u
            | None => uuid4
            end w) as [[uid|e] w1]; [|discriminate].
  destruct (match LeadData.item_id lead_data with
            | Some i => ret i
            | None => fun w0 =>
                (generate_lead_id year_month (leads_collection w0) "LEAD", w0)
            end w1) as [[item_id|e] w2]; [|discriminate].
  unfold insert_lead, ret in Hcall. inversion Hcall; subst lead. simpl.
  rewrite Hh. simpl.
  assert (Ht : str_truthy (LeadData.current_stage lead_data) = true).
  { unfold str_truthy. apply negb_true_iff. now apply String.eqb_neq. }
  rewrite Ht. eexists. repeat split.
Qed.

Lemma fresh_lead_has_one_open_entry_witness :
  (exists hist,
      List.filter is_open (WorkItem.history Demo.lead_1) = [hist]
      /\ HistoryData.stage hist = WorkItem.current_stage Demo.lead_1
      /\ HistoryData.entered_at hist = 10)
  /\ leads_collection Demo.world_1
     = leads_collection Demo.empty_world ++ [Demo.lead_1].
Proof.
  apply (fresh_lead_has_one_open_entry "202611" 10 (Demo.lead_data "L1" "A")
           Demo.empty_world Demo.world_1 Demo.lead_1).
  - reflexivity.
  - discriminate.
  - vm_compute. reflexivity.
Defined.

(** ** The board shows a lead once *)

Lemma get_kanban_data_columns (config_uid : option string) (w : World) :
  get_kanban_data config_uid w
  = (Ok (map (column_of config_uid w)
             (sort_by_order (List.filter (stage_query config_uid)
                                         (stages_collection w)))), w).
Proof.
  unfold get_kanban_data, bind, list_stages. apply mapM_kanban_column.
Qed.

Lemma NoDup_map_eq {A B} (f : A -> B) (l : list A) (x y : A) :
  List.NoDup (map f l) -> In x l -> In y l -> f x = f y -> x = y.
Proof.
  induction l as [|z l IH]; simpl; [contradiction|].
  intros Hnd [->|Hx] [->|Hy] Hf; try reflexivity.
  - apply List.NoDup_cons_iff in Hnd as [Hnotin _]. exfalso. apply Hnotin.
    rewrite Hf. now apply in_map.
  - apply List.NoDup_cons_iff in Hnd as [Hnotin _]. exfalso. apply Hnotin.
    rewrite <- Hf. now apply in_map.
  - apply List.NoDup_cons_iff in Hnd as [_ Hnd]. now apply IH.
Qed.

(** X23.  With stage uids that are unique, the board shows a lead once at
    most.  A stored lead is in the column of a stage exactly when its
    [current_stage] is that stage's uid and, if a config was asked for, lead
    and stage both belong to it; so a lead whose stage is not in the catalog
    is on no column, and no lead is on two. *)
Theorem kanban_shows_each_lead_once
    (config_uid : option string) (w : World) (columns : list KanbanColumn.t)
    (lead : WorkItem.t) :
  get_kanban_data config_uid w = (Ok columns, w) ->
  List.NoDup (map WorkStage.uid (stages_collection w)) ->
  In lead (leads_collection w) ->
  (forall c1 c2,
      In c1 columns -> In c2 columns ->
      In lead (KanbanColumn.leads c1) -> In lead (KanbanColumn.leads c2) ->
      c1 = c2)
  /\ ((exists column, In column columns /\ In lead (KanbanColumn.leads column))
      <-> config_matches config_uid (WorkItem.config lead)
          /\ exists stage,
               In stage (stages_collection w)
               /\ WorkStage.uid stage = WorkItem.current_stage lead
               /\ config_matches config_uid (WorkStage.config stage)).
Proof.
  intros Hcall Hnodup Hlead.
  rewrite get_kanban_data_columns in Hcall. injection Hcall as <-.
  set (listed := sort_by_order (List.filter (stage_query config_uid)
                                            (stages_collection w))).
  assert (Hlisted : forall stage,
             In stage listed <->
             In stage (stages_collection w)
             /\ config_matches config_uid (WorkStage.config stage)).
  { intros stage. rewrite <- stage_query_spec, <- filter_In.
    split; apply Permutation_in; [|symmetry]; apply sort_by_order_perm. }
  assert (Hcol : forall column,
             In column (map (column_of config_uid w) listed) ->
             In lead (KanbanColumn.leads column) ->
             exists stage,
               column = column_of config_uid w stage
               /\ In stage listed
               /\ WorkItem.current_stage lead = WorkStage.uid stage
               /\ config_matches config_uid (WorkItem.config lead)).
  { intros column Hin Hmem. apply in_map_iff in Hin as (stage & <- & Hst).
    exists stage. split; [reflexivity|]. split; [exact Hst|].
    simpl in Hmem. apply filter_In in Hmem as [_ Hq].
    now apply lead_query_spec in Hq. }
  split.
  - intros c1 c2 H1 H2 Hm1 Hm2.
    destruct (Hcol c1 H1 Hm1) as (s1 & -> & Hs1 & Hu1 & _).
    destruct (Hcol c2 H2 Hm2) as (s2 & -> & Hs2 & Hu2 & _).
    f_equal. apply Hlisted in Hs1 as [Hs1 _]. apply Hlisted in Hs2 as [Hs2 _].
    apply (NoDup_map_eq WorkStage.uid _ s1 s2 Hnodup Hs1 Hs2). congruence.
  - split.
    + intros (column & Hin & Hmem).
      destruct (Hcol column Hin Hmem) as (stage & _ & Hst & Hu & Hcfg).
      apply Hlisted in Hst as [Hst Hscfg].
      split; [exact Hcfg|]. exists stage. now repeat split.
    + intros (Hcfg & stage & Hst & Hu & Hscfg).
      exists (column_of config_uid w stage). split.
      * apply in_map. apply Hlisted. now split.
      * simpl. apply filter_In. split; [exact Hlead|].
        apply lead_query_spec. now split.
Qed.

Lemma kanban_shows_each_lead_once_witness :
  exists columns,
    get_kanban_data None Demo.world_2 = (Ok columns, Demo.world_2)
    /\ (exists column, In column columns
                       /\ In Demo.lead_2 (KanbanColumn.leads column)).
Proof.
  eexists. split; [apply get_kanban_data_columns|].
  apply (proj2 (kanban_shows_each_lead_once None Demo.world_2 _ Demo.lead_2
                  (get_kanban_data_columns None Demo.world_2)
                  ltac:(vm_compute; repeat constructor; simpl; intuition discriminate)
                  ltac:(left; reflexivity))).
  split; [exact I|].
  exists Demo.stage_B. split; [right; left; reflexivity|].
  split; [reflexivity | exact I].
Defined.
